(** * Candlestick chart components: viewport controller, acquisition,
      synthetic generators and rendering geometry

    A shallow embedding of the chart components (RealStockChart,
    YahooFinanceChart, InteractiveStockChart and StockChart) and the
    properties their specification states.

    - JavaScript numbers are modelled by [num]: an exact rational, or one
      of the three special values +Infinity, -Infinity and NaN.  Finite
      arithmetic is exact (no signed zero); the special values follow
      IEEE 754 as JavaScript exposes them.  Finite results are kept in
      lowest terms ([Qred]), so that equal numbers are equal terms.
      Where the rounding of binary64 decides what the code does, in the
      offset of a drag, each operation is followed by [JS.round64]; a
      later section compares the zoom arithmetic with binary64.
    - A date string [YYYY-MM-DD] is modelled by its day number.
    - Exceptions are values of [result]; [try]/[catch] is a match on them.
    - [Math.random], [Math.sin] and the clock are parameters of the
      generators.
    - The answer of the network is a value of [HttpOutcome]. *)

From Stdlib Require Import ZArith QArith Qround Qreduction Qabs.
From Stdlib Require Import String List Bool Lia Lqa SpecFloat.
From Stdlib Require Import Sorting.Sorted Sorting.Permutation.
Import ListNotations.

Local Open Scope Z_scope.

(** ** JavaScript numbers *)

Inductive num : Type :=
| Fin (q : Q)
| PInf
| NInf
| NaN.

Definition ofZ (z : Z) : num := Fin (inject_Z z).
Definition ofNat (n : nat) : num := ofZ (Z.of_nat n).

(** Decimal literals of the source, e.g. [lit 11 10] for [1.1]. *)
Definition lit (n : Z) (d : positive) : num := Fin (Qred (n # d)).

Module JS.

Definition isFinite (a : num) : bool :=
  match a with Fin _ => true | _ => false end.

(** Sign of a rational: -1, 0 or 1. *)
Definition qsgn (q : Q) : Z := Z.sgn (Qnum q).

Definition add (a b : num) : num :=
  match a, b with
  | NaN, _ | _, NaN => NaN
  | Fin x, Fin y => Fin (Qred (x + y))
  | PInf, NInf | NInf, PInf => NaN
  | PInf, _ | _, PInf => PInf
  | NInf, _ | _, NInf => NInf
  end.

Definition sub (a b : num) : num :=
  match a, b with
  | NaN, _ | _, NaN => NaN
  | Fin x, Fin y => Fin (Qred (x - y))
  | PInf, PInf | NInf, NInf => NaN
  | PInf, _ | _, NInf => PInf
  | NInf, _ | _, PInf => NInf
  end.

(** An infinity of sign [pos] scaled by a factor of sign [s]. *)
Definition signedInf (pos : bool) (s : Z) : num :=
  match s with
  | Z0 => NaN
  | Zpos _ => if pos then PInf else NInf
  | Zneg _ => if pos then NInf else PInf
  end.

Definition mul (a b : num) : num :=
  match a, b with
  | NaN, _ | _, NaN => NaN
  | Fin x, Fin y => Fin (Qred (x * y))
  | Fin x, PInf => signedInf true (qsgn x)
  | Fin x, NInf => signedInf false (qsgn x)
  | PInf, Fin y => signedInf true (qsgn y)
  | NInf, Fin y => signedInf false (qsgn y)
  | PInf, PInf | NInf, NInf => PInf
  | PInf, NInf | NInf, PInf => NInf
  end.

(** Division.  A finite number over zero is an infinity of the sign of the
    numerator (the zero divisors of the modelled code are differences and
    lengths, which are +0), and 0/0 is NaN. *)
Definition div (a b : num) : num :=
  match a, b with
  | NaN, _ | _, NaN => NaN
  | Fin x, Fin y =>
      if Qeq_bool y 0 then signedInf true (qsgn x) else Fin (Qred (x / y))
  | Fin _, PInf | Fin _, NInf => Fin 0
  | PInf, Fin y => if Qeq_bool y 0 then PInf else signedInf true (qsgn y)
  | NInf, Fin y => if Qeq_bool y 0 then NInf else signedInf false (qsgn y)
  | _, _ => NaN
  end.

(** [a < b]; every comparison with NaN is false. *)
Definition lt (a b : num) : bool :=
  match a, b with
  | NaN, _ | _, NaN => false
  | Fin x, Fin y => match x ?= y with Lt => true | _ => false end
  | Fin _, PInf | NInf, Fin _ | NInf, PInf => true
  | Fin _, NInf | PInf, _ | NInf, NInf => false
  end%Q.

Definition gt (a b : num) : bool := lt b a.

Definition le (a b : num) : bool :=
  match a, b with
  | NaN, _ | _, NaN => false
  | Fin x, Fin y => match x ?= y with Gt => false | _ => true end
  | Fin _, PInf | NInf, _ | PInf, PInf => true
  | Fin _, NInf | PInf, Fin _ | PInf, NInf => false
  end%Q.

Definition ge (a b : num) : bool := le b a.

(** Strict equality [===] on numbers: NaN differs from itself. *)
Definition seq (a b : num) : bool :=
  match a, b with
  | Fin x, Fin y => Qeq_bool x y
  | PInf, PInf | NInf, NInf => true
  | _, _ => false
  end.

Definition sneq (a b : num) : bool := negb (seq a b).

(** [Math.max] and [Math.min] of two arguments. *)
Definition max (a b : num) : num :=
  match a, b with
  | NaN, _ | _, NaN => NaN
  | _, _ => if lt a b then b else a
  end.

Definition min (a b : num) : num :=
  match a, b with
  | NaN, _ | _, NaN => NaN
  | _, _ => if lt b a then b else a
  end.

Definition abs (a : num) : num :=
  match a with
  | Fin q => Fin (Qred (Qabs q))
  | PInf | NInf => PInf
  | NaN => NaN
  end.

(** [Math.floor]. *)
Definition floor (a : num) : num :=
  match a with
  | Fin q => ofZ (Qfloor q)
  | _ => a
  end.

(** [Math.round]: the nearest integer, ties towards +Infinity. *)
Definition round (a : num) : num :=
  match a with
  | Fin q => ofZ (Qfloor (q + (1 # 2)))
  | _ => a
  end.

(** Truthiness of a number, as [||] and [!] test it. *)
Definition truthy (a : num) : bool :=
  match a with
  | Fin q => negb (Qeq_bool q 0)
  | PInf | NInf => true
  | NaN => false
  end.

(** [Number(x.toFixed(2))]: the nearest multiple of 1/100, ties away from
    zero.  From 10^21 on, [toFixed] prints the number itself. *)
Definition round2 (q : Q) : Q :=
  if Qle_bool (inject_Z (10 ^ 21)) (Qabs q) then q
  else
    let n := Qfloor (Qabs q * 100 + (1 # 2)) in
    inject_Z (Z.sgn (Qnum q) * n) / 100.

Definition toFixed2 (a : num) : num :=
  match a with
  | Fin q => Fin (Qred (round2 q))
  | _ => a
  end.

(** The number a binary64 datum stands for. *)
Definition ofFloat (f : spec_float) : num :=
  match f with
  | S754_zero _ => Fin 0
  | S754_infinity false => PInf
  | S754_infinity true => NInf
  | S754_nan => NaN
  | S754_finite s m e =>
      let z := if s then Zneg m else Zpos m in
      Fin (Qred (match e with
                 | Zneg p => z # (2 ^ p)
                 | _ => inject_Z (z * 2 ^ e)
                 end))
  end.

(** The binary64 number an exact result is rounded to: the nearest one,
    ties to even, an infinity on overflow.  It is what IEEE 754 division
    of the numerator by the denominator returns. *)
Definition round64 (a : num) : num :=
  match a with
  | Fin q =>
      let q := Qred q in
      match Qnum q with
      | Z0 => Fin 0
      | Zpos n =>
          ofFloat (SFdiv 53 1024 (S754_finite false n 0)
                         (S754_finite false (Qden q) 0))
      | Zneg n =>
          ofFloat (SFdiv 53 1024 (S754_finite true n 0)
                         (S754_finite false (Qden q) 0))
      end
  | _ => a
  end.

End JS.

Declare Scope num_scope.
Delimit Scope num_scope with num.
Bind Scope num_scope with num.
Infix "+" := JS.add : num_scope.
Infix "-" := JS.sub : num_scope.
Infix "*" := JS.mul : num_scope.
Infix "/" := JS.div : num_scope.

(** ** Data model *)

(** One OHLCV point.  The [date] field of the source is the ISO day string
    [YYYY-MM-DD]; it is modelled by the number of that day counted from
    1970-01-01, which orders days as [new Date(date).getTime()] does. *)
Record StockData : Type := mkStockData {
  date : Z;
  open : num;
  high : num;
  low : num;
  close : num;
  volume : num
}.

(** The chart state of RealStockChart and InteractiveStockChart
    (YahooFinanceChart keeps the last four fields only). *)
Record ChartState : Type := mkChartState {
  startIndex : num;
  endIndex : num;
  scale : num;
  dragStartX : option num;
  isDragging : bool;
  viewportStart : num;
  viewportEnd : num
}.

(** [{ ...prev, viewportStart: s, viewportEnd: e }] *)
Definition setViewport (prev : ChartState) (s e : num) : ChartState :=
  mkChartState (startIndex prev) (endIndex prev) (scale prev)
               (dragStartX prev) (isDragging prev) s e.

(** [{ ...prev, isDragging: d, dragStartX: x }] *)
Definition setDrag (prev : ChartState) (d : bool) (x : option num) : ChartState :=
  mkChartState (startIndex prev) (endIndex prev) (scale prev)
               x d (viewportStart prev) (viewportEnd prev).

(** [{ ...prev, viewportStart: s, viewportEnd: e, dragStartX: x }] *)
Definition setViewportDrag (prev : ChartState) (s e x : num) : ChartState :=
  mkChartState (startIndex prev) (endIndex prev) (scale prev)
               (Some x) (isDragging prev) s e.

(** [{ ...prev, endIndex: n, viewportEnd: n }] *)
Definition setEnd (prev : ChartState) (n : num) : ChartState :=
  mkChartState (startIndex prev) n (scale prev)
               (dragStartX prev) (isDragging prev) (viewportStart prev) n.

(** The state the component is created with, for the [days] property. *)
Definition initialChartState (days : num) : ChartState :=
  mkChartState (ofZ 0) days (ofZ 1) None false (ofZ 0) days.

(** ** Viewport controller

    Every handler reads the chart state of the last render and writes
    through [setChartState (prev => ...)]; events are handled one at a
    time with a render in between, so both are the same state [st].
    [len] is [stockData.length]. *)

Section Viewport.

Variable len : nat.

Local Open Scope num_scope.

Definition zoomFactor (deltaY : num) : num :=
  if JS.gt deltaY (ofZ 0) then lit 11 10 else lit 9 10.

(** [handleWheel] of RealStockChart and InteractiveStockChart. *)
Definition handleWheel (deltaY : num) (st : ChartState) : ChartState :=
  let maxVisible := JS.max (ofZ 10) (ofNat len) in
  let currentVisible := viewportEnd st - viewportStart st in
  let newVisible :=
    JS.min maxVisible
           (JS.max (ofZ 10) (JS.floor (currentVisible * zoomFactor deltaY))) in
  if JS.sneq newVisible currentVisible then
    let center := (viewportStart st + viewportEnd st) / ofZ 2 in
    let newStart := JS.max (ofZ 0) (JS.floor (center - newVisible / ofZ 2)) in
    let newEnd := JS.min (ofNat len) (newStart + newVisible) in
    setViewport st newStart newEnd
  else st.

(** [handleWheel] of YahooFinanceChart: the upper bound is the length. *)
Definition handleWheel_yahoo (deltaY : num) (st : ChartState) : ChartState :=
  let currentVisible := viewportEnd st - viewportStart st in
  let newVisible :=
    JS.min (ofNat len)
           (JS.max (ofZ 10) (JS.floor (currentVisible * zoomFactor deltaY))) in
  if JS.sneq newVisible currentVisible then
    let center := (viewportStart st + viewportEnd st) / ofZ 2 in
    let newStart := JS.max (ofZ 0) (JS.floor (center - newVisible / ofZ 2)) in
    let newEnd := JS.min (ofNat len) (newStart + newVisible) in
    setViewport st newStart newEnd
  else st.

Definition handleMouseDown (clientX : num) (st : ChartState) : ChartState :=
  setDrag st true (Some clientX).

(** The two numbers a pointer move computes before it touches the state.
    The quotient and the product are rounded to binary64 before
    [Math.floor] sees them: [800 * (29 / 800)] is a little less than 29. *)
Definition dragSensitivity (canvasWidth : Z) (st : ChartState) : num :=
  JS.round64 ((viewportEnd st - viewportStart st) / ofZ canvasWidth).

Definition dragOffset (deltaX : num) (canvasWidth : Z) (st : ChartState) : num :=
  JS.floor (JS.round64 (deltaX * dragSensitivity canvasWidth st)).

(** [handleMouseMove]; [canvas] is [canvasRef.current], given by its
    [width] (an unsigned integer) when it is mounted. *)
Definition handleMouseMove (clientX : num) (canvas : option Z)
           (st : ChartState) : ChartState :=
  match isDragging st, dragStartX st with
  | true, Some startX =>
      let deltaX := JS.round64 (clientX - startX) in
      match canvas with
      | None => st
      | Some width =>
          let offset := dragOffset deltaX width st in
          if JS.gt (JS.abs offset) (ofZ 0) then
            let newStart := JS.max (ofZ 0) (viewportStart st - offset) in
            let newEnd := JS.min (ofNat len) (viewportEnd st - offset) in
            let viewportSize := viewportEnd st - viewportStart st in
            if JS.seq (newEnd - newStart) viewportSize then
              setViewportDrag st newStart newEnd clientX
            else st
          else st
      end
  | _, _ => st
  end.

Definition handleMouseUp (st : ChartState) : ChartState :=
  setDrag st false None.

Definition zoomIn (st : ChartState) : ChartState :=
  let currentVisible := viewportEnd st - viewportStart st in
  let newVisible := JS.max (ofZ 10) (JS.floor (currentVisible * lit 8 10)) in
  let center := (viewportStart st + viewportEnd st) / ofZ 2 in
  let newStart := JS.max (ofZ 0) (JS.floor (center - newVisible / ofZ 2)) in
  let newEnd := JS.min (ofNat len) (newStart + newVisible) in
  setViewport st newStart newEnd.

Definition zoomOut (st : ChartState) : ChartState :=
  let currentVisible := viewportEnd st - viewportStart st in
  let newVisible := JS.min (ofNat len) (JS.floor (currentVisible * lit 12 10)) in
  let center := (viewportStart st + viewportEnd st) / ofZ 2 in
  let newStart := JS.max (ofZ 0) (JS.floor (center - newVisible / ofZ 2)) in
  let newEnd := JS.min (ofNat len) (newStart + newVisible) in
  setViewport st newStart newEnd.

Definition resetView (st : ChartState) : ChartState :=
  setViewport st (ofZ 0) (ofNat len).

(** The pointer, wheel and button events of the canvas and its panel. *)
Inductive Event : Type :=
| Wheel (deltaY : num)
| MouseDown (clientX : num)
| MouseMove (clientX : num) (canvas : option Z)
| MouseUp
| ZoomIn
| ZoomOut
| Reset.

Definition step (ev : Event) (st : ChartState) : ChartState :=
  match ev with
  | Wheel deltaY => handleWheel deltaY st
  | MouseDown x => handleMouseDown x st
  | MouseMove x canvas => handleMouseMove x canvas st
  | MouseUp => handleMouseUp st
  | ZoomIn => zoomIn st
  | ZoomOut => zoomOut st
  | Reset => resetView st
  end.

(** The states reached after each event of a sequence, in order. *)
Fixpoint trace (evs : list Event) (st : ChartState) : list ChartState :=
  match evs with
  | [] => []
  | ev :: rest => let st' := step ev st in st' :: trace rest st'
  end.

(** The chart state once a series of [len] points is loaded:
    [{ ...prev, endIndex: data.length, viewportEnd: data.length }]. *)
Definition loadedChartState (days : num) : ChartState :=
  setEnd (initialChartState days) (ofNat len).

End Viewport.

(** ** Exceptions *)

(** The texts the components pass to [new Error] and [setError]. *)
Inductive Message : Type :=
| ApiRequestFailed      (* RealStockChart: response not ok *)
| NoQuoteData           (* RealStockChart: no chart result in the payload *)
| HttpStatus            (* YahooFinanceChart: response not ok *)
| InvalidFormat         (* YahooFinanceChart: no chart result *)
| EmptyQuoteData        (* YahooFinanceChart: no quotes or no timestamps *)
| NoValidData           (* YahooFinanceChart: every row was skipped *)
| FallbackNotice        (* RealStockChart: live data failed, showing mock data *)
| LoadFailed.           (* RealStockChart: data loading failed *)

Inductive Exn : Type :=
| Error (msg : Message)
| TypeError
| RangeError
| Rejected.             (* a rejected [fetch] or [response.json()] promise *)

Inductive result (A : Type) : Type :=
| Ok (a : A)
| Throw (e : Exn).

Arguments Ok {A} a.
Arguments Throw {A} e.

Definition bind {A B : Type} (m : result A) (k : A -> result B) : result B :=
  match m with
  | Ok a => k a
  | Throw e => Throw e
  end.

Notation "x <- m ;; k" := (bind m (fun x => k))
  (at level 61, m at next level, right associativity).

(** ** Live payloads and their normalization *)

(** An array slot of the payload: a number, or [None] for [null] and for an
    index past the end ([undefined]).  The arrays of the chart API hold
    numbers and [null] only. *)
Definition Slot : Type := option num.

(** One entry of [indicators.quote]; a missing array is [None]. *)
Record Quote : Type := mkQuote {
  q_open : option (list Slot);
  q_high : option (list Slot);
  q_low : option (list Slot);
  q_close : option (list Slot);
  q_volume : option (list Slot)
}.

(** What [result.indicators.quote[0]] finds. *)
Inductive QuoteSlot : Type :=
| NoIndicators          (* [indicators] or [indicators.quote] is missing *)
| NoQuote0              (* the [quote] array is empty *)
| Quote0 (q : Quote).

Record ChartResult : Type := mkChartResult {
  timestamp : option (list Slot);
  quote : QuoteSlot
}.

(** What [fetch] and [response.json()] deliver.  The body is reduced to
    [data.chart?.result?.[0]], [None] when that is missing. *)
Inductive HttpOutcome : Type :=
| FetchRejected
| Response (ok : bool) (body : result (option ChartResult)).

(** [value || 0] *)
Definition orZero (v : Slot) : num :=
  match v with
  | Some n => if JS.truthy n then n else ofZ 0
  | None => ofZ 0
  end.

(** [!value] *)
Definition falsy (v : Slot) : bool :=
  match v with
  | Some n => negb (JS.truthy n)
  | None => true
  end.

(** A number used where a number is expected: [null] counts as 0. *)
Definition toNumber (v : Slot) : num :=
  match v with
  | Some n => n
  | None => ofZ 0
  end.

(** [array[index]] on an array that must exist. *)
Definition at_ (arr : option (list Slot)) (index : nat) : result Slot :=
  match arr with
  | None => Throw TypeError
  | Some l => Ok (nth index l None)
  end.

(** [array?.[index]] *)
Definition atOpt (arr : option (list Slot)) (index : nat) : Slot :=
  match arr with
  | None => None
  | Some l => nth index l None
  end.

(** Integer part of a rational, towards zero. *)
Definition truncQ (q : Q) : Z :=
  if Qle_bool 0 q then Qfloor q else - Qfloor (- q).

(** [new Date(ms).toISOString().split('T')[0]]: the UTC day of a time
    value, or a RangeError outside the 100,000,000 days around the epoch. *)
Definition isoDate (ms : num) : result Z :=
  match ms with
  | Fin q =>
      if Qle_bool (Qabs q) (inject_Z 8640000000000000)
      then Ok (truncQ q / 86400000)
      else Throw RangeError
  | _ => Throw RangeError
  end.

Section RealNormalization.

Local Open Scope num_scope.

(** The callback of [timestamps.map] in [fetchRealStockData]. *)
Definition realRow (quotes : QuoteSlot) (ts : Slot) (index : nat)
  : result StockData :=
  d <- isoDate (toNumber ts * ofZ 1000) ;;
  match quotes with
  | Quote0 q =>
      o <- at_ (q_open q) index ;;
      h <- at_ (q_high q) index ;;
      l <- at_ (q_low q) index ;;
      c <- at_ (q_close q) index ;;
      v <- at_ (q_volume q) index ;;
      Ok (mkStockData d
            (JS.toFixed2 (orZero o)) (JS.toFixed2 (orZero h))
            (JS.toFixed2 (orZero l)) (JS.toFixed2 (orZero c))
            (orZero v))
  | _ => Throw TypeError
  end.

Fixpoint realRows (quotes : QuoteSlot) (tss : list Slot) (index : nat)
  : result (list StockData) :=
  match tss with
  | [] => Ok []
  | ts :: rest =>
      row <- realRow quotes ts index ;;
      rows <- realRows quotes rest (S index) ;;
      Ok (row :: rows)
  end.

(** The filter [item.open > 0 && item.close > 0]. *)
Definition realKeeps (item : StockData) : bool :=
  JS.gt (open item) (ofZ 0) && JS.gt (close item) (ofZ 0).

(** [fetchRealStockData]; the symbol and the day count only shape the
    request. *)
Definition fetchRealStockData (http : HttpOutcome) : result (list StockData) :=
  match http with
  | FetchRejected => Throw Rejected
  | Response false _ => Throw (Error ApiRequestFailed)
  | Response true body =>
      data <- body ;;
      match data with
      | None => Throw (Error NoQuoteData)
      | Some res =>
          match quote res, timestamp res with
          | NoIndicators, _ => Throw TypeError
          | _, None => Throw TypeError
          | quotes, Some tss =>
              stockData <- realRows quotes tss 0 ;;
              Ok (filter realKeeps stockData)
          end
      end
  end.

End RealNormalization.

Section YahooNormalization.

Local Open Scope num_scope.

(** The test that skips a row:
    [!open || !high || !low || !close || open <= 0 || close <= 0]. *)
Definition yahooSkips (o h l c : Slot) : bool :=
  falsy o || falsy h || falsy l || falsy c
  || JS.le (toNumber o) (ofZ 0) || JS.le (toNumber c) (ofZ 0).

(** One turn of the loop: [None] when the row is skipped. *)
Definition yahooRow (q : Quote) (ts : Slot) (i : nat)
  : result (option StockData) :=
  let o := atOpt (q_open q) i in
  let h := atOpt (q_high q) i in
  let l := atOpt (q_low q) i in
  let c := atOpt (q_close q) i in
  let v := atOpt (q_volume q) i in
  if yahooSkips o h l c then Ok None
  else
    d <- isoDate (toNumber ts * ofZ 1000) ;;
    Ok (Some (mkStockData d
                (JS.toFixed2 (toNumber o)) (JS.toFixed2 (toNumber h))
                (JS.toFixed2 (toNumber l)) (JS.toFixed2 (toNumber c))
                (orZero v))).

Fixpoint yahooRows (q : Quote) (tss : list Slot) (i : nat)
  : result (list StockData) :=
  match tss with
  | [] => Ok []
  | ts :: rest =>
      row <- yahooRow q ts i ;;
      rows <- yahooRows q rest (S i) ;;
      Ok (match row with Some item => item :: rows | None => rows end)
  end.

(** [array.sort((a, b) => time(a.date) - time(b.date))]: the sort is
    stable, so its result is the one of a stable insertion sort. *)
Fixpoint insertByDate (item : StockData) (sorted : list StockData)
  : list StockData :=
  match sorted with
  | [] => [item]
  | y :: rest =>
      if date item <=? date y then item :: y :: rest
      else y :: insertByDate item rest
  end.

Fixpoint sortByDate (items : list StockData) : list StockData :=
  match items with
  | [] => []
  | item :: rest => insertByDate item (sortByDate rest)
  end.

(** [fetchYahooFinanceData] *)
Definition fetchYahooFinanceData (http : HttpOutcome) : result (list StockData) :=
  match http with
  | FetchRejected => Throw Rejected
  | Response false _ => Throw (Error HttpStatus)
  | Response true body =>
      data <- body ;;
      match data with
      | None => Throw (Error InvalidFormat)
      | Some res =>
          let timestamps :=
            match timestamp res with Some tss => tss | None => [] end in
          match quote res, timestamps with
          | Quote0 q, _ :: _ =>
              stockData <- yahooRows q timestamps 0 ;;
              match stockData with
              | [] => Throw (Error NoValidData)
              | _ => Ok (sortByDate stockData)
              end
          | _, _ => Throw (Error EmptyQuoteData)
          end
      end
  end.

End YahooNormalization.

(** ** Synthetic series *)

(** The per-symbol price profile of RealStockChart. *)
Record StockConfig : Type := mkStockConfig {
  base : num;
  rangeLow : num;
  rangeHigh : num;
  volatility : num;
  trend : num
}.

(** What [stockConfigs[symbol]] finds: an own entry, a property inherited
    from [Object.prototype] (truthy, but without the profile fields), or
    nothing. *)
Inductive ConfigLookup : Type :=
| Own (config : StockConfig)
| Inherited
| Absent.

Definition objectPrototypeKeys : list string :=
  ["constructor"; "toString"; "toLocaleString"; "valueOf"; "hasOwnProperty";
   "isPrototypeOf"; "propertyIsEnumerable"; "__proto__";
   "__defineGetter__"; "__defineSetter__";
   "__lookupGetter__"; "__lookupSetter__"]%string.

Definition defaultConfig : StockConfig :=
  mkStockConfig (ofZ 100) (ofZ 80) (ofZ 130) (lit 25 1000) (ofZ 0).

Definition stockConfigs (symbol : string) : ConfigLookup :=
  if String.eqb symbol "TMDX" then
    Own (mkStockConfig (ofZ 117) (ofZ 80) (ofZ 180) (lit 45 1000) (lit 1 1000))
  else if String.eqb symbol "AAPL" then
    Own (mkStockConfig (ofZ 180) (ofZ 150) (ofZ 200) (lit 2 100) (lit 1 1000))
  else if String.eqb symbol "TSLA" then
    Own (mkStockConfig (ofZ 250) (ofZ 180) (ofZ 350) (lit 45 1000) (lit 2 1000))
  else if String.eqb symbol "default" then Own defaultConfig
  else if existsb (String.eqb symbol) objectPrototypeKeys then Inherited
  else Absent.

Section Generators.

(** The environment of the generators: the values [Math.random()] returns,
    in call order, each in [0, 1); the ISO day of "now minus [i] days", or
    a RangeError when that day is outside the range of [Date]; and
    [Math.sin] on finite arguments. *)
Variable random : nat -> Q.
Variable dateDaysAgo : nat -> result Z.
Variable sinQ : Q -> Q.

Local Open Scope num_scope.

Definition Math_random (n : nat) : num := Fin (Qred (random n)).

Definition Math_sin (a : num) : num :=
  match a with
  | Fin q => Fin (Qred (sinQ q))
  | _ => NaN
  end.

(** One turn of the loop of RealStockChart's [generateMockData]: the point
    pushed, the price carried to the next day and the number of random
    values drawn so far. *)
Definition mockDay (symbol : string) (config : StockConfig) (i : nat)
           (currentPrice : num) (n : nat) : result (StockData * num * nat) :=
  let cyclicalTrend := Math_sin (ofNat i / ofZ 15) * lit 5 1000 in
  let randomWalk := (Math_random n - lit 5 10) * volatility config * ofZ 2 in
  let momentum := (Math_random (n + 1) - lit 5 10) * lit 15 1000 in
  let reversion := ((base config - currentPrice) / base config) * lit 5 1000 in
  let totalChange :=
    trend config + cyclicalTrend + randomWalk + momentum + reversion in
  let currentPrice := currentPrice * (ofZ 1 + totalChange) in
  let currentPrice :=
    JS.max (rangeLow config) (JS.min (rangeHigh config) currentPrice) in
  let open := currentPrice in
  let dayRange :=
    volatility config * (lit 3 10 + Math_random (n + 2) * lit 7 10) in
  let dailyDirection := Math_random (n + 3) - lit 5 10 in
  let close := open * (ofZ 1 + dailyDirection * dayRange) in
  let maxPrice := JS.max open close in
  let minPrice := JS.min open close in
  let high := maxPrice * (ofZ 1 + Math_random (n + 4) * lit 2 100) in
  let low := minPrice * (ofZ 1 - Math_random (n + 5) * lit 2 100) in
  let priceChange := JS.abs ((close - open) / open) in
  let baseVolume :=
    if String.eqb symbol "TMDX" then ofZ 400000 else ofZ 1000000 in
  let volume :=
    JS.floor (baseVolume * (ofZ 1 + priceChange * ofZ 8)
              * (lit 5 10 + Math_random (n + 6))) in
  d <- dateDaysAgo i ;;
  Ok (mkStockData d (JS.toFixed2 open) (JS.toFixed2 high)
                  (JS.toFixed2 low) (JS.toFixed2 close) volume,
      close, (n + 7)%nat).

(** [for (let i = days; i >= 0; i--)] from [i] down to 0. *)
Fixpoint mockDays (symbol : string) (config : StockConfig) (i : nat)
         (currentPrice : num) (n : nat) : result (list StockData) :=
  match mockDay symbol config i currentPrice n with
  | Throw e => Throw e
  | Ok (row, price, n') =>
      match i with
      | O => Ok [row]
      | S j =>
          rows <- mockDays symbol config j price n' ;;
          Ok (row :: rows)
      end
  end.

(** [generateMockData] of RealStockChart. *)
Definition generateMockData (symbol : string) (days : nat)
  : result (list StockData) :=
  match stockConfigs symbol with
  | Inherited => Throw TypeError
  | lookup =>
      let config :=
        match lookup with Own c => c | _ => defaultConfig end in
      let currentPrice :=
        base config + (Math_random 0 - lit 5 10) * ofZ 15 in
      mockDays symbol config days currentPrice 1
  end.

(** One turn of the loop of StockChart's [generateMockData]. *)
Definition simpleDay (i : nat) (basePrice : num) (n : nat)
  : result (StockData * num * nat) :=
  let volatility := lit 2 100 in
  let change := (Math_random n - lit 5 10) * ofZ 2 * volatility in
  let basePrice := basePrice * (ofZ 1 + change) in
  let basePrice := JS.max basePrice (ofZ 10) in
  let open := basePrice in
  let close := open * (ofZ 1 + (Math_random (n + 1) - lit 5 10) * lit 2 100) in
  let high := JS.max open close * (ofZ 1 + Math_random (n + 2) * lit 1 100) in
  let low := JS.min open close * (ofZ 1 - Math_random (n + 3) * lit 1 100) in
  let volume :=
    JS.floor (Math_random (n + 4) * ofZ 1000000) + ofZ 100000 in
  d <- dateDaysAgo i ;;
  Ok (mkStockData d (JS.toFixed2 open) (JS.toFixed2 high)
                  (JS.toFixed2 low) (JS.toFixed2 close) volume,
      close, (n + 5)%nat).

Fixpoint simpleDays (i : nat) (basePrice : num) (n : nat)
  : result (list StockData) :=
  match simpleDay i basePrice n with
  | Throw e => Throw e
  | Ok (row, price, n') =>
      match i with
      | O => Ok [row]
      | S j =>
          rows <- simpleDays j price n' ;;
          Ok (row :: rows)
      end
  end.

(** [generateMockData] of StockChart. *)
Definition generateMockData_simple (days : nat) : result (list StockData) :=
  simpleDays days (ofZ 50 + Math_random 0 * ofZ 100) 1.

(** The price profiles of InteractiveStockChart: the same symbols, bases,
    ranges and volatilities; there is no trend, and the field is not
    read. *)
Definition stockPriceRanges (symbol : string) : ConfigLookup :=
  match stockConfigs symbol with
  | Own c => Own (mkStockConfig (base c) (rangeLow c) (rangeHigh c)
                                (volatility c) (ofZ 0))
  | other => other
  end.

(** One turn of the loop of InteractiveStockChart's [generateMockData]. *)
Definition interactiveDay (config : StockConfig) (i : nat)
           (basePrice : num) (n : nat) : result (StockData * num * nat) :=
  let trendFactor := Math_sin (ofNat i / ofZ 10) * lit 1 1000 in
  let randomWalk := (Math_random n - lit 5 10) * ofZ 2 * volatility config in
  let momentum := (Math_random (n + 1) - lit 5 10) * lit 1 100 in
  let totalChange := trendFactor + randomWalk + momentum in
  let basePrice := basePrice * (ofZ 1 + totalChange) in
  let basePrice :=
    JS.max (rangeLow config) (JS.min (rangeHigh config) basePrice) in
  let open := basePrice in
  let dayVolatility :=
    volatility config * (lit 5 10 + Math_random (n + 2) * lit 5 10) in
  let close :=
    open * (ofZ 1 + (Math_random (n + 3) - lit 5 10) * ofZ 2 * dayVolatility) in
  let maxPrice := JS.max open close in
  let minPrice := JS.min open close in
  let high := maxPrice * (ofZ 1 + Math_random (n + 4) * lit 15 1000) in
  let low := minPrice * (ofZ 1 - Math_random (n + 5) * lit 15 1000) in
  let priceChangePercent := JS.abs ((close - open) / open) in
  let baseVolume := ofZ 500000 + Math_random (n + 6) * ofZ 500000 in
  let volume :=
    JS.floor (baseVolume * (ofZ 1 + priceChangePercent * ofZ 5)) in
  d <- dateDaysAgo i ;;
  Ok (mkStockData d (JS.toFixed2 open) (JS.toFixed2 high)
                  (JS.toFixed2 low) (JS.toFixed2 close) volume,
      close, (n + 7)%nat).

Fixpoint interactiveDays (config : StockConfig) (i : nat)
         (basePrice : num) (n : nat) : result (list StockData) :=
  match interactiveDay config i basePrice n with
  | Throw e => Throw e
  | Ok (row, price, n') =>
      match i with
      | O => Ok [row]
      | S j =>
          rows <- interactiveDays config j price n' ;;
          Ok (row :: rows)
      end
  end.

(** [generateMockData] of InteractiveStockChart. *)
Definition generateMockData_interactive (symbol : string) (days : nat)
  : result (list StockData) :=
  match stockPriceRanges symbol with
  | Inherited => Throw TypeError
  | lookup =>
      let config :=
        match lookup with Own c => c | _ => defaultConfig end in
      let basePrice := base config + (Math_random 0 - lit 5 10) * ofZ 20 in
      interactiveDays config days basePrice 1
  end.

End Generators.

(** ** Loading *)

Inductive DataSource : Type := mock | api.

(** The state of the RealStockChart component. *)
Record Component : Type := mkComponent {
  stockData : list StockData;
  loading : bool;
  error : option Message;
  dataSource : DataSource;
  chartState : ChartState
}.

Definition setLoading (b : bool) (c : Component) : Component :=
  mkComponent (stockData c) b (error c) (dataSource c) (chartState c).
Definition setError (e : option Message) (c : Component) : Component :=
  mkComponent (stockData c) (loading c) e (dataSource c) (chartState c).
Definition setDataSource (s : DataSource) (c : Component) : Component :=
  mkComponent (stockData c) (loading c) (error c) s (chartState c).
Definition setStockData (d : list StockData) (c : Component) : Component :=
  mkComponent d (loading c) (error c) (dataSource c) (chartState c).
Definition setChartState (f : ChartState -> ChartState) (c : Component)
  : Component :=
  mkComponent (stockData c) (loading c) (error c) (dataSource c)
              (f (chartState c)).

Section Loading.

Variable random : nat -> Q.
Variable dateDaysAgo : nat -> result Z.
Variable sinQ : Q -> Q.

(** The [try] block of [loadData]: the state it leaves, or the exception
    that reaches the outer [catch].  A state change made before a throw is
    kept; none is made on those paths. *)
Definition loadData_try (useRealData : bool) (http : HttpOutcome)
           (symbol : string) (days : nat) (c : Component) : result Component :=
  chosen <-
    (if useRealData then
       match fetchRealStockData http with
       | Ok data => Ok (data, setDataSource api c)
       | Throw _ =>
           data <- generateMockData random dateDaysAgo sinQ symbol days ;;
           Ok (data, setError (Some FallbackNotice) (setDataSource mock c))
       end
     else
       data <- generateMockData random dateDaysAgo sinQ symbol days ;;
       Ok (data, setDataSource mock c)) ;;
  let '(data, c) := chosen in
  Ok (setChartState (fun prev => setEnd prev (ofNat (length data)))
                    (setStockData data c)).

(** [loadData]: [try] / [catch] / [finally] around the block above. *)
Definition loadData (useRealData : bool) (http : HttpOutcome)
           (symbol : string) (days : nat) (c : Component) : result Component :=
  let c := setError None (setLoading true c) in
  let c :=
    match loadData_try useRealData http symbol days c with
    | Ok c' => c'
    | Throw _ => setError (Some LoadFailed) c
    end in
  Ok (setLoading false c).

End Loading.



(** ** Rendering geometry *)

(** The pixel geometry of one candle: the wick from [c_highY] to [c_lowY]
    at [c_x], and the body rectangle. *)
Record Candle : Type := mkCandle {
  c_x : num;
  c_highY : num;
  c_lowY : num;
  c_bodyX : num;
  c_bodyY : num;
  c_bodyWidth : num;
  c_bodyHeight : num;
  c_isUp : bool
}.

(** The geometry of one call of [drawChart] that depends on the prices:
    the price scale, the six horizontal grid lines with their price
    labels, and the candles.  (The vertical grid lines, the frame and the
    text overlay do not depend on the price scale.) *)
Record Drawing : Type := mkDrawing {
  d_priceScale : num;
  d_grid : list (num * num);
  d_candles : list Candle
}.

Section Rendering.

Local Open Scope num_scope.

(** [Math.min(...values)] and [Math.max(...values)] *)
Definition minOf (values : list num) : num := fold_left JS.min values PInf.
Definition maxOf (values : list num) : num := fold_left JS.max values NInf.

(** An index argument of [slice] on an array of [n] elements. *)
Definition sliceIndex (n : Z) (a : num) : Z :=
  match a with
  | Fin q =>
      let z := truncQ q in
      if z <? 0 then Z.max (n + z) 0 else Z.min z n
  | PInf => n
  | NInf | NaN => 0
  end.

(** [array.slice(from, to)] *)
Definition slice {A : Type} (from to : num) (l : list A) : list A :=
  let n := Z.of_nat (length l) in
  let k := sliceIndex n from in
  let final := sliceIndex n to in
  firstn (Z.to_nat (final - k)) (skipn (Z.to_nat k) l).

Definition padding : num := ofZ 60.

Definition candle (chartWidth maxPrice priceScale candleWidth : num)
           (count : nat) (item : StockData) (index : nat) : Candle :=
  let x := padding + (chartWidth * ofNat index) / (ofNat count - ofZ 1) in
  let openY := padding + (maxPrice - open item) * priceScale in
  let closeY := padding + (maxPrice - close item) * priceScale in
  let highY := padding + (maxPrice - high item) * priceScale in
  let lowY := padding + (maxPrice - low item) * priceScale in
  let isUp := JS.gt (close item) (open item) in
  let bodyHeight := JS.abs (closeY - openY) in
  let bodyY := JS.min openY closeY in
  mkCandle x highY lowY (x - candleWidth / ofZ 2) bodyY candleWidth
           (if JS.lt bodyHeight (ofZ 1) then ofZ 1 else bodyHeight) isUp.

Fixpoint candles (chartWidth maxPrice priceScale candleWidth : num)
         (count : nat) (items : list StockData) (index : nat) : list Candle :=
  match items with
  | [] => []
  | item :: rest =>
      candle chartWidth maxPrice priceScale candleWidth count item index
      :: candles chartWidth maxPrice priceScale candleWidth count rest (S index)
  end.

(** The geometry [drawChart] computes for the visible points. *)
Definition drawVisible (canvasWidth canvasHeight : Z)
           (visibleData : list StockData) : Drawing :=
  let chartWidth := ofZ canvasWidth - padding * ofZ 2 in
  let chartHeight := ofZ canvasHeight - padding * ofZ 2 in
  let prices := flat_map (fun d => [high d; low d]) visibleData in
  let minPrice := minOf prices in
  let maxPrice := maxOf prices in
  let priceRange := maxPrice - minPrice in
  let priceScale := chartHeight / priceRange in
  let grid :=
    map (fun i => (padding + (chartHeight * ofZ i) / ofZ 5,
                   maxPrice - (priceRange * ofZ i) / ofZ 5))
        [0; 1; 2; 3; 4; 5]%Z in
  let candleWidth :=
    JS.max (ofZ 2) (chartWidth / ofNat (length visibleData) * lit 8 10) in
  mkDrawing priceScale grid
            (candles chartWidth maxPrice priceScale candleWidth
                     (length visibleData) visibleData 0).

(** [drawChart] on a mounted canvas with a 2D context: [None] when it
    returns before drawing. *)
Definition drawChart (canvasWidth canvasHeight : Z)
           (stockData : list StockData) (st : ChartState) : option Drawing :=
  match stockData with
  | [] => None
  | _ =>
      match slice (viewportStart st) (viewportEnd st) stockData with
      | [] => None
      | visibleData => Some (drawVisible canvasWidth canvasHeight visibleData)
      end
  end.

End Rendering.

(** ** The date grid of drawChart *)

Section DateGrid.

Local Open Scope num_scope.

(** [Math.max(1, Math.floor(visibleData.length / 8))] *)
Definition timeStep (count : nat) : num :=
  JS.max (ofZ 1) (JS.floor (ofNat count / ofZ 8)).

(** [for (let i = 0; i < visibleData.length; i += timeStep)]: the values
    of [i] the body runs with, or [None] when [fuel] turns do not end the
    loop. *)
Fixpoint timeLoop (fuel : nat) (i step : num) (count : nat)
  : option (list num) :=
  match fuel with
  | O => None
  | S fuel =>
      if JS.lt i (ofNat count)
      then option_map (cons i) (timeLoop fuel (i + step) step count)
      else Some []
  end.

(** [array[i]] for a number [i]: the element when [i] is an index of the
    array, [undefined] otherwise. *)
Definition itemAt {A : Type} (l : list A) (i : num) : option A :=
  match i with
  | Fin q =>
      if Qle_bool 0 q && Qeq_bool q (inject_Z (Qfloor q))
      then nth_error l (Z.to_nat (Qfloor q))
      else None
  | _ => None
  end.

(** [getTimezoneOffset()] at midnight UTC of a day: the minutes local
    time is behind UTC, negative east of Greenwich. *)
Variable timezoneOffset : Z -> Z.

(** The calendar day [getMonth()] and [getDate()] give for
    [new Date(day)]: the date-only string is parsed as midnight UTC and
    the two fields are read in local time. *)
Definition localDay (day : Z) : Z :=
  (day * 1440 - timezoneOffset day) / 1440.

(** One turn of the loop: the x of the vertical line and the day whose
    month and date its label shows.  Reading [.date] of [undefined] is a
    TypeError. *)
Definition dateLine (chartWidth : num) (visibleData : list StockData)
           (i : num) : result (num * Z) :=
  let x :=
    padding + (chartWidth * i) / (ofNat (length visibleData) - ofZ 1) in
  match itemAt visibleData i with
  | Some item => Ok (x, localDay (date item))
  | None => Throw TypeError
  end.

Fixpoint dateLines (chartWidth : num) (visibleData : list StockData)
         (indices : list num) : result (list (num * Z)) :=
  match indices with
  | [] => Ok []
  | i :: rest =>
      line <- dateLine chartWidth visibleData i ;;
      lines <- dateLines chartWidth visibleData rest ;;
      Ok (line :: lines)
  end.

(** The vertical grid lines [drawChart] draws for the visible points;
    [None] when the loop is still running after [fuel] turns. *)
Definition dateGrid (fuel : nat) (canvasWidth : Z)
           (visibleData : list StockData)
  : option (result (list (num * Z))) :=
  let chartWidth := ofZ canvasWidth - padding * ofZ 2 in
  let count := length visibleData in
  option_map (dateLines chartWidth visibleData)
             (timeLoop fuel (ofZ 0) (timeStep count) count).

End DateGrid.

(** ** YahooFinanceChart: the second source and the loading chain *)

(** One entry of ['Time Series (Daily)']: the numbers [parseFloat] and
    [parseInt] read from the five fields (NaN for a field that is missing
    or not a number). *)
Record AlphaValues : Type := mkAlphaValues {
  a_open : num;
  a_high : num;
  a_low : num;
  a_close : num;
  a_volume : num
}.

(** What the Alpha Vantage request delivers: a rejected [fetch] or
    [json()], the body [null], or an object, of which the code reads
    whether ['Error Message'] is set and the time series.  The keys of
    the time series are day strings, given by their day numbers in the
    order of the object; a value that is [null] is [None]. *)
Inductive AlphaOutcome : Type :=
| AlphaRejected
| AlphaNullBody
| AlphaBody (errorMessage : bool)
            (timeSeries : option (list (Z * option AlphaValues))).

(** What [fetchAlphaVantageData] throws. *)
Inductive AlphaExn : Type :=
| AlphaFetchRejected
| AlphaErrorMessage     (* the text of ['Error Message'] *)
| NoTimeSeries          (* no time series in the body *)
| AlphaTypeError.       (* a field read on [null] *)

(** The callback of [Object.entries(timeSeries).forEach]. *)
Definition alphaRow (entry : Z * option AlphaValues) : option StockData :=
  match snd entry with
  | None => None
  | Some values =>
      Some (mkStockData (fst entry)
              (JS.toFixed2 (a_open values)) (JS.toFixed2 (a_high values))
              (JS.toFixed2 (a_low values)) (JS.toFixed2 (a_close values))
              (a_volume values))
  end.

(** All rows, or [None] when a row throws. *)
Fixpoint alphaRows (entries : list (Z * option AlphaValues))
  : option (list StockData) :=
  match entries with
  | [] => Some []
  | entry :: rest =>
      match alphaRow entry, alphaRows rest with
      | Some row, Some rows => Some (row :: rows)
      | _, _ => None
      end
  end.

(** [array.slice(from)] *)
Definition sliceFrom {A : Type} (from : num) (l : list A) : list A :=
  skipn (Z.to_nat (sliceIndex (Z.of_nat (length l)) from)) l.

(** [fetchAlphaVantageData]; [days] is the property of the component. *)
Definition fetchAlphaVantageData (days : nat) (http : AlphaOutcome)
  : AlphaExn + list StockData :=
  match http with
  | AlphaRejected => inl AlphaFetchRejected
  | AlphaNullBody => inl AlphaTypeError
  | AlphaBody true _ => inl AlphaErrorMessage
  | AlphaBody false None => inl NoTimeSeries
  | AlphaBody false (Some entries) =>
      match alphaRows entries with
      | None => inl AlphaTypeError
      | Some stockData =>
          inr (sliceFrom (ofZ 0 - ofNat days)%num (sortByDate stockData))
      end
  end.

(** The texts YahooFinanceChart passes to [setError]. *)
Inductive YahooMessage : Type :=
| AllSourcesFailed      (* no live source can be reached *)
| NoStockDataAtAll      (* the series is empty *)
| RefreshFailed (cause : Exn).   (* refresh failed: the cause's message *)

(** The state of the YahooFinanceChart component; [y_lastUpdate] is the
    clock reading of the last successful load. *)
Record YahooComponent : Type := mkYahooComponent {
  y_stockData : list StockData;
  y_loading : bool;
  y_error : option YahooMessage;
  y_lastUpdate : option Z;
  y_chartState : ChartState
}.

(** [{ ...prev, viewportEnd: n }] *)
Definition setViewportEnd (prev : ChartState) (n : num) : ChartState :=
  mkChartState (startIndex prev) (endIndex prev) (scale prev)
               (dragStartX prev) (isDragging prev) (viewportStart prev) n.

(** The three state changes of a successful load. *)
Definition yahooLoaded (data : list StockData) (now : Z) (c : YahooComponent)
  : YahooComponent :=
  mkYahooComponent data (y_loading c) (y_error c) (Some now)
                   (setViewportEnd (y_chartState c) (ofNat (length data))).

(** [setLoading(true); setError(null)] *)
Definition yahooStart (c : YahooComponent) : YahooComponent :=
  mkYahooComponent (y_stockData c) true None (y_lastUpdate c) (y_chartState c).

(** [catch] and [finally]: the text is stored, or nothing, and loading
    ends. *)
Definition yahooFinish (e : option YahooMessage) (c : YahooComponent)
  : YahooComponent :=
  mkYahooComponent (y_stockData c) false
                   (match e with Some m => Some m | None => y_error c end)
                   (y_lastUpdate c) (y_chartState c).

(** [loadRealData]: Yahoo first, Alpha Vantage when Yahoo throws, one
    text when both throw, another for an empty series. *)
Definition loadRealData (days : nat) (yahoo : HttpOutcome)
           (alpha : AlphaOutcome) (now : Z) (c : YahooComponent)
  : YahooComponent :=
  let c := yahooStart c in
  let fetched : YahooMessage + list StockData :=
    match fetchYahooFinanceData yahoo with
    | Ok data => inr data
    | Throw _ =>
        match fetchAlphaVantageData days alpha with
        | inr data => inr data
        | inl _ => inl AllSourcesFailed
        end
    end in
  match fetched with
  | inl m => yahooFinish (Some m) c
  | inr [] => yahooFinish (Some NoStockDataAtAll) c
  | inr data => yahooFinish None (yahooLoaded data now c)
  end.

(** [refreshData]: Yahoo only. *)
Definition refreshData (yahoo : HttpOutcome) (now : Z) (c : YahooComponent)
  : YahooComponent :=
  let c := yahooStart c in
  match fetchYahooFinanceData yahoo with
  | Ok data => yahooFinish None (yahooLoaded data now c)
  | Throw e => yahooFinish (Some (RefreshFailed e)) c
  end.

(** What YahooFinanceChart returns to React. *)
Inductive YahooView : Type :=
| YahooSpinner
| YahooErrorPanel (text : YahooMessage)
| YahooChart.

Definition render_yahoo (c : YahooComponent) : YahooView :=
  if y_loading c then YahooSpinner
  else match y_error c with
       | Some text => YahooErrorPanel text
       | None => YahooChart
       end.

(** ** TradingViewWidget: the script element

    The effect of the widget appends a script element to [document.head]
    and keeps it in [scriptRef]; React runs the cleanup an effect returned
    before it runs the effect again and when the component unmounts.
    Nodes are numbered in the order of their creation, so that
    [document.createElement] returns a node that is in no list yet. *)

Record Page : Type := mkPage {
  document_head : list nat;
  scriptRef : option nat;
  created : nat;
  cleanupPending : bool
}.

Inductive DomExn : Type := NotFoundError.

(** [parent.removeChild(node)] on the children of the parent. *)
Definition removeChild (node : nat) (children : list nat)
  : DomExn + list nat :=
  if existsb (Nat.eqb node) children
  then inr (remove Nat.eq_dec node children)
  else inl NotFoundError.

(** The body of the effect; [container] is whether [containerRef.current]
    is set. *)
Definition effect (container : bool) (p : Page) : DomExn + Page :=
  if negb container
  then inr (mkPage (document_head p) (scriptRef p) (created p) false)
  else
    match (match scriptRef p with
           | Some script => removeChild script (document_head p)
           | None => inr (document_head p)
           end) with
    | inl e => inl e
    | inr children =>
        let script := created p in
        inr (mkPage (children ++ [script]) (Some script) (S (created p)) true)
    end.

(** The function the effect returns. *)
Definition cleanup (p : Page) : Page :=
  match scriptRef p with
  | Some script =>
      if existsb (Nat.eqb script) (document_head p)
      then mkPage (remove Nat.eq_dec script (document_head p)) None
                  (created p) (cleanupPending p)
      else p
  | None => p
  end.

(** React runs the cleanup of the last run of the effect, if that run
    returned one. *)
Definition runCleanup (p : Page) : Page :=
  if cleanupPending p
  then
    let p := cleanup p in
    mkPage (document_head p) (scriptRef p) (created p) false
  else p.

(** What happens to a mounted widget: a commit that runs the effect (the
    mount, or a render with another symbol), the unmount, and other code
    removing a node from [document.head]. *)
Inductive Lifecycle : Type :=
| Commit (container : bool)
| Unmount
| RemovedByOthers (node : nat).

Definition lifecycle (ev : Lifecycle) (p : Page) : DomExn + Page :=
  match ev with
  | Commit container => effect container (runCleanup p)
  | Unmount => inr (runCleanup p)
  | RemovedByOthers node =>
      inr (mkPage (remove Nat.eq_dec node (document_head p)) (scriptRef p)
                  (created p) (cleanupPending p))
  end.

Fixpoint lifecycles (evs : list Lifecycle) (p : Page) : DomExn + Page :=
  match evs with
  | [] => inr p
  | ev :: rest =>
      match lifecycle ev p with
      | inl e => inl e
      | inr p' => lifecycles rest p'
      end
  end.

(** * Specification vocabulary and sample inputs *)

(** ** Viewport *)

(** The viewport invariant: start and end are integers with
    [0 <= start < end <= len] and a window of at least ten and at most
    [len] points. *)
Definition viewport_ok (len : nat) (st : ChartState) : Prop :=
  exists s e : Z,
    viewportStart st = ofZ s /\ viewportEnd st = ofZ e /\
    0 <= s /\ s < e /\ e <= Z.of_nat len /\
    10 <= e - s /\ e - s <= Z.of_nat len.

(** The integer window the zoom handlers commit for a requested size
    [nv]. *)
Definition recentreStart (s e nv : Z) : Z := Z.max 0 ((s + e - nv) / 2).

Definition recentreEnd (len s e nv : Z) : Z :=
  Z.min len (recentreStart s e nv + nv).

(** The integer size a wheel or button zoom asks for; the wheel factor is
    the numerator [p] over ten. *)
Definition wheelSize (len : Z) (p : Z) (cur : Z) : Z :=
  Z.min (Z.max 10 len) (Z.max 10 (cur * p / 10)).

Definition wheelSize_yahoo (len : Z) (p : Z) (cur : Z) : Z :=
  Z.min len (Z.max 10 (cur * p / 10)).

Definition zoomInSize (cur : Z) : Z := Z.max 10 (cur * 8 / 10).

Definition zoomOutSize (len : Z) (cur : Z) : Z := Z.min len (cur * 12 / 10).

(** Numerator of the wheel factor: 1.1 when [deltaY > 0], else 0.9. *)
Definition wheelNumerator (deltaY : num) : Z :=
  if JS.gt deltaY (ofZ 0) then 11 else 9.

(** [clamp(x, lo, hi)] of the specification. *)
Definition clamp (x lo hi : num) : num := JS.max lo (JS.min hi x).

(** The wheel transition as the specification words it:
    [newSize = clamp(round(size * zoomFactor), 10, length)],
    [newStart = clamp(floor(center - newSize/2), 0, length - newSize)],
    [newEnd = newStart + newSize]. *)
Definition wheel_spec (len : nat) (deltaY : num) (st : ChartState) : ChartState :=
  let zoomFactor := if JS.gt deltaY (ofZ 0) then lit 11 10 else lit 9 10 in
  let newSize :=
    clamp (JS.round ((viewportEnd st - viewportStart st) * zoomFactor))
          (ofZ 10) (ofNat len) in
  let center := ((viewportStart st + viewportEnd st) / ofZ 2)%num in
  let newStart :=
    clamp (JS.floor (center - newSize / ofZ 2)) (ofZ 0) (ofNat len - newSize) in
  let newEnd := (newStart + newSize)%num in
  setViewport st newStart newEnd.

(** The window [63, 90] of a 90-point series: a wheel zoom-out from here
    runs into the right edge. *)
Definition rightEdgeState : ChartState :=
  setViewport (loadedChartState 90 (ofZ 90)) (ofZ 63) (ofZ 90).

(** The window [9, 81] of a 90-point series (the state after one zoom-in)
    while a drag anchored at pixel [anchor] is in progress. *)
Definition draggingState (anchor : Z) : ChartState :=
  setDrag (setViewport (loadedChartState 90 (ofZ 90)) (ofZ 9) (ofZ 81))
          true (Some (ofZ anchor)).

(** The window [s, e] of a 90-point series while a drag anchored at pixel
    [anchor] is in progress. *)
Definition draggingWindow (s e anchor : Z) : ChartState :=
  setDrag (setViewport (loadedChartState 90 (ofZ 90)) (ofZ s) (ofZ e))
          true (Some (ofZ anchor)).

(** Events that lead from the full view of 90 points to [rightEdgeState]:
    five button zooms, a wheel zoom in and out, and a drag of 528 pixels
    to the left on a canvas of 432 pixels. *)
Definition eventsToRightEdge : list Event :=
  [ZoomIn; ZoomIn; ZoomIn; ZoomIn; ZoomIn; Wheel (ofZ (-1)); Wheel (ofZ 1);
   MouseDown (ofZ 528); MouseMove (ofZ 0) (Some 432); MouseUp].

(** ** Normalized series *)

(** The validity test of YahooFinanceChart on the raw values of a row. *)
Definition yahooValid (o h l c : num) : Prop :=
  JS.gt o (ofZ 0) = true /\ JS.gt c (ofZ 0) = true /\
  JS.truthy h = true /\ JS.truthy l = true.

(** A point is the two-decimal rounding of a valid raw row. *)
Definition roundedValidRow (d : StockData) : Prop :=
  exists o h l c : num,
    yahooValid o h l c /\
    open d = JS.toFixed2 o /\ high d = JS.toFixed2 h /\
    low d = JS.toFixed2 l /\ close d = JS.toFixed2 c.

(** Order of two points by their day, weak and strict. *)
Definition dateLe (a b : StockData) : Prop := date a <= date b.

Definition dateLt (a b : StockData) : Prop := date a < date b.

(** A payload of two rows: prices 10/5/8/10 (high below low) on day 2,
    and an open of 1e999, which JSON parsing turns into Infinity, on
    day 1. *)
Definition malformedRows : ChartResult :=
  mkChartResult
    (Some [Some (ofZ 172800); Some (ofZ 86400)])
    (Quote0 (mkQuote (Some [Some (ofZ 10); Some PInf])
                     (Some [Some (ofZ 5); Some (ofZ 11)])
                     (Some [Some (ofZ 8); Some (ofZ 9)])
                     (Some [Some (ofZ 10); Some (ofZ 10)])
                     (Some [Some (ofZ 100); Some (ofZ 200)]))).

(** The two points those rows become. *)
Definition highBelowLow : StockData :=
  mkStockData 2 (ofZ 10) (ofZ 5) (ofZ 8) (ofZ 10) (ofZ 100).

Definition infiniteOpen : StockData :=
  mkStockData 1 PInf (ofZ 11) (ofZ 9) (ofZ 10) (ofZ 200).

(** Two valid rows stamped one hour apart on 1970-01-01. *)
Definition sameDayRows : ChartResult :=
  mkChartResult
    (Some [Some (ofZ 0); Some (ofZ 3600)])
    (Quote0 (mkQuote (Some [Some (ofZ 10); Some (ofZ 11)])
                     (Some [Some (ofZ 12); Some (ofZ 13)])
                     (Some [Some (ofZ 9); Some (ofZ 10)])
                     (Some [Some (ofZ 11); Some (ofZ 12)])
                     (Some [Some (ofZ 100); Some (ofZ 200)]))).

(** Two valid rows, the later day first. *)
Definition descendingRows : ChartResult :=
  mkChartResult
    (Some [Some (ofZ 172800); Some (ofZ 86400)])
    (Quote0 (mkQuote (Some [Some (ofZ 10); Some (ofZ 11)])
                     (Some [Some (ofZ 12); Some (ofZ 13)])
                     (Some [Some (ofZ 9); Some (ofZ 10)])
                     (Some [Some (ofZ 11); Some (ofZ 12)])
                     (Some [Some (ofZ 100); Some (ofZ 200)]))).

(** ** Drawings *)

Definition nonFinite (a : num) : Prop := JS.isFinite a = false.

(** All highs and lows of the slice are the one price [p]. *)
Definition flatAt (p : Q) (items : list StockData) : Prop :=
  Forall (fun d => high d = Fin p /\ low d = Fin p) items.

(** The coordinates of a candle that cannot be drawn. *)
Definition undrawable (c : Candle) : Prop :=
  c_highY c = NaN /\ c_lowY c = NaN /\
  nonFinite (c_bodyY c) /\ nonFinite (c_bodyHeight c).

(** Two points whose prices are all 5. *)
Definition flatSeries : list StockData :=
  [mkStockData 1 (ofZ 5) (ofZ 5) (ofZ 5) (ofZ 5) (ofZ 1);
   mkStockData 2 (ofZ 5) (ofZ 5) (ofZ 5) (ofZ 5) (ofZ 1)].

(** ** Generated series *)

(** The OHLCV invariant of a point, on the numbers it carries. *)
Definition ohlcv_ok (d : StockData) : Prop :=
  JS.ge (high d) (JS.max (open d) (close d)) = true /\
  JS.le (low d) (JS.min (open d) (close d)) = true /\
  JS.ge (volume d) (ofZ 0) = true.

Definition finite (a : num) : Prop := exists q, a = Fin q.

(** [Math.random()] returns a number in [0, 1). *)
Definition random_ok (random : nat -> Q) : Prop :=
  forall n, (0 <= random n /\ random n < 1)%Q.

(** Every day the generator formats lies in the range of [Date]. *)
Definition datesInRange (dateDaysAgo : nat -> result Z) (days : nat) : Prop :=
  forall i, (i <= days)%nat -> exists d, dateDaysAgo i = Ok d.

(** A profile with a non-zero base, a positive lower price bound and a
    volatility of at most ten percent, all finite. *)
Definition config_ok (config : StockConfig) : Prop :=
  exists b lo hi v t : Q,
    config = mkStockConfig (Fin b) (Fin lo) (Fin hi) (Fin v) (Fin t) /\
    ~ (b == 0)%Q /\ (0 < lo)%Q /\ (0 <= v)%Q /\ (v <= 1 # 10)%Q.

(** The number of hundredths [Number(q.toFixed(2))] has for [q >= 0]. *)
Definition cents (q : Q) : Z := Qfloor (q * 100 + (1 # 2)).

(** A random source, a clock and a sine for examples: the random values
    cycle through 0, 0.1, ..., 0.9, today is day 20000, and the sine is
    replaced by 0. *)
Definition sampleRandom (n : nat) : Q := inject_Z (Z.of_nat (n mod 10)) / 10.

Definition sampleClock (i : nat) : result Z := Ok (20000 - Z.of_nat i).

Definition sampleSin (q : Q) : Q := 0.


(** A component that has not loaded anything yet. *)
Definition freshComponent : Component :=
  mkComponent [] true None mock (initialChartState (ofZ 2)).

(** ** Binary64 arithmetic

    IEEE 754 double precision as specified by [SpecFloat], to compare the
    exact arithmetic of the model with the arithmetic JavaScript runs. *)

Definition b64_ofZ (z : Z) : spec_float := binary_normalize 53 1024 z 0 false.

Definition b64_mul : spec_float -> spec_float -> spec_float := SFmul 53 1024.

Definition b64_div : spec_float -> spec_float -> spec_float := SFdiv 53 1024.

(** A decimal literal [n/d]: the binary64 number nearest to it. *)
Definition b64_lit (n : Z) (d : positive) : spec_float :=
  b64_div (b64_ofZ n) (b64_ofZ (Zpos d)).

(** [Math.floor] of a finite binary64 number. *)
Definition b64_floor (x : spec_float) : option Z :=
  match x with
  | S754_zero _ => Some 0
  | S754_finite s m e =>
      let v := if s then Zneg m else Zpos m in
      Some (if 0 <=? e then v * 2 ^ e else v / 2 ^ (- e))
  | _ => None
  end.

(** For the window size [n], the floor of the binary64 product with each
    of 1.1, 0.9, 0.8 and 1.2 is the floor of the exact product. *)
Definition zoomFloorAgrees (n : Z) : bool :=
  forallb (fun p =>
             match b64_floor (b64_mul (b64_ofZ n) (b64_lit p 10)) with
             | Some z => z =? n * p / 10
             | None => false
             end)
          [11; 9; 8; 12].

(** ** Candles inside the frame *)

(** The highs and lows of the points are finite and two of them differ. *)
Definition priceSpread (items : list StockData) : Prop :=
  Forall (fun d => finite (high d) /\ finite (low d)) items /\
  exists d1 d2, In d1 items /\ In d2 items /\ JS.lt (low d1) (high d2) = true.

(** Prices as the sources deliver them: finite and positive highs and
    lows, two of them at least one cent apart.  For such prices the price
    range is positive and the price scale is finite, in binary64 as in
    exact arithmetic. *)
Definition quotedPrices (items : list StockData) : Prop :=
  Forall (fun d => finite (high d) /\ finite (low d) /\
                   JS.gt (low d) (ofZ 0) = true) items /\
  exists d1 d2, In d1 items /\ In d2 items /\
                JS.le (low d1 + lit 1 100)%num (high d2) = true.

(** A candle that hangs from the top edge: its wick starts at or below
    the top edge and runs downwards from [c_highY] to [c_lowY], and its
    body starts on the wick and is at least one pixel high. *)
Definition hangsFromTop (c : Candle) : Prop :=
  JS.le padding (c_highY c) = true /\
  JS.le (c_highY c) (c_bodyY c) = true /\
  JS.le (c_bodyY c) (c_lowY c) = true /\
  JS.le (ofZ 1) (c_bodyHeight c) = true.

(** Three points with prices between 8 and 13. *)
Definition sampleSeries : list StockData :=
  [mkStockData 1 (ofZ 10) (ofZ 12) (ofZ 9) (ofZ 11) (ofZ 100);
   mkStockData 2 (ofZ 11) (ofZ 13) (ofZ 10) (ofZ 12) (ofZ 100);
   mkStockData 3 (ofZ 12) (ofZ 12) (ofZ 8) (ofZ 9) (ofZ 100)].

(** ** The price band of a profile *)

(** The profile a generator uses for a symbol that is not an inherited
    name: its own entry or the default. *)
Definition profileOf (lookup : ConfigLookup) : StockConfig :=
  match lookup with
  | Own config => config
  | _ => defaultConfig
  end.

(** The open of a point lies in the price band of the profile. *)
Definition inBand (config : StockConfig) (row : StockData) : Prop :=
  JS.le (rangeLow config) (open row) = true /\
  JS.le (open row) (rangeHigh config) = true.

(** ** Time stamps *)

(** Two arrays of time stamps of one length that agree wherever the loop
    of fetchYahooFinanceData keeps the row, counted from the index [i]. *)
Inductive agreeOnKept (q : Quote) : nat -> list Slot -> list Slot -> Prop :=
| agree_nil (i : nat) : agreeOnKept q i [] []
| agree_cons (i : nat) (ts ts' : Slot) (rest rest' : list Slot) :
    ts = ts' \/
    yahooSkips (atOpt (q_open q) i) (atOpt (q_high q) i)
               (atOpt (q_low q) i) (atOpt (q_close q) i) = true ->
    agreeOnKept q (S i) rest rest' ->
    agreeOnKept q i (ts :: rest) (ts' :: rest').

(** Two rows of which the first has no prices: its time stamp is 0, or
    lies outside the range of [Date]. *)
Definition gapRows (stamp : num) : ChartResult :=
  mkChartResult
    (Some [Some stamp; Some (ofZ 86400)])
    (Quote0 (mkQuote (Some [None; Some (ofZ 11)])
                     (Some [None; Some (ofZ 13)])
                     (Some [None; Some (ofZ 10)])
                     (Some [None; Some (ofZ 12)])
                     (Some [None; Some (ofZ 200)]))).

(** ** The widget's script *)

(** A page on which the widget has not run yet: [others] are the nodes
    other code has put into [document.head]. *)
Definition pageBefore (others : list nat) (count : nat) : Page :=
  mkPage others None count false.

(** The events the widget itself goes through. *)
Definition ownEvent (ev : Lifecycle) : Prop :=
  match ev with
  | RemovedByOthers _ => False
  | _ => True
  end.

(** The script the widget holds in [document.head], if any. *)
Definition ownScript (p : Page) : list nat :=
  match scriptRef p with
  | Some script => [script]
  | None => []
  end.

(** ** Loading chains *)

(** A component of YahooFinanceChart showing [data], loaded at [at_]. *)
Definition yahooShowing (data : list StockData) (at_time : Z) (st : ChartState)
  : YahooComponent :=
  mkYahooComponent data false None (Some at_time) st.

(** One point at the prices 10/12/9/11 on the given day. *)
Definition samplePoint (day : Z) : StockData :=
  mkStockData day (ofZ 10) (ofZ 12) (ofZ 9) (ofZ 11) (ofZ 100).

(** An Alpha Vantage body with the days 3, 1 and 2, in this order. *)
Definition sampleAlphaBody : AlphaOutcome :=
  AlphaBody false
    (Some [(3, Some (mkAlphaValues (ofZ 10) (ofZ 12) (ofZ 9) (ofZ 11) (ofZ 100)));
           (1, Some (mkAlphaValues (ofZ 10) (ofZ 12) (ofZ 9) (ofZ 11) (ofZ 100)));
           (2, Some (mkAlphaValues (ofZ 10) (ofZ 12) (ofZ 9) (ofZ 11) (ofZ 100)))]).

(** ** Auxiliary notions of the proofs *)

(** [-a] *)
Definition opposite (a : num) : num :=
  match a with
  | Fin q => Fin (- q)
  | PInf => NInf
  | NInf => PInf
  | NaN => NaN
  end.

(** A point whose four prices are finite and ordered, between [m] and
    [M]. *)
Definition enclosed (m M : Q) (d : StockData) : Prop :=
  exists o h l c : Q,
    open d = Fin o /\ high d = Fin h /\ low d = Fin l /\ close d = Fin c /\
    (m <= l)%Q /\ (l <= o)%Q /\ (o <= h)%Q /\ (l <= c)%Q /\ (c <= h)%Q /\
    (h <= M)%Q.

(** The y coordinate of the price [p]. *)
Definition yOf (M sc p : Q) : Q :=
  Qred (inject_Z 60 + Qred (Qred (M - p) * sc)).

(** The x coordinate of the candle at [i] of [n]. *)
Definition xOf (W : Q) (n i : nat) : Q :=
  Qred (inject_Z 60
        + Qred (Qred (W * inject_Z (Z.of_nat i))
                / Qred (inject_Z (Z.of_nat n) - inject_Z 1))).

(** The grid line [i] of six: its y and its price label. *)
Definition gridY (Hq : Q) (i : Z) : Q :=
  Qred (inject_Z 60 + Qred (Qred (Hq * inject_Z i) / inject_Z 5)).

Definition gridLabel (M m : Q) (i : Z) : Q :=
  Qred (M - Qred (Qred (Qred (M - m) * inject_Z i) / inject_Z 5)).

(** The indices the loop visits from [a] on. *)
Definition visited (count step a : Z) : list Z :=
  map (fun j => a + Z.of_nat j * step)
      (seq 0 (Z.to_nat ((count - a + step - 1) / step))).

(** The line drawn for the index [k]. *)
Definition lineAt (timezoneOffset : Z -> Z) (chartWidth : num)
           (visibleData : list StockData) (d0 : StockData) (k : Z) : num * Z :=
  ((padding + (chartWidth * ofZ k) / (ofNat (length visibleData) - ofZ 1))%num,
   localDay timezoneOffset (date (nth (Z.to_nat k) visibleData d0))).

(** The rows count back from [i] days ago to today. *)
Definition countsBack (dateDaysAgo : nat -> result Z) (i : nat)
           (rows : list StockData) : Prop :=
  length rows = S i /\
  forall k, (k <= i)%nat ->
            exists row, nth_error rows k = Some row /\
                        dateDaysAgo (i - k)%nat = Ok (date row).

(** A profile with finite fields, a non-zero base and a band between two
    non-negative prices of at most two decimals. *)
Definition band_ok (config : StockConfig) : Prop :=
  exists b lo hi v t : Q,
    config = mkStockConfig (Fin b) (Fin lo) (Fin hi) (Fin v) (Fin t) /\
    ~ (b == 0)%Q /\ (0 <= lo)%Q /\ (lo <= hi)%Q /\
    JS.toFixed2 (Fin lo) = Fin lo /\ JS.toFixed2 (Fin hi) = Fin hi.

(** What holds of the page between the events of the widget. *)
Definition tidy (others : list nat) (count : nat) (p : Page) : Prop :=
  (count <= created p)%nat /\
  match scriptRef p with
  | Some script =>
      document_head p = others ++ [script] /\ (count <= script)%nat /\
      (script < created p)%nat /\ cleanupPending p = true
  | None => document_head p = others /\ cleanupPending p = false
  end.

(** * Verification *)

(** ** Arithmetic of integer-valued numbers *)

#[local] Arguments Qred : simpl never.
#[local] Arguments Qfloor : simpl never.

Section IntegerNumbers.

Lemma Qred_inject_Z (z : Z) : Qred (inject_Z z) = inject_Z z.
Proof.
  unfold Qred, inject_Z; simpl.
  generalize (Z.ggcd_gcd z 1) (Z.ggcd_correct_divisors z 1).
  destruct (Z.ggcd z 1) as [g [a b]]; simpl.
  rewrite Z.gcd_1_r. intros -> [Ha Hb].
  rewrite !Z.mul_1_l in *. subst. reflexivity.
Qed.

Lemma Qred_is_Z (q : Q) (z : Z) : q == inject_Z z -> Qred q = inject_Z z.
Proof.
  intros H. rewrite (Qred_complete _ _ H). apply Qred_inject_Z.
Qed.

Lemma Fin_is_Z (q : Q) (z : Z) : q == inject_Z z -> Fin (Qred q) = ofZ z.
Proof. intros H. unfold ofZ. now rewrite (Qred_is_Z _ _ H). Qed.

Lemma add_ofZ (a b : Z) : (ofZ a + ofZ b)%num = ofZ (a + b).
Proof.
  unfold ofZ at 1 2; simpl. apply Fin_is_Z.
  now rewrite inject_Z_plus.
Qed.

Lemma sub_ofZ (a b : Z) : (ofZ a - ofZ b)%num = ofZ (a - b).
Proof.
  unfold ofZ at 1 2; simpl. apply Fin_is_Z.
  unfold Z.sub, Qminus. now rewrite inject_Z_plus, inject_Z_opp.
Qed.

Lemma Qcompare_inject_Z (a b : Z) : (inject_Z a ?= inject_Z b)%Q = (a ?= b).
Proof. unfold Qcompare; simpl. now rewrite !Z.mul_1_r. Qed.

Lemma lt_ofZ (a b : Z) : JS.lt (ofZ a) (ofZ b) = (a <? b).
Proof.
  unfold ofZ, JS.lt, Z.ltb. now rewrite Qcompare_inject_Z.
Qed.

Lemma gt_ofZ (a b : Z) : JS.gt (ofZ a) (ofZ b) = (b <? a).
Proof. apply lt_ofZ. Qed.

Lemma seq_ofZ (a b : Z) : JS.seq (ofZ a) (ofZ b) = (a =? b).
Proof.
  unfold ofZ, JS.seq, Qeq_bool; simpl. now rewrite !Z.mul_1_r.
Qed.

Lemma max_ofZ (a b : Z) : JS.max (ofZ a) (ofZ b) = ofZ (Z.max a b).
Proof.
  unfold JS.max. fold (ofZ a) (ofZ b).
  change (match ofZ a with
          | NaN => NaN
          | _ => match ofZ b with
                 | NaN => NaN
                 | _ => if JS.lt (ofZ a) (ofZ b) then ofZ b else ofZ a
                 end
          end = ofZ (Z.max a b)).
  unfold ofZ at 1 2. rewrite lt_ofZ.
  destruct (Z.ltb_spec a b); f_equal; lia.
Qed.

Lemma min_ofZ (a b : Z) : JS.min (ofZ a) (ofZ b) = ofZ (Z.min a b).
Proof.
  change (JS.min (ofZ a) (ofZ b))
    with (if JS.lt (ofZ b) (ofZ a) then ofZ b else ofZ a).
  rewrite lt_ofZ. destruct (Z.ltb_spec b a); f_equal; lia.
Qed.

Lemma min_ofNat (n : nat) (z : Z) :
  JS.min (ofNat n) (ofZ z) = ofZ (Z.min (Z.of_nat n) z).
Proof. apply min_ofZ. Qed.

Lemma abs_ofZ (a : Z) : JS.abs (ofZ a) = ofZ (Z.abs a).
Proof.
  unfold ofZ at 1; simpl. apply Fin_is_Z.
  unfold Qabs, inject_Z; simpl. reflexivity.
Qed.

Lemma floor_Fin_eq (q : Q) (n : Z) (d : positive) :
  q == n # d -> JS.floor (Fin q) = ofZ (n / Zpos d).
Proof.
  intros H. simpl. now rewrite (Qfloor_comp _ _ H).
Qed.

(** [Math.floor (n * p/d)] on an integer [n] is the integer quotient. *)
Lemma floor_mul_lit (n p : Z) (d : positive) :
  JS.floor (ofZ n * lit p d) = ofZ (n * p / Zpos d).
Proof.
  unfold ofZ at 1, lit; simpl JS.mul.
  apply floor_Fin_eq. rewrite !Qred_correct.
  unfold Qeq, Qmult, inject_Z; simpl. lia.
Qed.

(** [Math.floor ((s + e) / 2 - nv / 2)] is the integer quotient by two. *)
Lemma floor_center (s e nv : Z) :
  JS.floor ((ofZ s + ofZ e) / ofZ 2 - ofZ nv / ofZ 2) = ofZ ((s + e - nv) / 2).
Proof.
  rewrite add_ofZ. unfold ofZ at 1 2 3 4; simpl JS.div.
  simpl JS.sub. apply floor_Fin_eq.
  rewrite !Qred_correct.
  unfold Qeq, Qminus, Qplus, Qopp, Qdiv, Qmult, Qinv, inject_Z; simpl. lia.
Qed.

End IntegerNumbers.

(** ** The viewport invariant *)

Section ViewportFacts.

Variable len : nat.

Lemma recentre_eval (s e nv : Z) :
  let newStart :=
    JS.max (ofZ 0) (JS.floor ((ofZ s + ofZ e) / ofZ 2 - ofZ nv / ofZ 2)) in
  newStart = ofZ (recentreStart s e nv) /\
  JS.min (ofNat len) (newStart + ofZ nv)%num
  = ofZ (recentreEnd (Z.of_nat len) s e nv).
Proof.
  cbv zeta. rewrite floor_center, max_ofZ. split; [reflexivity|].
  unfold ofNat. now rewrite add_ofZ, min_ofZ.
Qed.

Lemma recentre_bounds (s e nv : Z) :
  0 <= s -> s < e -> e <= Z.of_nat len -> 10 <= e - s ->
  10 <= nv -> nv <= Z.of_nat len ->
  let ns := recentreStart s e nv in
  let ne := recentreEnd (Z.of_nat len) s e nv in
  0 <= ns /\ ns < ne /\ ne <= Z.of_nat len /\
  10 <= ne - ns /\ ne - ns <= Z.of_nat len /\ ne - ns <= nv.
Proof.
  intros Hs Hse He Hsz Hnv Hnv'. unfold recentreEnd, recentreStart.
  pose proof (Z.div_mod (s + e - nv) 2 ltac:(lia)) as Hd.
  pose proof (Z.mod_pos_bound (s + e - nv) 2 ltac:(lia)) as Hm.
  lia.
Qed.

Lemma zoomFactor_lit (deltaY : num) :
  zoomFactor deltaY = lit (wheelNumerator deltaY) 10.
Proof. unfold zoomFactor, wheelNumerator. now destruct (JS.gt _ _). Qed.

Lemma handleWheel_eval (deltaY : num) (st : ChartState) (s e : Z) :
  viewportStart st = ofZ s -> viewportEnd st = ofZ e ->
  let nv := wheelSize (Z.of_nat len) (wheelNumerator deltaY) (e - s) in
  handleWheel len deltaY st =
  if nv =? e - s then st
  else setViewport st (ofZ (recentreStart s e nv))
                      (ofZ (recentreEnd (Z.of_nat len) s e nv)).
Proof.
  intros Hs He nv. unfold handleWheel. rewrite Hs, He.
  rewrite zoomFactor_lit, sub_ofZ, floor_mul_lit.
  unfold ofNat. rewrite !max_ofZ, min_ofZ.
  fold (wheelSize (Z.of_nat len) (wheelNumerator deltaY) (e - s)). fold nv.
  unfold JS.sneq. rewrite seq_ofZ.
  destruct (nv =? e - s); cbn [negb]; [reflexivity|].
  destruct (recentre_eval s e nv) as [E1 E2]. cbv zeta in E1, E2.
  unfold ofNat in E2. cbv zeta. now rewrite E2, E1.
Qed.

Lemma handleWheel_yahoo_eval (deltaY : num) (st : ChartState) (s e : Z) :
  viewportStart st = ofZ s -> viewportEnd st = ofZ e ->
  let nv := wheelSize_yahoo (Z.of_nat len) (wheelNumerator deltaY) (e - s) in
  handleWheel_yahoo len deltaY st =
  if nv =? e - s then st
  else setViewport st (ofZ (recentreStart s e nv))
                      (ofZ (recentreEnd (Z.of_nat len) s e nv)).
Proof.
  intros Hs He nv. unfold handleWheel_yahoo. rewrite Hs, He.
  rewrite zoomFactor_lit, sub_ofZ, floor_mul_lit.
  unfold ofNat. rewrite !max_ofZ, min_ofZ.
  fold (wheelSize_yahoo (Z.of_nat len) (wheelNumerator deltaY) (e - s)).
  fold nv. unfold JS.sneq. rewrite seq_ofZ.
  destruct (nv =? e - s); cbn [negb]; [reflexivity|].
  destruct (recentre_eval s e nv) as [E1 E2]. cbv zeta in E1, E2.
  unfold ofNat in E2. cbv zeta. now rewrite E2, E1.
Qed.

Lemma zoomIn_eval (st : ChartState) (s e : Z) :
  viewportStart st = ofZ s -> viewportEnd st = ofZ e ->
  let nv := zoomInSize (e - s) in
  zoomIn len st =
  setViewport st (ofZ (recentreStart s e nv))
                 (ofZ (recentreEnd (Z.of_nat len) s e nv)).
Proof.
  intros Hs He nv. unfold zoomIn. rewrite Hs, He.
  rewrite sub_ofZ, floor_mul_lit, max_ofZ.
  fold (zoomInSize (e - s)). fold nv.
  destruct (recentre_eval s e nv) as [E1 E2]. cbv zeta in E1, E2.
  now rewrite E2, E1.
Qed.

Lemma zoomOut_eval (st : ChartState) (s e : Z) :
  viewportStart st = ofZ s -> viewportEnd st = ofZ e ->
  let nv := zoomOutSize (Z.of_nat len) (e - s) in
  zoomOut len st =
  setViewport st (ofZ (recentreStart s e nv))
                 (ofZ (recentreEnd (Z.of_nat len) s e nv)).
Proof.
  intros Hs He nv. unfold zoomOut. rewrite Hs, He.
  rewrite sub_ofZ, floor_mul_lit, !min_ofNat.
  fold (zoomOutSize (Z.of_nat len) (e - s)). fold nv.
  destruct (recentre_eval s e nv) as [E1 E2]. cbv zeta in E1, E2.
  now rewrite E2, E1.
Qed.

End ViewportFacts.

Section PanFacts.

Variable len : nat.

(** [Math.floor] yields an integer or passes a special value through. *)
Lemma floor_cases (a : num) :
  (exists k : Z, JS.floor a = ofZ k) \/
  JS.floor a = PInf \/ JS.floor a = NInf \/ JS.floor a = NaN.
Proof.
  destruct a; simpl; eauto.
Qed.

(** The window a pointer move proposes for an integer offset [k]. *)
Lemma pan_commit_iff (s e k : Z) :
  0 <= s -> e <= Z.of_nat len ->
  (Z.min (Z.of_nat len) (e - k) - Z.max 0 (s - k) =? e - s)
  = (0 <=? s - k) && (e - k <=? Z.of_nat len).
Proof.
  intros Hs He.
  destruct (Z.leb_spec 0 (s - k)), (Z.leb_spec (e - k) (Z.of_nat len));
    simpl; [apply Z.eqb_eq | apply Z.eqb_neq ..]; lia.
Qed.

(** What [handleMouseMove] does once the offset is an integer [k]. *)
Lemma handleMouseMove_eval (x x0 : num) (w : Z) (st : ChartState) (s e k : Z) :
  isDragging st = true -> dragStartX st = Some x0 ->
  viewportStart st = ofZ s -> viewportEnd st = ofZ e ->
  0 <= s -> e <= Z.of_nat len ->
  dragOffset (JS.round64 (x - x0)%num) w st = ofZ k ->
  handleMouseMove len x (Some w) st =
  if negb (k =? 0) && (0 <=? s - k) && (e - k <=? Z.of_nat len)
  then setViewportDrag st (ofZ (s - k)) (ofZ (e - k)) x
  else st.
Proof.
  intros Hd Hx Hs He Hs0 Hel Hk. unfold handleMouseMove.
  rewrite Hd, Hx, Hk, Hs, He. cbv zeta.
  rewrite abs_ofZ, gt_ofZ, !sub_ofZ, max_ofZ, min_ofNat, sub_ofZ, seq_ofZ.
  rewrite pan_commit_iff by assumption.
  destruct (Z.eqb_spec k 0) as [->|Hk0].
  - reflexivity.
  - replace (0 <? Z.abs k) with true by (symmetry; apply Z.ltb_lt; lia).
    cbn [negb andb].
    destruct (Z.leb_spec 0 (s - k)); [|reflexivity].
    destruct (Z.leb_spec (e - k) (Z.of_nat len)); [|reflexivity].
    cbn [andb]. now rewrite Z.max_r, Z.min_r by lia.
Qed.

(** A pointer move whose offset is not a finite number changes nothing. *)
Lemma handleMouseMove_nonfinite (x x0 : num) (w : Z) (st : ChartState) (s e : Z) :
  dragStartX st = Some x0 ->
  viewportStart st = ofZ s -> viewportEnd st = ofZ e ->
  JS.isFinite (dragOffset (JS.round64 (x - x0)%num) w st) = false ->
  handleMouseMove len x (Some w) st = st.
Proof.
  intros Hx Hs He Hk. unfold handleMouseMove. rewrite Hx.
  destruct (isDragging st); [|reflexivity]. cbv zeta.
  destruct (dragOffset (JS.round64 (x - x0)%num) w st); try discriminate;
    rewrite Hs, He; reflexivity.
Qed.

(** Either nothing changes, or the window is shifted by a non-zero integer
    and stays inside the series. *)
Lemma handleMouseMove_cases (x : num) (canvas : option Z) (st : ChartState)
      (s e : Z) :
  viewportStart st = ofZ s -> viewportEnd st = ofZ e ->
  0 <= s -> e <= Z.of_nat len ->
  handleMouseMove len x canvas st = st \/
  exists k : Z, k <> 0 /\ 0 <= s - k /\ e - k <= Z.of_nat len /\
    handleMouseMove len x canvas st
    = setViewportDrag st (ofZ (s - k)) (ofZ (e - k)) x.
Proof.
  intros Hs He Hs0 Hel.
  destruct (isDragging st) eqn:Hd;
    [|left; unfold handleMouseMove; now rewrite Hd].
  destruct (dragStartX st) as [x0|] eqn:Hx;
    [|left; unfold handleMouseMove; now rewrite Hd, Hx].
  destruct canvas as [w|];
    [|left; unfold handleMouseMove; now rewrite Hd, Hx].
  destruct (floor_cases
              (JS.round64 (JS.round64 (x - x0) * dragSensitivity w st)%num))
    as [[k Hk]|Hk].
  - rewrite (handleMouseMove_eval x x0 w st s e k) by assumption.
    destruct (Z.eqb_spec k 0); [now left|].
    destruct (Z.leb_spec 0 (s - k)); [|now left].
    destruct (Z.leb_spec (e - k) (Z.of_nat len)); [|now left].
    right. exists k. now repeat split.
  - left. apply (handleMouseMove_nonfinite x x0 w st s e); try assumption.
    unfold dragOffset. now destruct Hk as [-> | [-> | ->]].
Qed.

End PanFacts.

(** ** Preservation of the viewport invariant *)

Section Invariant.

Variable len : nat.
Hypothesis len_ge_10 : (10 <= len)%nat.

Ltac div10 t :=
  pose proof (Z.div_mod t 10 ltac:(lia));
  pose proof (Z.mod_pos_bound t 10 ltac:(lia)).

Lemma setViewport_ok (st : ChartState) (s e nv : Z) :
  0 <= s -> s < e -> e <= Z.of_nat len -> 10 <= e - s ->
  10 <= nv -> nv <= Z.of_nat len ->
  viewport_ok len (setViewport st (ofZ (recentreStart s e nv))
                              (ofZ (recentreEnd (Z.of_nat len) s e nv))).
Proof.
  intros. exists (recentreStart s e nv), (recentreEnd (Z.of_nat len) s e nv).
  pose proof (recentre_bounds len s e nv) as B. cbv zeta in B.
  simpl. repeat split; try reflexivity; apply B; assumption.
Qed.

Lemma handleWheel_ok (deltaY : num) (st : ChartState) :
  viewport_ok len st -> viewport_ok len (handleWheel len deltaY st).
Proof.
  intros Hok. pose proof Hok as (s & e & Hs & He & H0 & Hlt & Hle & Hmin & Hmax).
  rewrite (handleWheel_eval len deltaY st s e Hs He). cbv zeta.
  destruct (_ =? _); [assumption|].
  apply setViewport_ok; try assumption; unfold wheelSize; lia.
Qed.

Lemma handleWheel_yahoo_ok (deltaY : num) (st : ChartState) :
  viewport_ok len st -> viewport_ok len (handleWheel_yahoo len deltaY st).
Proof.
  intros Hok. pose proof Hok as (s & e & Hs & He & H0 & Hlt & Hle & Hmin & Hmax).
  rewrite (handleWheel_yahoo_eval len deltaY st s e Hs He). cbv zeta.
  destruct (_ =? _); [assumption|].
  apply setViewport_ok; try assumption; unfold wheelSize_yahoo; lia.
Qed.

Lemma zoomIn_ok (st : ChartState) :
  viewport_ok len st -> viewport_ok len (zoomIn len st).
Proof.
  intros (s & e & Hs & He & H0 & Hlt & Hle & Hmin & Hmax).
  rewrite (zoomIn_eval len st s e Hs He). cbv zeta.
  apply setViewport_ok; try assumption; unfold zoomInSize;
    div10 ((e - s) * 8); lia.
Qed.

Lemma zoomOut_ok (st : ChartState) :
  viewport_ok len st -> viewport_ok len (zoomOut len st).
Proof.
  intros (s & e & Hs & He & H0 & Hlt & Hle & Hmin & Hmax).
  rewrite (zoomOut_eval len st s e Hs He). cbv zeta.
  apply setViewport_ok; try assumption; unfold zoomOutSize;
    div10 ((e - s) * 12); lia.
Qed.

Lemma handleMouseMove_ok (x : num) (canvas : option Z) (st : ChartState) :
  viewport_ok len st -> viewport_ok len (handleMouseMove len x canvas st).
Proof.
  intros Hok. pose proof Hok as (s & e & Hs & He & H0 & Hlt & Hle & Hmin & Hmax).
  destruct (handleMouseMove_cases len x canvas st s e Hs He H0 Hle)
    as [-> | (k & Hk & Hlo & Hhi & ->)]; [assumption|].
  exists (s - k), (e - k). simpl. repeat split; try reflexivity; lia.
Qed.

Lemma resetView_ok (st : ChartState) : viewport_ok len (resetView len st).
Proof.
  exists 0, (Z.of_nat len). simpl. repeat split; try reflexivity; lia.
Qed.

Lemma setDrag_ok (st : ChartState) (d : bool) (x : option num) :
  viewport_ok len st -> viewport_ok len (setDrag st d x).
Proof. intros (s & e & H). exists s, e. exact H. Qed.

Lemma step_ok (ev : Event) (st : ChartState) :
  viewport_ok len st -> viewport_ok len (step len ev st).
Proof.
  intros Hok. destruct ev; simpl.
  - now apply handleWheel_ok.
  - now apply setDrag_ok.
  - now apply handleMouseMove_ok.
  - now apply setDrag_ok.
  - now apply zoomIn_ok.
  - now apply zoomOut_ok.
  - apply resetView_ok.
Qed.

Lemma loadedChartState_ok (days : num) :
  viewport_ok len (loadedChartState len days).
Proof.
  exists 0, (Z.of_nat len). simpl. repeat split; try reflexivity; lia.
Qed.

Lemma trace_ok (evs : list Event) (st : ChartState) :
  viewport_ok len st -> Forall (viewport_ok len) (trace len evs st).
Proof.
  revert st. induction evs as [|ev evs IH]; intros st Hok; simpl.
  - constructor.
  - constructor; [|apply IH]; now apply step_ok.
Qed.

End Invariant.

(** C1. For a series of at least ten points, every state reached by a
    finite sequence of wheel, button, pointer and reset events from the
    full-range viewport [0, len] has integer bounds with
    [0 <= start < end <= len] and [10 <= end - start <= len]. *)
Theorem viewport_invariant_after_every_event
        (len : nat) (days : num) (evs : list Event) :
  (10 <= len)%nat ->
  viewportStart (loadedChartState len days) = ofZ 0 /\
  viewportEnd (loadedChartState len days) = ofNat len /\
  Forall (viewport_ok len) (trace len evs (loadedChartState len days)).
Proof.
  intros Hlen. split; [reflexivity|]. split; [reflexivity|].
  apply trace_ok; [assumption|]. now apply loadedChartState_ok.
Qed.

Lemma viewport_invariant_after_every_event_witness :
  (10 <= 90)%nat /\
  Forall (viewport_ok 90)
         (trace 90 [ZoomIn; MouseDown (ofZ 100); MouseMove (ofZ 20) (Some 800);
                    Wheel (ofZ 1); MouseUp; ZoomOut; Reset]
                (loadedChartState 90 (ofZ 90))).
Proof.
  split; [lia|].
  apply (viewport_invariant_after_every_event 90 (ofZ 90)); lia.
Defined.

(** The sample states are states the controller reaches. *)
Lemma sample_states_reachable :
  last (trace 90 eventsToRightEdge (loadedChartState 90 (ofZ 90)))
       (loadedChartState 90 (ofZ 90)) = rightEdgeState /\
  forall anchor,
    trace 90 [ZoomIn; MouseDown (ofZ anchor)] (loadedChartState 90 (ofZ 90))
    = [setViewport (loadedChartState 90 (ofZ 90)) (ofZ 9) (ofZ 81);
       draggingState anchor].
Proof.
  split; [vm_compute; reflexivity|]. intros anchor. reflexivity.
Qed.

(** ** Wheel zoom against its specification *)

(** C2, counterexample. On the window [63, 90] of 90 points a wheel
    zoom-out asks for floor(27 * 1.1) = 29 points and commits [62, 90],
    that is 28 points; the specified transition rounds to 30 and yields
    [60, 90]. *)
Lemma handleWheel_differs_from_wheel_spec :
  handleWheel 90 (ofZ 1) rightEdgeState
  = setViewport rightEdgeState (ofZ 62) (ofZ 90) /\
  wheel_spec 90 (ofZ 1) rightEdgeState
  = setViewport rightEdgeState (ofZ 60) (ofZ 90) /\
  handleWheel 90 (ofZ 1) rightEdgeState <> wheel_spec 90 (ofZ 1) rightEdgeState.
Proof.
  assert (E1 : handleWheel 90 (ofZ 1) rightEdgeState
               = setViewport rightEdgeState (ofZ 62) (ofZ 90))
    by (vm_compute; reflexivity).
  assert (E2 : wheel_spec 90 (ofZ 1) rightEdgeState
               = setViewport rightEdgeState (ofZ 60) (ofZ 90))
    by (vm_compute; reflexivity).
  repeat split; try assumption.
  rewrite E1, E2. vm_compute. discriminate.
Qed.

(** C2, as the code has it. On integer bounds the wheel handler asks for
    [newSize = min(max(10, len), max(10, floor(size * f)))] with [f] = 1.1
    when [deltaY > 0] and 0.9 otherwise, keeps the state when that equals
    the current size, and otherwise commits
    [newStart = max(0, floor((start + end - newSize) / 2))] and
    [newEnd = min(len, newStart + newSize)].  The committed window has at
    most [newSize] points, and exactly [newSize] when
    [newStart + newSize <= len].  With ten or more points the
    YahooFinanceChart handler computes the same state. *)
Theorem handleWheel_commits_floored_window
        (len : nat) (deltaY : num) (st : ChartState) (s e : Z) :
  viewportStart st = ofZ s -> viewportEnd st = ofZ e ->
  let p := if JS.gt deltaY (ofZ 0) then 11 else 9 in
  let newSize := Z.min (Z.max 10 (Z.of_nat len)) (Z.max 10 ((e - s) * p / 10)) in
  let newStart := Z.max 0 ((s + e - newSize) / 2) in
  let newEnd := Z.min (Z.of_nat len) (newStart + newSize) in
  handleWheel len deltaY st
  = (if newSize =? e - s then st
     else setViewport st (ofZ newStart) (ofZ newEnd)) /\
  newEnd - newStart <= newSize /\
  (newStart + newSize <= Z.of_nat len -> newEnd - newStart = newSize) /\
  ((10 <= len)%nat -> handleWheel_yahoo len deltaY st = handleWheel len deltaY st).
Proof.
  intros Hs He p newSize newStart newEnd.
  repeat split.
  - apply (handleWheel_eval len deltaY st s e Hs He).
  - subst newEnd. lia.
  - subst newEnd. lia.
  - intros Hlen.
    rewrite (handleWheel_eval len deltaY st s e Hs He).
    rewrite (handleWheel_yahoo_eval len deltaY st s e Hs He).
    cbv zeta. unfold wheelSize_yahoo, wheelSize.
    now rewrite (Z.max_r 10 (Z.of_nat len)) by lia.
Qed.

Lemma handleWheel_commits_floored_window_witness :
  handleWheel 90 (ofZ 1) rightEdgeState
  = setViewport rightEdgeState (ofZ 62) (ofZ 90).
Proof.
  exact (proj1 (handleWheel_commits_floored_window
                  90 (ofZ 1) rightEdgeState 63 90 eq_refl eq_refl)).
Defined.

(** ** Dragging *)

(** The offset of a pointer move over an integer window. *)
Lemma dragOffset_eval (dx : num) (w : Z) (st : ChartState) (s e : Z) :
  viewportStart st = ofZ s -> viewportEnd st = ofZ e ->
  dragOffset dx w st
  = JS.floor (JS.round64 (dx * JS.round64 (ofZ (e - s) / ofZ w)))%num.
Proof.
  intros Hs He. unfold dragOffset, dragSensitivity.
  now rewrite Hs, He, sub_ofZ.
Qed.

(** The rounding of binary64 decides two drags on an 800 pixel canvas.
    On the window [28, 57] a pointer path of 800 pixels to the right has
    the offset 28, not 29, since 800 * (29 / 800) is rounded to
    28.999999999999996: the window moves to [0, 29].  On the window
    [9, 37] a path of 200 pixels to the left has the offset -8, not -7,
    since -200 * (28 / 800) is rounded to -7.000000000000001: the window
    moves to [17, 45]. *)
Lemma drag_offsets_follow_binary64 :
  dragOffset (ofZ 800) 800 (draggingWindow 28 57 0) = ofZ 28 /\
  handleMouseMove 90 (ofZ 800) (Some 800) (draggingWindow 28 57 0)
  = setViewportDrag (draggingWindow 28 57 0) (ofZ 0) (ofZ 29) (ofZ 800) /\
  dragOffset (ofZ (-200)) 800 (draggingWindow 9 37 200) = ofZ (-8) /\
  handleMouseMove 90 (ofZ 0) (Some 800) (draggingWindow 9 37 200)
  = setViewportDrag (draggingWindow 9 37 200) (ofZ 17) (ofZ 45) (ofZ 0).
Proof.
  repeat split; vm_compute; reflexivity.
Qed.

(** C4, counterexample. With an 800 pixel canvas, a window of 72 points
    and a pointer delta of -80 pixels the sensitivity is 0.09, but the
    offset is floor(-7.2) = -8, not -7, and the window [9, 81] moves to
    [17, 89], not to [16, 88]. *)
Lemma drag_scenario_offset_is_not_minus_7 :
  dragSensitivity 800 (draggingState 100) = JS.round64 (lit 9 100) /\
  dragOffset (ofZ 20 - ofZ 100)%num 800 (draggingState 100) = ofZ (-8) /\
  dragOffset (ofZ 20 - ofZ 100)%num 800 (draggingState 100) <> ofZ (-7) /\
  handleMouseMove 90 (ofZ 20) (Some 800) (draggingState 100)
  = setViewportDrag (draggingState 100) (ofZ 17) (ofZ 89) (ofZ 20) /\
  handleMouseMove 90 (ofZ 20) (Some 800) (draggingState 100)
  <> setViewportDrag (draggingState 100) (ofZ 16) (ofZ 88) (ofZ 20).
Proof.
  repeat split; try (vm_compute; reflexivity); vm_compute; discriminate.
Qed.

(** C4, as the code has it. For a drag on an 800 pixel canvas over a
    window of 72 points, a pointer delta of -80 pixels gives sensitivity
    72/800 = 0.09 (as the code computes it: the binary64 number nearest
    to 0.09) and offset floor(-7.2) = -8.  The window moves by +8
    indices when the moved window still ends inside the series; otherwise
    the move is dropped and the state is unchanged. *)
Theorem drag_scenario_shifts_by_8
        (len : nat) (st : ChartState) (s : Z) (x0 : Q) :
  isDragging st = true -> dragStartX st = Some (Fin x0) ->
  viewportStart st = ofZ s -> viewportEnd st = ofZ (s + 72) ->
  0 <= s -> s + 72 <= Z.of_nat len ->
  let clientX := Fin (x0 - 80) in
  dragSensitivity 800 st = JS.round64 (lit 9 100) /\
  dragOffset (clientX - Fin x0)%num 800 st = ofZ (-8) /\
  handleMouseMove len clientX (Some 800) st
  = if s + 80 <=? Z.of_nat len
    then setViewportDrag st (ofZ (s + 8)) (ofZ (s + 80)) clientX
    else st.
Proof.
  intros Hd Hx Hs He Hs0 Hlen clientX.
  assert (Hsens : dragSensitivity 800 st = JS.round64 (lit 9 100)).
  { unfold dragSensitivity. rewrite Hs, He, sub_ofZ.
    replace (s + 72 - s) with 72 by lia. vm_compute. reflexivity. }
  assert (Hdelta : (clientX - Fin x0)%num = ofZ (-80)).
  { subst clientX. cbn [JS.sub]. unfold ofZ. f_equal.
    rewrite (Qred_complete (x0 - 80 - x0) (inject_Z (-80))).
    - reflexivity.
    - unfold inject_Z. ring. }
  assert (Hoff : dragOffset (ofZ (-80)) 800 st = ofZ (-8)).
  { unfold dragOffset. rewrite Hsens. vm_compute. reflexivity. }
  split; [exact Hsens|]. split; [now rewrite Hdelta|].
  rewrite (handleMouseMove_eval len clientX (Fin x0) 800 st s (s + 72) (-8));
    try assumption.
  - replace (0 <=? s - -8) with true by (symmetry; apply Z.leb_le; lia).
    replace (s + 72 - -8) with (s + 80) by lia.
    replace (s - -8) with (s + 8) by lia.
    reflexivity.
  - rewrite Hdelta. exact Hoff.
Qed.

Lemma drag_scenario_shifts_by_8_witness :
  handleMouseMove 90 (Fin (100 - 80)) (Some 800) (draggingState 100)
  = setViewportDrag (draggingState 100) (ofZ 17) (ofZ 89) (Fin (100 - 80)).
Proof.
  exact (proj2 (proj2 (drag_scenario_shifts_by_8
                         90 (draggingState 100) 9 100
                         eq_refl eq_refl eq_refl eq_refl
                         ltac:(lia) ltac:(simpl; lia)))).
Defined.

(** C5, counterexample. Dragging the window [9, 81] a full canvas width to
    the right (offset 72 > 9) does not move its start to 0: the handler
    leaves the state as it is. *)
Lemma far_right_drag_does_not_clamp :
  dragOffset (ofZ 800 - ofZ 0)%num 800 (draggingState 0) = ofZ 72 /\
  handleMouseMove 90 (ofZ 800) (Some 800) (draggingState 0) = draggingState 0 /\
  viewportStart (handleMouseMove 90 (ofZ 800) (Some 800) (draggingState 0))
  <> ofZ 0.
Proof.
  repeat split; try (vm_compute; reflexivity); vm_compute; discriminate.
Qed.

(** C5, as the code has it. A drag never resizes the window and never
    clamps it.  Take a dragging state within the series and a pointer
    move for which the handler computes the index offset [k], the floor
    of the binary64 product of the pointer delta and the sensitivity.
    When the drag is so far right that [k] exceeds the start, or so far
    left that [k] is below [end - len], the handler leaves the whole
    state unchanged; in between, a non-zero [k] moves the window to
    [start - k, end - k].  So the window keeps its size, and it starts at
    0 or ends at [len] afterwards only where it did before or where the
    offset leads exactly there. *)
Theorem drag_beyond_edge_is_dropped
        (len : nat) (st : ChartState) (s e w k : Z) (x x0 : num) :
  isDragging st = true -> dragStartX st = Some x0 ->
  viewportStart st = ofZ s -> viewportEnd st = ofZ e ->
  0 <= s -> s < e -> e <= Z.of_nat len ->
  dragOffset (JS.round64 (x - x0)%num) w st = ofZ k ->
  let st' := handleMouseMove len x (Some w) st in
  (s < k -> st' = st) /\
  (k < e - Z.of_nat len -> st' = st) /\
  (k <> 0 -> k <= s -> e - Z.of_nat len <= k ->
   st' = setViewportDrag st (ofZ (s - k)) (ofZ (e - k)) x) /\
  (viewportEnd st' - viewportStart st')%num = ofZ (e - s) /\
  (viewportStart st' = ofZ 0 -> s = 0 \/ k = s) /\
  (viewportEnd st' = ofNat len -> e = Z.of_nat len \/ k = e - Z.of_nat len).
Proof.
  intros Hd Hx Hs He Hs0 Hse Hel Hoff st'.
  assert (Hst' : st' = if negb (k =? 0) && (0 <=? s - k)
                                && (e - k <=? Z.of_nat len)
                       then setViewportDrag st (ofZ (s - k)) (ofZ (e - k)) x
                       else st)
    by (apply (handleMouseMove_eval len x x0 w st s e k); assumption).
  assert (Hinj : forall a b : Z, ofZ a = ofZ b -> a = b).
  { intros a b H. unfold ofZ in H. injection H. lia. }
  split; [|split; [|split; [|split; [|split]]]].
  - intros Hfar. rewrite Hst'.
    replace (0 <=? s - k) with false by (symmetry; apply Z.leb_gt; lia).
    now rewrite andb_false_r.
  - intros Hfar. rewrite Hst'.
    replace (e - k <=? Z.of_nat len) with false
      by (symmetry; apply Z.leb_gt; lia).
    now rewrite andb_false_r.
  - intros Hk0 Hks Hke. rewrite Hst'.
    replace (k =? 0) with false by (symmetry; now apply Z.eqb_neq).
    replace (0 <=? s - k) with true by (symmetry; apply Z.leb_le; lia).
    replace (e - k <=? Z.of_nat len) with true
      by (symmetry; apply Z.leb_le; lia).
    reflexivity.
  - rewrite Hst'.
    destruct (negb (k =? 0) && (0 <=? s - k) && (e - k <=? Z.of_nat len)).
    + cbn [setViewportDrag viewportStart viewportEnd]. rewrite sub_ofZ.
      f_equal. lia.
    + rewrite Hs, He. apply sub_ofZ.
  - rewrite Hst'.
    destruct (Z.eqb_spec k 0), (Z.leb_spec 0 (s - k)),
      (Z.leb_spec (e - k) (Z.of_nat len));
      cbn [negb andb setViewportDrag viewportStart]; rewrite ?Hs;
      intros Hedge; apply Hinj in Hedge; lia.
  - rewrite Hst'. unfold ofNat.
    destruct (Z.eqb_spec k 0), (Z.leb_spec 0 (s - k)),
      (Z.leb_spec (e - k) (Z.of_nat len));
      cbn [negb andb setViewportDrag viewportEnd]; rewrite ?He;
      intros Hedge; apply Hinj in Hedge; lia.
Qed.

Lemma drag_beyond_edge_is_dropped_witness :
  handleMouseMove 90 (ofZ 800) (Some 800) (draggingState 0) = draggingState 0.
Proof.
  refine (proj1 (drag_beyond_edge_is_dropped
                   90 (draggingState 0) 9 81 800 72 (ofZ 800) (ofZ 0)
                   eq_refl eq_refl eq_refl eq_refl _ _ _ _) _).
  - lia.
  - lia.
  - simpl; lia.
  - vm_compute. reflexivity.
  - lia.
Defined.

(** ** Reset *)

(** C10. [resetView] sets the viewport to [0, len] and leaves every other
    field of the chart state as it was; a drag in progress stays in
    progress with the same anchor. *)
Theorem resetView_changes_only_the_viewport (len : nat) (st : ChartState) :
  viewportStart (resetView len st) = ofZ 0 /\
  viewportEnd (resetView len st) = ofNat len /\
  isDragging (resetView len st) = isDragging st /\
  dragStartX (resetView len st) = dragStartX st /\
  startIndex (resetView len st) = startIndex st /\
  endIndex (resetView len st) = endIndex st /\
  scale (resetView len st) = scale st.
Proof.
  destruct st; repeat split.
Qed.

(** ** Normalization of live payloads *)

Section NormalizationFacts.

Lemma bind_Ok {A B : Type} (m : result A) (k : A -> result B) (b : B) :
  bind m k = Ok b -> exists a, m = Ok a /\ k a = Ok b.
Proof. destruct m; simpl; [eauto | discriminate]. Qed.

Lemma fetchRealStockData_filter (http : HttpOutcome) (series : list StockData) :
  fetchRealStockData http = Ok series ->
  exists rows, series = filter realKeeps rows.
Proof.
  unfold fetchRealStockData.
  destruct http as [|[|] body]; try discriminate.
  intros H. apply bind_Ok in H as ([res|] & _ & H); try discriminate.
  destruct (quote res), (timestamp res); try discriminate;
    apply bind_Ok in H as (rows & _ & H); injection H as <-; eauto.
Qed.

Lemma le_false_gt (a : num) :
  JS.truthy a = true -> JS.le a (ofZ 0) = false -> JS.gt a (ofZ 0) = true.
Proof.
  destruct a as [q| | |]; simpl; try easy.
  unfold JS.gt; simpl. rewrite <- (Qcompare_antisym q (inject_Z 0)).
  now destruct (q ?= inject_Z 0)%Q.
Qed.

Lemma yahooRow_valid (q : Quote) (ts : Slot) (i : nat) (d : StockData) :
  yahooRow q ts i = Ok (Some d) -> roundedValidRow d.
Proof.
  unfold yahooRow, yahooSkips.
  destruct (atOpt (q_open q) i) as [o|]; [|discriminate].
  destruct (atOpt (q_high q) i) as [h|];
    [|simpl; rewrite ?orb_true_r; discriminate].
  destruct (atOpt (q_low q) i) as [l|];
    [|simpl; rewrite ?orb_true_r; discriminate].
  destruct (atOpt (q_close q) i) as [c|];
    [|simpl; rewrite ?orb_true_r; discriminate].
  simpl falsy. simpl toNumber.
  destruct (JS.truthy o) eqn:To; [|discriminate].
  destruct (JS.truthy h) eqn:Th; [|discriminate].
  destruct (JS.truthy l) eqn:Tl; [|discriminate].
  destruct (JS.truthy c) eqn:Tc; [|discriminate].
  cbn [negb orb].
  destruct (JS.le o (ofZ 0)) eqn:Lo; [discriminate|].
  destruct (JS.le c (ofZ 0)) eqn:Lc; [discriminate|].
  cbn [orb]. intros H. apply bind_Ok in H as (day & _ & H).
  injection H as <-. exists o, h, l, c. simpl.
  repeat split; auto using le_false_gt.
Qed.

Lemma yahooRows_valid (q : Quote) (tss : list Slot) (i : nat)
      (rows : list StockData) :
  yahooRows q tss i = Ok rows -> Forall roundedValidRow rows.
Proof.
  revert i rows. induction tss as [|ts tss IH]; intros i rows; simpl.
  - intros H. injection H as <-. constructor.
  - intros H. apply bind_Ok in H as (row & Hrow & H).
    apply bind_Ok in H as (rest & Hrest & H). injection H as <-.
    specialize (IH _ _ Hrest).
    destruct row as [d|]; [|assumption].
    constructor; [|assumption]. now apply yahooRow_valid in Hrow.
Qed.

Lemma insertByDate_perm (item : StockData) (l : list StockData) :
  Permutation (item :: l) (insertByDate item l).
Proof.
  induction l as [|y l IH]; simpl; [reflexivity|].
  destruct (date item <=? date y); [reflexivity|].
  rewrite perm_swap. now constructor.
Qed.

Lemma sortByDate_perm (l : list StockData) : Permutation l (sortByDate l).
Proof.
  induction l as [|x l IH]; simpl; [constructor|].
  rewrite <- insertByDate_perm. now constructor.
Qed.

Lemma insertByDate_sorted (item : StockData) (l : list StockData) :
  Sorted dateLe l -> Sorted dateLe (insertByDate item l).
Proof.
  induction l as [|y l IH]; simpl; intros Hs.
  - repeat constructor.
  - destruct (Z.leb_spec (date item) (date y)) as [Hle|Hgt].
    + constructor; [assumption|]. now constructor.
    + inversion Hs as [|? ? Hs' Hhd]; subst.
      constructor; [now apply IH|].
      destruct l as [|z l]; simpl.
      * constructor. unfold dateLe. lia.
      * destruct (date item <=? date z); constructor.
        -- unfold dateLe. lia.
        -- now inversion Hhd.
Qed.

Lemma sortByDate_sorted (l : list StockData) : Sorted dateLe (sortByDate l).
Proof.
  induction l as [|x l IH]; simpl; [constructor|].
  now apply insertByDate_sorted.
Qed.

Lemma fetchYahooFinanceData_sorted (http : HttpOutcome) (series : list StockData) :
  fetchYahooFinanceData http = Ok series ->
  exists q tss rows,
    yahooRows q tss 0 = Ok rows /\ rows <> [] /\ series = sortByDate rows.
Proof.
  unfold fetchYahooFinanceData.
  destruct http as [|[|] body]; try discriminate.
  intros H. apply bind_Ok in H as ([res|] & _ & H); try discriminate.
  destruct (quote res) as [| |q]; try discriminate.
  destruct (timestamp res) as [[|ts tss]|]; try discriminate.
  apply bind_Ok in H as (rows & Hrows & H).
  destruct rows as [|r rows]; [discriminate|].
  injection H as <-. exists q, (ts :: tss), (r :: rows).
  repeat split; [assumption|discriminate].
Qed.

End NormalizationFacts.

(** C6, counterexample. Both normalizations emit a row whose high is
    below its low, and a row whose open is not finite. *)
Lemma normalization_emits_invalid_points :
  fetchRealStockData (Response true (Ok (Some malformedRows)))
  = Ok [highBelowLow; infiniteOpen] /\
  fetchYahooFinanceData (Response true (Ok (Some malformedRows)))
  = Ok [infiniteOpen; highBelowLow] /\
  JS.lt (high highBelowLow) (low highBelowLow) = true /\
  JS.isFinite (open infiniteOpen) = false.
Proof.
  repeat split; vm_compute; reflexivity.
Qed.

(** C6, as the code has it. The only values tested are open and close.
    fetchRealStockData emits no point whose open or close, after
    [|| 0] and rounding to two decimals, is not above zero;
    fetchYahooFinanceData emits only roundings of rows whose raw open,
    high, low and close are present and whose open and close are above
    zero.  Neither compares high with low nor tests for finite values. *)
Theorem normalization_tests_open_and_close_only
        (http : HttpOutcome) (series : list StockData) :
  (fetchRealStockData http = Ok series ->
   Forall (fun d => JS.gt (open d) (ofZ 0) = true /\
                    JS.gt (close d) (ofZ 0) = true) series) /\
  (fetchYahooFinanceData http = Ok series ->
   Forall roundedValidRow series).
Proof.
  split; intros H.
  - apply fetchRealStockData_filter in H as (rows & ->).
    apply Forall_forall. intros d Hd. apply filter_In in Hd as [_ Hd].
    unfold realKeeps in Hd. now apply andb_true_iff in Hd.
  - apply fetchYahooFinanceData_sorted in H as (q & tss & rows & Hrows & _ & ->).
    apply yahooRows_valid in Hrows.
    eapply Permutation_Forall; [apply sortByDate_perm | exact Hrows].
Qed.

Lemma normalization_tests_open_and_close_only_witness :
  Forall (fun d => JS.gt (open d) (ofZ 0) = true /\
                   JS.gt (close d) (ofZ 0) = true)
         [highBelowLow; infiniteOpen].
Proof.
  apply (proj1 (normalization_tests_open_and_close_only
                  (Response true (Ok (Some malformedRows)))
                  [highBelowLow; infiniteOpen])).
  vm_compute. reflexivity.
Defined.

(** ** Order of the dates of a normalized series *)

(** C7, counterexample. fetchYahooFinanceData keeps both rows of one day,
    so its series repeats a date; fetchRealStockData returns the rows in
    payload order, here with the dates descending. *)
Lemma normalized_dates_not_strictly_increasing :
  (exists series,
      fetchYahooFinanceData (Response true (Ok (Some sameDayRows))) = Ok series /\
      map date series = [0; 0] /\ ~ Sorted dateLt series) /\
  (exists series,
      fetchRealStockData (Response true (Ok (Some descendingRows))) = Ok series /\
      map date series = [2; 1] /\ ~ Sorted dateLe series).
Proof.
  split; eexists; (split; [vm_compute; reflexivity|]);
    (split; [reflexivity|]); intros H;
    inversion H as [|? ? _ Hhd]; subst;
    inversion Hhd as [|? ? Hlt]; subst;
    unfold dateLt, dateLe in Hlt; simpl in Hlt; lia.
Qed.

(** C7, as the code has it. A series returned by fetchYahooFinanceData is
    not empty and its dates ascend: each date is at most every later one.
    Rows of the same day are all kept, so a date may repeat. *)
Theorem fetchYahooFinanceData_dates_ascend
        (http : HttpOutcome) (series : list StockData) :
  fetchYahooFinanceData http = Ok series ->
  series <> [] /\ StronglySorted dateLe series.
Proof.
  intros H.
  apply fetchYahooFinanceData_sorted in H as (q & tss & rows & _ & Hne & ->).
  split.
  - intros Hnil. apply Hne.
    apply Permutation_nil. rewrite <- Hnil. symmetry. apply sortByDate_perm.
  - apply Sorted_StronglySorted; [|apply sortByDate_sorted].
    intros a b c. unfold dateLe. lia.
Qed.

Lemma fetchYahooFinanceData_dates_ascend_witness :
  StronglySorted dateLe
    [mkStockData 1 (ofZ 11) (ofZ 13) (ofZ 10) (ofZ 12) (ofZ 200);
     mkStockData 2 (ofZ 10) (ofZ 12) (ofZ 9) (ofZ 11) (ofZ 100)].
Proof.
  refine (proj2 (fetchYahooFinanceData_dates_ascend
                   (Response true (Ok (Some descendingRows))) _ _)).
  vm_compute. reflexivity.
Defined.

(** ** Rendering a slice without price range *)

Section DegenerateRange.

Local Open Scope num_scope.

Lemma min_same (p : Q) : JS.min (Fin p) (Fin p) = Fin p.
Proof.
  unfold JS.min, JS.lt. now destruct (p ?= p)%Q.
Qed.

Lemma max_same (p : Q) : JS.max (Fin p) (Fin p) = Fin p.
Proof.
  unfold JS.max, JS.lt. now destruct (p ?= p)%Q.
Qed.

Lemma fold_min_flat (p : Q) (items : list StockData) :
  flatAt p items ->
  fold_left JS.min (flat_map (fun d => [high d; low d]) items) (Fin p) = Fin p.
Proof.
  induction 1 as [|d items [Hh Hl] _ IH]; cbn [flat_map fold_left app];
    [reflexivity|].
  now rewrite Hh, Hl, !min_same.
Qed.

Lemma fold_max_flat (p : Q) (items : list StockData) :
  flatAt p items ->
  fold_left JS.max (flat_map (fun d => [high d; low d]) items) (Fin p) = Fin p.
Proof.
  induction 1 as [|d items [Hh Hl] _ IH]; cbn [flat_map fold_left app];
    [reflexivity|].
  now rewrite Hh, Hl, !max_same.
Qed.

Lemma minOf_flat (p : Q) (items : list StockData) :
  items <> [] -> flatAt p items ->
  minOf (flat_map (fun d => [high d; low d]) items) = Fin p.
Proof.
  intros Hne Hflat. destruct Hflat as [|d items [Hh Hl] Hrest]; [easy|].
  unfold minOf; cbn [flat_map fold_left app]. rewrite Hh, Hl.
  change (JS.min PInf (Fin p)) with (Fin p). rewrite min_same.
  now apply fold_min_flat.
Qed.

Lemma maxOf_flat (p : Q) (items : list StockData) :
  items <> [] -> flatAt p items ->
  maxOf (flat_map (fun d => [high d; low d]) items) = Fin p.
Proof.
  intros Hne Hflat. destruct Hflat as [|d items [Hh Hl] Hrest]; [easy|].
  unfold maxOf; cbn [flat_map fold_left app]. rewrite Hh, Hl.
  change (JS.max NInf (Fin p)) with (Fin p). rewrite max_same.
  now apply fold_max_flat.
Qed.

(** A price minus itself is zero, and a finite number over it is not
    finite. *)
Lemma sub_same_zero (p : Q) : Qeq_bool (Qred (p - p)) 0 = true.
Proof.
  apply Qeq_eq_bool. rewrite Qred_correct. ring.
Qed.

Lemma div_by_zero_range (a : num) (p : Q) : nonFinite (a / (Fin p - Fin p)).
Proof.
  unfold nonFinite. cbn [JS.sub].
  destruct a as [q| | |]; cbn [JS.div]; rewrite ?sub_same_zero; try reflexivity.
  unfold JS.signedInf. now destruct (JS.qsgn q).
Qed.

Lemma qsgn_zero (q : Q) : Qeq_bool q 0 = true -> JS.qsgn q = 0%Z.
Proof.
  intros H. apply Qeq_bool_eq in H. unfold Qeq in H; simpl in H.
  unfold JS.qsgn. rewrite Z.mul_1_r in H. now rewrite H.
Qed.

(** Zero times a non-finite scale is NaN, and stays NaN behind the
    padding. *)
Lemma zero_times_nonFinite (p : Q) (scale : num) :
  nonFinite scale -> padding + (Fin p - Fin p) * scale = NaN.
Proof.
  unfold nonFinite. cbn [JS.sub].
  destruct scale; cbn [JS.isFinite JS.mul]; try discriminate; intros _;
    rewrite ?(qsgn_zero _ (sub_same_zero p)); reflexivity.
Qed.

Lemma times_nonFinite (a scale : num) :
  nonFinite scale -> nonFinite (padding + a * scale).
Proof.
  unfold nonFinite.
  destruct scale; cbn [JS.isFinite]; try discriminate; intros _;
    destruct a as [q| | |]; cbn [JS.mul]; try reflexivity;
    unfold JS.signedInf; destruct (JS.qsgn q); reflexivity.
Qed.

Lemma min_nonFinite (a b : num) :
  nonFinite a -> nonFinite b -> nonFinite (JS.min a b).
Proof.
  unfold nonFinite. destruct a, b; simpl; try discriminate; reflexivity.
Qed.

Lemma bodyHeight_nonFinite (a b : num) :
  nonFinite a -> nonFinite b ->
  nonFinite (if JS.lt (JS.abs (a - b)) (ofZ 1) then ofZ 1 else JS.abs (a - b)).
Proof.
  unfold nonFinite. destruct a, b; simpl; try discriminate; reflexivity.
Qed.

Lemma candle_undrawable (chartWidth scale candleWidth : num) (p : Q)
      (count : nat) (item : StockData) (index : nat) :
  nonFinite scale -> high item = Fin p -> low item = Fin p ->
  undrawable (candle chartWidth (Fin p) scale candleWidth count item index).
Proof.
  intros Hs Hh Hl. unfold undrawable, candle; cbn [c_highY c_lowY c_bodyY c_bodyHeight].
  rewrite Hh, Hl. repeat split.
  - now apply zero_times_nonFinite.
  - now apply zero_times_nonFinite.
  - apply min_nonFinite; now apply times_nonFinite.
  - apply bodyHeight_nonFinite; now apply times_nonFinite.
Qed.

Lemma candles_undrawable (chartWidth scale candleWidth : num) (p : Q)
      (count : nat) (items : list StockData) (index : nat) :
  nonFinite scale -> flatAt p items ->
  Forall undrawable
         (candles chartWidth (Fin p) scale candleWidth count items index) /\
  length (candles chartWidth (Fin p) scale candleWidth count items index)
  = length items.
Proof.
  intros Hs Hflat. revert index.
  induction Hflat as [|d items [Hh Hl] _ IH]; intros index; simpl.
  - split; [constructor | reflexivity].
  - destruct (IH (S index)) as [IH1 IH2]. split.
    + constructor; [now apply candle_undrawable | exact IH1].
    + now rewrite IH2.
Qed.

End DegenerateRange.

(** C9, counterexample. For two points at the one price 5 the price scale
    is 380 / 0 = Infinity and the wick of the first candle runs from NaN
    to NaN: the geometry is not a flat line of finite coordinates. *)
Lemma flat_series_has_no_finite_wick :
  exists drawing c rest,
    drawChart 800 500 flatSeries (loadedChartState 2 (ofZ 90)) = Some drawing /\
    d_priceScale drawing = PInf /\
    d_candles drawing = c :: rest /\
    c_highY c = NaN /\ c_lowY c = NaN /\
    JS.isFinite (c_highY c) = false.
Proof.
  do 3 eexists. split; [vm_compute; reflexivity|].
  repeat split; reflexivity.
Qed.

(** C9, as the code has it. For a non-empty visible slice whose highs and
    lows are all one price, [drawChart] does not stop early and nothing in
    it throws, but it divides by the zero price range: the price scale is
    an infinity or NaN, and every candle, one per visible point, has the
    wick ends [highY] and [lowY] equal to NaN and a body position and
    height that are not finite. *)
Theorem degenerate_range_yields_nonfinite_geometry
        (canvasWidth canvasHeight : Z) (stockData : list StockData)
        (st : ChartState) (p : Q) :
  let visibleData := slice (viewportStart st) (viewportEnd st) stockData in
  visibleData <> [] ->
  flatAt p visibleData ->
  exists drawing,
    drawChart canvasWidth canvasHeight stockData st = Some drawing /\
    nonFinite (d_priceScale drawing) /\
    length (d_candles drawing) = length visibleData /\
    Forall undrawable (d_candles drawing).
Proof.
  intros visibleData Hne Hflat.
  exists (drawVisible canvasWidth canvasHeight visibleData). split.
  - unfold drawChart. fold visibleData.
    destruct stockData as [|d0 rest].
    + exfalso. apply Hne. subst visibleData. unfold slice.
      now rewrite skipn_nil, firstn_nil.
    + destruct visibleData; [easy | reflexivity].
  - unfold drawVisible; cbn [d_priceScale d_candles].
    rewrite (minOf_flat p), (maxOf_flat p) by assumption.
    pose proof (div_by_zero_range
                  (ofZ canvasHeight - padding * ofZ 2)%num p) as Hscale.
    split; [exact Hscale|].
    destruct (candles_undrawable
                (ofZ canvasWidth - padding * ofZ 2)%num
                ((ofZ canvasHeight - padding * ofZ 2) / (Fin p - Fin p))%num
                (JS.max (ofZ 2)
                   ((ofZ canvasWidth - padding * ofZ 2)
                    / ofNat (length visibleData) * lit 8 10)%num)
                p (length visibleData) visibleData 0 Hscale Hflat) as [H1 H2].
    split; assumption.
Qed.

Lemma degenerate_range_yields_nonfinite_geometry_witness :
  exists drawing,
    drawChart 800 500 flatSeries (loadedChartState 2 (ofZ 90)) = Some drawing /\
    nonFinite (d_priceScale drawing) /\
    length (d_candles drawing) = 2%nat /\
    Forall undrawable (d_candles drawing).
Proof.
  refine (degenerate_range_yields_nonfinite_geometry
            800 500 flatSeries (loadedChartState 2 (ofZ 90)) 5 _ _).
  - vm_compute. discriminate.
  - vm_compute. repeat constructor.
Defined.

(** ** Loading with fallback *)

Section LoadingFacts.

Variable random : nat -> Q.
Variable dateDaysAgo : nat -> result Z.
Variable sinQ : Q -> Q.

Lemma mockDay_total (symbol : string) (config : StockConfig) (i : nat)
      (price : num) (n : nat) (d : Z) :
  dateDaysAgo i = Ok d ->
  exists row price',
    mockDay random dateDaysAgo sinQ symbol config i price n
    = Ok (row, price', (n + 7)%nat).
Proof.
  intros Hd. unfold mockDay. rewrite Hd. simpl. eauto.
Qed.

Lemma mockDays_total (symbol : string) (config : StockConfig) (i : nat) :
  datesInRange dateDaysAgo i ->
  forall (price : num) (n : nat),
  exists rows,
    mockDays random dateDaysAgo sinQ symbol config i price n = Ok rows /\
    length rows = S i.
Proof.
  induction i as [|j IH]; intros Hdates price n.
  - destruct (Hdates 0%nat (le_n _)) as [d Hd].
    destruct (mockDay_total symbol config 0 price n d Hd) as (row & p' & E).
    simpl. rewrite E. eauto.
  - destruct (Hdates (S j) (le_n _)) as [d Hd].
    destruct (mockDay_total symbol config (S j) price n d Hd) as (row & p' & E).
    destruct (IH (fun k Hk => Hdates k (le_S _ _ Hk)) p' (n + 7)%nat)
      as (rows & Hrows & Hlen).
    cbn [mockDays]. rewrite E, Hrows. simpl. eexists. split; [reflexivity|].
    simpl. now rewrite Hlen.
Qed.

Lemma generateMockData_total (symbol : string) (days : nat) :
  stockConfigs symbol <> Inherited -> datesInRange dateDaysAgo days ->
  exists rows,
    generateMockData random dateDaysAgo sinQ symbol days = Ok rows /\
    length rows = S days.
Proof.
  intros Hsym Hdates. unfold generateMockData.
  destruct (stockConfigs symbol) as [config| |]; [|easy|];
    now apply mockDays_total.
Qed.

Lemma simpleDays_total (i : nat) :
  datesInRange dateDaysAgo i ->
  forall (price : num) (n : nat),
  exists rows,
    simpleDays random dateDaysAgo i price n = Ok rows /\ length rows = S i.
Proof.
  induction i as [|j IH]; intros Hdates price n.
  - destruct (Hdates 0%nat (le_n _)) as [d Hd].
    cbn [simpleDays]. unfold simpleDay. rewrite Hd. simpl. eauto.
  - destruct (Hdates (S j) (le_n _)) as [d Hd].
    cbn [simpleDays]. unfold simpleDay at 1. rewrite Hd. cbn [bind].
    match goal with
    | |- context [simpleDays _ _ j ?p ?m] =>
        destruct (IH (fun k Hk => Hdates k (le_S _ _ Hk)) p m)
          as (rows & Hrows & Hlen)
    end.
    rewrite Hrows. simpl. eexists. split; [reflexivity|].
    simpl. now rewrite Hlen.
Qed.

Lemma generateMockData_simple_total (days : nat) :
  datesInRange dateDaysAgo days ->
  exists rows,
    generateMockData_simple random dateDaysAgo days = Ok rows /\
    length rows = S days.
Proof.
  intros Hdates. now apply simpleDays_total.
Qed.

Lemma interactiveDays_total (config : StockConfig) (i : nat) :
  datesInRange dateDaysAgo i ->
  forall (price : num) (n : nat),
  exists rows,
    interactiveDays random dateDaysAgo sinQ config i price n = Ok rows /\
    length rows = S i.
Proof.
  induction i as [|j IH]; intros Hdates price n.
  - destruct (Hdates 0%nat (le_n _)) as [d Hd].
    cbn [interactiveDays]. unfold interactiveDay. rewrite Hd. simpl. eauto.
  - destruct (Hdates (S j) (le_n _)) as [d Hd].
    cbn [interactiveDays]. unfold interactiveDay at 1. rewrite Hd. cbn [bind].
    match goal with
    | |- context [interactiveDays _ _ _ _ j ?p ?m] =>
        destruct (IH (fun k Hk => Hdates k (le_S _ _ Hk)) p m)
          as (rows & Hrows & Hlen)
    end.
    rewrite Hrows. simpl. eexists. split; [reflexivity|].
    simpl. now rewrite Hlen.
Qed.

Lemma generateMockData_interactive_total (symbol : string) (days : nat) :
  stockConfigs symbol <> Inherited -> datesInRange dateDaysAgo days ->
  exists rows,
    generateMockData_interactive random dateDaysAgo sinQ symbol days = Ok rows /\
    length rows = S days.
Proof.
  intros Hsym Hdates. unfold generateMockData_interactive, stockPriceRanges.
  destruct (stockConfigs symbol) as [config| |]; [|easy|];
    now apply interactiveDays_total.
Qed.


End LoadingFacts.






(** For a symbol that names a property of [Object.prototype] the
    generator throws in its first turn, and [loadData] ends with the
    load-failed text and no series. *)
Example loadData_inherited_symbol :
  exists c',
    loadData sampleRandom sampleClock sampleSin true FetchRejected
             "constructor" 2 freshComponent = Ok c' /\
    stockData c' = [] /\ error c' = Some LoadFailed /\ loading c' = false.
Proof.
  eexists. split; [vm_compute; reflexivity|]. repeat split.
Qed.

(** A payload whose only row has no open price: the filter leaves no
    point, and [loadData] shows the empty live series without falling
    back. *)
Example loadData_empty_live_series :
  let http :=
    Response true (Ok (Some (mkChartResult
      (Some [Some (ofZ 86400)])
      (Quote0 (mkQuote (Some [None]) (Some [Some (ofZ 11)])
                       (Some [Some (ofZ 9)]) (Some [Some (ofZ 10)])
                       (Some [Some (ofZ 100)])))))) in
  exists c',
    loadData sampleRandom sampleClock sampleSin true http "TMDX" 2
             freshComponent = Ok c' /\
    stockData c' = [] /\ dataSource c' = api /\ error c' = None.
Proof.
  eexists. split; [vm_compute; reflexivity|]. repeat split.
Qed.

(** ** Rounding to two decimals is monotone *)

Section Rounding.

Local Open Scope Q_scope.

Lemma cents_mono (x y : Q) : x <= y -> (cents x <= cents y)%Z.
Proof.
  intros H. apply Qfloor_resp_le. lra.
Qed.

Lemma cents_nonneg (x : Q) : 0 <= x -> (0 <= cents x)%Z.
Proof.
  intros H. change 0%Z with (Qfloor 0). apply Qfloor_resp_le. lra.
Qed.

Lemma Qabs_nonneg_eq (q : Q) : 0 <= q -> Qabs q = q.
Proof.
  destruct q as [n d]. unfold Qle; simpl. intros H.
  rewrite Z.mul_1_r in H. now rewrite Z.abs_eq.
Qed.

Lemma sgn_cents (q : Q) : 0 <= q -> (Z.sgn (Qnum q) * cents q)%Z = cents q.
Proof.
  intros H. pose proof (cents_nonneg q H) as Hc.
  destruct q as [n d]. unfold Qle in H; simpl in H. rewrite Z.mul_1_r in H.
  simpl Qnum. destruct (Z.eq_dec n 0) as [->|Hn].
  - simpl. unfold cents, Qfloor. simpl. symmetry. apply Z.div_small. lia.
  - rewrite Z.sgn_pos by lia. lia.
Qed.

Lemma round2_nonneg (q : Q) :
  0 <= q ->
  JS.round2 q =
  if Qle_bool (inject_Z (10 ^ 21)) q then q else inject_Z (cents q) / 100.
Proof.
  intros H. unfold JS.round2. rewrite (Qabs_nonneg_eq q H).
  destruct (Qle_bool _ q); [reflexivity|].
  cbv zeta. fold (cents q). now rewrite (sgn_cents q H).
Qed.

Lemma cents_below_limit (q : Q) :
  q < inject_Z (10 ^ 21) -> inject_Z (cents q) / 100 <= inject_Z (10 ^ 21).
Proof.
  intros H.
  assert (Hc : (cents q <= 10 ^ 23)%Z).
  { apply Z.lt_succ_r. rewrite Zlt_Qlt.
    eapply Qle_lt_trans; [apply Qfloor_le|].
    change (inject_Z (Z.succ (10 ^ 23))) with (inject_Z (10 ^ 21) * 100 + 1).
    lra. }
  apply Qle_shift_div_r; [reflexivity|].
  rewrite Zle_Qle in Hc.
  change (inject_Z (10 ^ 23)) with (inject_Z (10 ^ 21) * 100) in Hc.
  exact Hc.
Qed.

Lemma round2_mono (x y : Q) :
  0 <= x -> x <= y -> JS.round2 x <= JS.round2 y.
Proof.
  intros Hx Hxy. assert (Hy : 0 <= y) by lra.
  rewrite (round2_nonneg x Hx), (round2_nonneg y Hy).
  destruct (Qle_bool (inject_Z (10 ^ 21)) x) eqn:Ex;
    destruct (Qle_bool (inject_Z (10 ^ 21)) y) eqn:Ey.
  - exact Hxy.
  - apply Qle_bool_iff in Ex.
    assert (Ey' : ~ inject_Z (10 ^ 21) <= y)
      by (rewrite <- Qle_bool_iff; congruence).
    exfalso. apply Ey'. lra.
  - apply Qle_bool_iff in Ey.
    assert (Ex' : ~ inject_Z (10 ^ 21) <= x)
      by (rewrite <- Qle_bool_iff; congruence).
    eapply Qle_trans; [apply cents_below_limit|exact Ey].
    now apply Qnot_le_lt.
  - apply Qmult_le_compat_r; [|discriminate].
    rewrite <- Zle_Qle. now apply cents_mono.
Qed.

Lemma le_Fin (a b : Q) : JS.le (Fin a) (Fin b) = true <-> a <= b.
Proof.
  simpl. rewrite Qle_alt. destruct (a ?= b); split; congruence.
Qed.

Lemma toFixed2_mono (x y : Q) :
  0 <= x -> x <= y ->
  JS.le (JS.toFixed2 (Fin x)) (JS.toFixed2 (Fin y)) = true.
Proof.
  intros Hx Hxy. simpl. apply le_Fin.
  rewrite !Qred_correct. now apply round2_mono.
Qed.

End Rounding.

(** ** Generated points *)

Create HintDb jsnum.

Section FiniteNumbers.

Local Open Scope num_scope.

Lemma finite_Fin (q : Q) : finite (Fin q).
Proof. now exists q. Qed.

Lemma finite_ofZ (z : Z) : finite (ofZ z).
Proof. apply finite_Fin. Qed.

Lemma finite_ofNat (n : nat) : finite (ofNat n).
Proof. apply finite_Fin. Qed.

Lemma finite_lit (n : Z) (d : positive) : finite (lit n d).
Proof. apply finite_Fin. Qed.

Lemma finite_add (a b : num) : finite a -> finite b -> finite (a + b).
Proof. intros [x ->] [y ->]. apply finite_Fin. Qed.

Lemma finite_sub (a b : num) : finite a -> finite b -> finite (a - b).
Proof. intros [x ->] [y ->]. apply finite_Fin. Qed.

Lemma finite_mul (a b : num) : finite a -> finite b -> finite (a * b).
Proof. intros [x ->] [y ->]. apply finite_Fin. Qed.

Lemma div_Fin (x y : Q) :
  ~ (y == 0)%Q -> Fin x / Fin y = Fin (Qred (x / y)).
Proof.
  intros Hy. cbn [JS.div].
  destruct (Qeq_bool y 0) eqn:E; [|reflexivity].
  now apply Qeq_bool_eq in E.
Qed.

Lemma finite_div (a : num) (y : Q) :
  ~ (y == 0)%Q -> finite a -> finite (a / Fin y).
Proof. intros Hy [x ->]. rewrite div_Fin by assumption. apply finite_Fin. Qed.

Lemma finite_div_ofZ (a : num) (z : Z) :
  z <> 0%Z -> finite a -> finite (a / ofZ z).
Proof.
  intros Hz. apply finite_div. unfold Qeq, inject_Z; simpl. lia.
Qed.

Lemma finite_random (random : nat -> Q) (n : nat) :
  finite (Math_random random n).
Proof. apply finite_Fin. Qed.

Lemma finite_sin (sinQ : Q -> Q) (a : num) :
  finite a -> finite (Math_sin sinQ a).
Proof. intros [x ->]. apply finite_Fin. Qed.

End FiniteNumbers.

#[local] Hint Resolve finite_Fin finite_ofZ finite_ofNat finite_lit finite_add
  finite_sub finite_mul finite_div finite_div_ofZ finite_random finite_sin
  : jsnum.
#[local] Hint Extern 1 (_ <> _ :> Z) => discriminate : jsnum.

Section PointFacts.

Local Open Scope num_scope.

Lemma max_Fin_cases (a b : Q) :
  (JS.max (Fin a) (Fin b) = Fin a /\ (b <= a)%Q) \/
  (JS.max (Fin a) (Fin b) = Fin b /\ (a < b)%Q).
Proof.
  unfold JS.max, JS.lt. destruct (a ?= b)%Q eqn:E.
  - left. split; [reflexivity|]. apply Qeq_alt in E. rewrite E. apply Qle_refl.
  - right. split; [reflexivity|]. now apply Qlt_alt.
  - left. split; [reflexivity|]. apply Qgt_alt in E. now apply Qlt_le_weak.
Qed.

Lemma min_Fin_cases (a b : Q) :
  (JS.min (Fin a) (Fin b) = Fin a /\ (a <= b)%Q) \/
  (JS.min (Fin a) (Fin b) = Fin b /\ (b < a)%Q).
Proof.
  unfold JS.min, JS.lt. destruct (b ?= a)%Q eqn:E.
  - left. split; [reflexivity|]. apply Qeq_alt in E. rewrite E. apply Qle_refl.
  - right. split; [reflexivity|]. now apply Qlt_alt.
  - left. split; [reflexivity|]. apply Qgt_alt in E. now apply Qlt_le_weak.
Qed.

(** The lower clamp keeps a finite price at or above a positive bound. *)
Lemma clamp_pos (lo hi : Q) (x : num) :
  finite x ->
  exists o, JS.max (Fin lo) (JS.min (Fin hi) x) = Fin o /\ (lo <= o)%Q.
Proof.
  intros [q ->].
  destruct (min_Fin_cases hi q) as [[-> _]|[-> _]];
    match goal with
    | |- context [JS.max (Fin ?a) (Fin ?b)] =>
        destruct (max_Fin_cases a b) as [[-> H]|[-> H]]
    end; eexists; (split; [reflexivity|]); lra.
Qed.

Lemma floor_pos (x : num) (z : Z) :
  finite x ->
  exists o, JS.max x (ofZ z) = Fin o /\ (inject_Z z <= o)%Q.
Proof.
  intros [q ->]. unfold ofZ.
  destruct (max_Fin_cases q (inject_Z z)) as [[-> H]|[-> H]];
    eexists; (split; [reflexivity|]); lra.
Qed.

(** The high and low derived from open and close enclose them, also after
    each of the four prices is rounded to two decimals. *)
Lemma emitted_ok (day : Z) (o c r1 k1 r2 k2 : Q) (v : num) :
  (0 < o)%Q -> (0 < c)%Q ->
  (0 <= r1)%Q -> (0 <= k1)%Q ->
  (0 <= r2 <= 1)%Q -> (0 <= k2 <= 1)%Q ->
  JS.ge v (ofZ 0) = true ->
  ohlcv_ok
    (mkStockData day
       (JS.toFixed2 (Fin o))
       (JS.toFixed2 (JS.max (Fin o) (Fin c) * (ofZ 1 + Fin r1 * Fin k1)))
       (JS.toFixed2 (JS.min (Fin o) (Fin c) * (ofZ 1 - Fin r2 * Fin k2)))
       (JS.toFixed2 (Fin c)) v).
Proof.
  intros Ho Hc Hr1 Hk1 [Hr2 Hr2'] [Hk2 Hk2'] Hv.
  assert (Hz1 : (0 <= r1 * k1)%Q) by now apply Qmult_le_0_compat.
  assert (Hz2 : (0 <= r2 * k2)%Q) by now apply Qmult_le_0_compat.
  assert (Hz2' : (r2 * k2 <= 1)%Q).
  { apply Qle_trans with (1 * k2)%Q; [|lra].
    apply Qmult_le_compat_r; assumption. }
  unfold ohlcv_ok; cbn [open high low close volume].
  split; [|split; [|exact Hv]].
  - (* high *)
    assert (Hhi : forall m, (0 <= m)%Q -> (o <= m)%Q -> (c <= m)%Q ->
              JS.ge (JS.toFixed2 (Fin m * (ofZ 1 + Fin r1 * Fin k1)))
                    (JS.max (JS.toFixed2 (Fin o)) (JS.toFixed2 (Fin c))) = true).
    { intros m Hm Hom Hcm. unfold ofZ. cbn [JS.mul JS.add].
      set (h := Qred (m * Qred (inject_Z 1 + Qred (r1 * k1)))).
      assert (Hh : (m <= h)%Q).
      { subst h. rewrite !Qred_correct.
        assert (0 <= m * (r1 * k1))%Q by now apply Qmult_le_0_compat.
        change (inject_Z 1) with 1%Q. lra. }
      unfold JS.ge. cbn [JS.toFixed2].
      destruct (max_Fin_cases (Qred (JS.round2 o)) (Qred (JS.round2 c)))
        as [[-> _]|[-> _]]; apply le_Fin; rewrite !Qred_correct;
        apply round2_mono; lra. }
    destruct (max_Fin_cases o c) as [[-> H]|[-> H]]; apply Hhi; lra.
  - (* low *)
    assert (Hlo : forall m, (0 <= m)%Q -> (m <= o)%Q -> (m <= c)%Q ->
              JS.le (JS.toFixed2 (Fin m * (ofZ 1 - Fin r2 * Fin k2)))
                    (JS.min (JS.toFixed2 (Fin o)) (JS.toFixed2 (Fin c))) = true).
    { intros m Hm Hom Hcm. unfold ofZ. cbn [JS.mul JS.sub].
      set (l := Qred (m * Qred (inject_Z 1 - Qred (r2 * k2)))).
      assert (Hl : (0 <= l <= m)%Q).
      { subst l. rewrite !Qred_correct. change (inject_Z 1) with 1%Q.
        assert (0 <= m * (r2 * k2))%Q by now apply Qmult_le_0_compat.
        assert (0 <= m * (1 - r2 * k2))%Q
          by (apply Qmult_le_0_compat; lra).
        lra. }
      cbn [JS.toFixed2].
      destruct (min_Fin_cases (Qred (JS.round2 o)) (Qred (JS.round2 c)))
        as [[-> _]|[-> _]]; apply le_Fin; rewrite !Qred_correct;
        apply round2_mono; lra. }
    destruct (min_Fin_cases o c) as [[-> H]|[-> H]]; apply Hlo; lra.
Qed.

Lemma ge_zero_floor (q : Q) :
  (0 <= q)%Q -> JS.ge (JS.floor (Fin q)) (ofZ 0) = true.
Proof.
  intros H. unfold JS.ge. cbn [JS.floor]. apply le_Fin.
  rewrite <- Zle_Qle. change 0%Z with (Qfloor 0). now apply Qfloor_resp_le.
Qed.

End PointFacts.

Section GeneratorFacts.

Variable random : nat -> Q.
Variable dateDaysAgo : nat -> result Z.
Variable sinQ : Q -> Q.

Hypothesis random_range : random_ok random.

Local Open Scope num_scope.

Lemma defaultConfig_ok : config_ok defaultConfig.
Proof.
  exists (inject_Z 100), (inject_Z 80), (inject_Z 130),
         (Qred (25 # 1000)), (inject_Z 0).
  repeat split; try reflexivity; vm_compute; discriminate.
Qed.

Lemma stockConfigs_ok (symbol : string) (config : StockConfig) :
  stockConfigs symbol = Own config -> config_ok config.
Proof.
  unfold stockConfigs.
  destruct (String.eqb symbol "TMDX").
  { intros H; injection H as <-.
    exists (inject_Z 117), (inject_Z 80), (inject_Z 180),
           (Qred (45 # 1000)), (Qred (1 # 1000)).
    repeat split; try reflexivity; vm_compute; discriminate. }
  destruct (String.eqb symbol "AAPL").
  { intros H; injection H as <-.
    exists (inject_Z 180), (inject_Z 150), (inject_Z 200),
           (Qred (2 # 100)), (Qred (1 # 1000)).
    repeat split; try reflexivity; vm_compute; discriminate. }
  destruct (String.eqb symbol "TSLA").
  { intros H; injection H as <-.
    exists (inject_Z 250), (inject_Z 180), (inject_Z 350),
           (Qred (45 # 1000)), (Qred (2 # 1000)).
    repeat split; try reflexivity; vm_compute; discriminate. }
  destruct (String.eqb symbol "default").
  { intros H; injection H as <-. apply defaultConfig_ok. }
  destruct (existsb _ _); discriminate.
Qed.

Lemma random_bounds (n : nat) :
  (0 <= Qred (random n) /\ Qred (random n) <= 1)%Q.
Proof.
  rewrite Qred_correct. destruct (random_range n). split; lra.
Qed.

(** The close of RealStockChart's generator stays positive. *)
Lemma close_pos (o v r3 r4 : Q) :
  (0 < o)%Q -> (0 <= v)%Q -> (v <= 1 # 10)%Q ->
  (0 <= r3 <= 1)%Q -> (0 <= r4 <= 1)%Q ->
  exists c,
    Fin o * (ofZ 1 + (Fin r4 - lit 5 10)
                     * (Fin v * (lit 3 10 + Fin r3 * lit 7 10)))
    = Fin c /\ (0 < c)%Q.
Proof.
  intros Ho Hv0 Hv1 [Hr3 Hr3'] [Hr4 Hr4'].
  eexists. split; [reflexivity|].
  rewrite !Qred_correct. change (inject_Z 1) with 1%Q.
  set (A := ((3 # 10) + r3 * (7 # 10))%Q).
  assert (HA : (0 <= A <= 1)%Q) by (subst A; lra).
  assert (HB0 : (0 <= v * A)%Q) by (apply Qmult_le_0_compat; lra).
  assert (HB1 : (v * A <= 1 # 10)%Q).
  { apply Qle_trans with (v * 1)%Q; [|lra].
    rewrite !(Qmult_comm v). apply Qmult_le_compat_r; lra. }
  generalize dependent (v * A)%Q. intros B HB0 HB1.
  assert (H : (0 <= r4 * B)%Q) by now apply Qmult_le_0_compat.
  apply Qmult_lt_0_compat; [assumption|]. lra.
Qed.

(** The volume of RealStockChart's generator is not negative. *)
Lemma volume_nonneg (bv : Z) (o c r7 : Q) :
  (0 <= bv)%Z -> (0 < o)%Q -> (0 <= r7)%Q ->
  JS.ge (JS.floor (ofZ bv * (ofZ 1 + JS.abs ((Fin c - Fin o) / Fin o) * ofZ 8)
                   * (lit 5 10 + Fin r7)))
        (ofZ 0) = true.
Proof.
  intros Hbv Ho Hr7. cbn [JS.sub].
  rewrite div_Fin by (intros E; rewrite E in Ho; now apply Qlt_irrefl in Ho).
  unfold ofZ, lit. cbn [JS.abs JS.mul JS.add]. apply ge_zero_floor.
  rewrite !Qred_correct.
  assert (Hb : (0 <= inject_Z bv)%Q)
    by (change 0%Q with (inject_Z 0); now rewrite <- Zle_Qle).
  repeat apply Qmult_le_0_compat; try assumption.
  - change (inject_Z 1) with 1%Q.
    assert (0 <= Qabs ((c - o) / o) * inject_Z 8)%Q
      by (apply Qmult_le_0_compat; [apply Qabs_nonneg|discriminate]).
    lra.
  - lra.
Qed.

Lemma Ok_triple_inv {A B C : Type} (a a' : A) (b b' : B) (c c' : C) :
  Ok (a, b, c) = Ok (a', b', c') -> a = a' /\ b = b' /\ c = c'.
Proof. intros H. injection H. auto. Qed.

Lemma mockDay_ok (symbol : string) (config : StockConfig) (i : nat) (p : Q)
      (n : nat) (row : StockData) (price' : num) (n' : nat) :
  config_ok config ->
  mockDay random dateDaysAgo sinQ symbol config i (Fin p) n
  = Ok (row, price', n') ->
  ohlcv_ok row /\ finite price'.
Proof.
  intros (b & lo & hi & v & t & -> & Hb & Hlo & Hv0 & Hv1) H.
  unfold mockDay in H. cbv zeta in H.
  cbn [base rangeLow rangeHigh volatility trend] in H.
  destruct (dateDaysAgo i) as [d|]; [|discriminate].
  unfold bind in H. apply Ok_triple_inv in H as (<- & <- & <-).
  match goal with
  | |- context [JS.min (Fin hi) ?X] =>
      assert (HX : finite X) by auto 15 with jsnum;
      destruct (clamp_pos lo hi X HX) as (o & Ho & Hpos)
  end.
  rewrite Ho. assert (Ho0 : (0 < o)%Q) by lra.
  unfold Math_random.
  destruct (close_pos o v (Qred (random (n + 2))) (Qred (random (n + 3)))
              Ho0 Hv0 Hv1 (random_bounds _) (random_bounds _))
    as (c & Hc & Hc0).
  rewrite Hc. split; [|apply finite_Fin].
  apply emitted_ok.
  - exact Ho0.
  - exact Hc0.
  - apply random_bounds.
  - discriminate.
  - apply random_bounds.
  - split; discriminate.
  - destruct (String.eqb symbol "TMDX");
      apply volume_nonneg; try assumption; try apply random_bounds; lia.
Qed.

Lemma mockDays_ok (symbol : string) (config : StockConfig) (i : nat) :
  config_ok config ->
  forall (p : Q) (n : nat) (rows : list StockData),
    mockDays random dateDaysAgo sinQ symbol config i (Fin p) n = Ok rows ->
    Forall ohlcv_ok rows.
Proof.
  intros Hcfg. induction i as [|j IH]; intros p n rows H; cbn [mockDays] in H.
  - destruct (mockDay _ _ _ _ _ _ _ _) as [[[row price] n']|] eqn:E;
      [|discriminate].
    injection H as <-. constructor; [|constructor].
    now apply (mockDay_ok _ _ _ _ _ _ _ _ Hcfg E).
  - destruct (mockDay _ _ _ _ _ _ _ _) as [[[row price] n']|] eqn:E;
      [|discriminate].
    destruct (mockDay_ok _ _ _ _ _ _ _ _ Hcfg E) as [Hrow [p' ->]].
    apply bind_Ok in H as (rest & Hrest & H). injection H as <-.
    constructor; [assumption|]. now apply (IH p' n').
Qed.

Lemma generateMockData_ok (symbol : string) (days : nat)
      (data : list StockData) :
  generateMockData random dateDaysAgo sinQ symbol days = Ok data ->
  Forall ohlcv_ok data.
Proof.
  unfold generateMockData.
  destruct (stockConfigs symbol) as [config| |] eqn:E; [|discriminate|].
  - apply stockConfigs_ok in E.
    destruct E as (b & lo & hi & v & t & -> & Hrest).
    cbn [base]. unfold Math_random, lit, ofZ. cbn [JS.sub JS.mul JS.add].
    apply mockDays_ok. exists b, lo, hi, v, t. now split.
  - unfold defaultConfig at 2. cbn [base].
    unfold Math_random, lit, ofZ. cbn [JS.sub JS.mul JS.add].
    apply mockDays_ok. apply defaultConfig_ok.
Qed.

End GeneratorFacts.

Section SimpleGeneratorFacts.

Variable random : nat -> Q.
Variable dateDaysAgo : nat -> result Z.

Hypothesis random_range : random_ok random.

Local Open Scope num_scope.

(** The close of StockChart's generator stays positive. *)
Lemma simple_close_pos (o r : Q) :
  (0 < o)%Q -> (0 <= r <= 1)%Q ->
  exists c,
    Fin o * (ofZ 1 + (Fin r - lit 5 10) * lit 2 100) = Fin c /\ (0 < c)%Q.
Proof.
  intros Ho [Hr Hr']. eexists. split; [reflexivity|].
  rewrite !Qred_correct. change (inject_Z 1) with 1%Q.
  apply Qmult_lt_0_compat; [assumption|]. lra.
Qed.

(** The volume of StockChart's generator is not negative. *)
Lemma simple_volume_nonneg (r : Q) :
  (0 <= r)%Q ->
  JS.ge (JS.floor (Fin r * ofZ 1000000) + ofZ 100000) (ofZ 0) = true.
Proof.
  intros Hr. unfold ofZ at 1. cbn [JS.mul JS.floor]. rewrite add_ofZ.
  unfold JS.ge. apply le_Fin. rewrite <- Zle_Qle.
  assert (0 <= Qfloor (Qred (r * inject_Z 1000000)))%Z; [|lia].
  change 0%Z with (Qfloor 0). apply Qfloor_resp_le.
  rewrite Qred_correct. apply Qmult_le_0_compat; [assumption|discriminate].
Qed.

Lemma simpleDay_ok (i : nat) (p : Q) (n : nat)
      (row : StockData) (price' : num) (n' : nat) :
  simpleDay random dateDaysAgo i (Fin p) n = Ok (row, price', n') ->
  ohlcv_ok row /\ finite price'.
Proof.
  intros H. unfold simpleDay in H. cbv zeta in H.
  destruct (dateDaysAgo i) as [d|]; [|discriminate].
  unfold bind in H. apply Ok_triple_inv in H as (<- & <- & <-).
  match goal with
  | |- context [JS.max ?X (ofZ 10)] =>
      assert (HX : finite X) by auto 15 with jsnum;
      destruct (floor_pos X 10 HX) as (o & Ho & Hpos)
  end.
  rewrite Ho.
  assert (Ho0 : (0 < o)%Q)
    by (eapply Qlt_le_trans; [|exact Hpos]; reflexivity).
  unfold Math_random.
  destruct (simple_close_pos o (Qred (random (n + 1))) Ho0
              (random_bounds random random_range _)) as (c & Hc & Hc0).
  rewrite Hc. split; [|apply finite_Fin].
  apply emitted_ok.
  - exact Ho0.
  - exact Hc0.
  - apply (random_bounds random random_range).
  - discriminate.
  - apply (random_bounds random random_range).
  - split; discriminate.
  - apply simple_volume_nonneg. apply (random_bounds random random_range).
Qed.

Lemma simpleDays_ok (i : nat) :
  forall (p : Q) (n : nat) (rows : list StockData),
    simpleDays random dateDaysAgo i (Fin p) n = Ok rows ->
    Forall ohlcv_ok rows.
Proof.
  induction i as [|j IH]; intros p n rows H; cbn [simpleDays] in H.
  - destruct (simpleDay _ _ _ _ _) as [[[row price] n']|] eqn:E;
      [|discriminate].
    injection H as <-. constructor; [|constructor].
    now apply (simpleDay_ok _ _ _ _ _ _ E).
  - destruct (simpleDay _ _ _ _ _) as [[[row price] n']|] eqn:E;
      [|discriminate].
    destruct (simpleDay_ok _ _ _ _ _ _ E) as [Hrow [p' ->]].
    apply bind_Ok in H as (rest & Hrest & H). injection H as <-.
    constructor; [assumption|]. now apply (IH p' n').
Qed.

Lemma generateMockData_simple_ok (days : nat) (data : list StockData) :
  generateMockData_simple random dateDaysAgo days = Ok data ->
  Forall ohlcv_ok data.
Proof.
  unfold generateMockData_simple, Math_random, ofZ.
  cbn [JS.mul JS.add]. apply simpleDays_ok.
Qed.

End SimpleGeneratorFacts.

Section InteractiveGeneratorFacts.

Variable random : nat -> Q.
Variable dateDaysAgo : nat -> result Z.
Variable sinQ : Q -> Q.

Hypothesis random_range : random_ok random.

Local Open Scope num_scope.

Lemma stockPriceRanges_ok (symbol : string) (config : StockConfig) :
  stockPriceRanges symbol = Own config -> config_ok config.
Proof.
  unfold stockPriceRanges.
  destruct (stockConfigs symbol) as [c| |] eqn:E; try discriminate.
  intros H; injection H as <-.
  apply stockConfigs_ok in E as (b & lo & hi & v & t & -> & Hrest).
  exists b, lo, hi, v, (inject_Z 0). now split.
Qed.

(** The close of InteractiveStockChart's generator stays positive. *)
Lemma interactive_close_pos (o v r2 r3 : Q) :
  (0 < o)%Q -> (0 <= v)%Q -> (v <= 1 # 10)%Q ->
  (0 <= r2 <= 1)%Q -> (0 <= r3 <= 1)%Q ->
  exists c,
    Fin o * (ofZ 1 + (Fin r3 - lit 5 10) * ofZ 2
                     * (Fin v * (lit 5 10 + Fin r2 * lit 5 10)))
    = Fin c /\ (0 < c)%Q.
Proof.
  intros Ho Hv0 Hv1 [Hr2 Hr2'] [Hr3 Hr3'].
  eexists. split; [reflexivity|].
  rewrite !Qred_correct.
  change (inject_Z 1) with 1%Q. change (inject_Z 2) with 2%Q.
  set (A := ((5 # 10) + r2 * (5 # 10))%Q).
  assert (HA : (0 <= A <= 1)%Q) by (subst A; lra).
  assert (HB0 : (0 <= v * A)%Q) by (apply Qmult_le_0_compat; lra).
  assert (HB1 : (v * A <= 1 # 10)%Q).
  { apply Qle_trans with (v * 1)%Q; [|lra].
    rewrite !(Qmult_comm v). apply Qmult_le_compat_r; lra. }
  generalize dependent (v * A)%Q. intros B HB0 HB1.
  assert (H : (0 <= r3 * B)%Q) by now apply Qmult_le_0_compat.
  apply Qmult_lt_0_compat; [assumption|]. lra.
Qed.

(** The volume of InteractiveStockChart's generator is not negative. *)
Lemma interactive_volume_nonneg (o c r : Q) :
  (0 < o)%Q -> (0 <= r)%Q ->
  JS.ge (JS.floor ((ofZ 500000 + Fin r * ofZ 500000)
                   * (ofZ 1 + JS.abs ((Fin c - Fin o) / Fin o) * ofZ 5)))
        (ofZ 0) = true.
Proof.
  intros Ho Hr. cbn [JS.sub].
  rewrite div_Fin by (intros E; rewrite E in Ho; now apply Qlt_irrefl in Ho).
  unfold ofZ. cbn [JS.abs JS.mul JS.add]. apply ge_zero_floor.
  rewrite !Qred_correct.
  assert (0 <= r * inject_Z 500000)%Q
    by (apply Qmult_le_0_compat; [assumption|discriminate]).
  assert (0 <= Qabs ((c - o) / o) * inject_Z 5)%Q
    by (apply Qmult_le_0_compat; [apply Qabs_nonneg|discriminate]).
  change (inject_Z 1) with 1%Q.
  apply Qmult_le_0_compat; [|lra].
  assert (0 <= inject_Z 500000)%Q by discriminate. lra.
Qed.

Lemma interactiveDay_ok (config : StockConfig) (i : nat) (p : Q)
      (n : nat) (row : StockData) (price' : num) (n' : nat) :
  config_ok config ->
  interactiveDay random dateDaysAgo sinQ config i (Fin p) n
  = Ok (row, price', n') ->
  ohlcv_ok row /\ finite price'.
Proof.
  intros (b & lo & hi & v & t & -> & Hb & Hlo & Hv0 & Hv1) H.
  unfold interactiveDay in H. cbv zeta in H.
  cbn [base rangeLow rangeHigh volatility trend] in H.
  destruct (dateDaysAgo i) as [d|]; [|discriminate].
  unfold bind in H. apply Ok_triple_inv in H as (<- & <- & <-).
  match goal with
  | |- context [JS.min (Fin hi) ?X] =>
      assert (HX : finite X) by auto 15 with jsnum;
      destruct (clamp_pos lo hi X HX) as (o & Ho & Hpos)
  end.
  rewrite Ho. assert (Ho0 : (0 < o)%Q) by lra.
  unfold Math_random.
  destruct (interactive_close_pos
              o v (Qred (random (n + 2))) (Qred (random (n + 3)))
              Ho0 Hv0 Hv1 (random_bounds random random_range _)
              (random_bounds random random_range _))
    as (c & Hc & Hc0).
  rewrite Hc. split; [|apply finite_Fin].
  apply emitted_ok.
  - exact Ho0.
  - exact Hc0.
  - apply (random_bounds random random_range).
  - discriminate.
  - apply (random_bounds random random_range).
  - split; discriminate.
  - apply interactive_volume_nonneg; [assumption|].
    apply (random_bounds random random_range).
Qed.

Lemma interactiveDays_ok (config : StockConfig) (i : nat) :
  config_ok config ->
  forall (p : Q) (n : nat) (rows : list StockData),
    interactiveDays random dateDaysAgo sinQ config i (Fin p) n = Ok rows ->
    Forall ohlcv_ok rows.
Proof.
  intros Hcfg. induction i as [|j IH]; intros p n rows H;
    cbn [interactiveDays] in H.
  - destruct (interactiveDay _ _ _ _ _ _ _) as [[[row price] n']|] eqn:E;
      [|discriminate].
    injection H as <-. constructor; [|constructor].
    now apply (interactiveDay_ok _ _ _ _ _ _ _ Hcfg E).
  - destruct (interactiveDay _ _ _ _ _ _ _) as [[[row price] n']|] eqn:E;
      [|discriminate].
    destruct (interactiveDay_ok _ _ _ _ _ _ _ Hcfg E) as [Hrow [p' ->]].
    apply bind_Ok in H as (rest & Hrest & H). injection H as <-.
    constructor; [assumption|]. now apply (IH p' n').
Qed.

Lemma generateMockData_interactive_ok (symbol : string) (days : nat)
      (data : list StockData) :
  generateMockData_interactive random dateDaysAgo sinQ symbol days = Ok data ->
  Forall ohlcv_ok data.
Proof.
  unfold generateMockData_interactive.
  destruct (stockPriceRanges symbol) as [config| |] eqn:E; [|discriminate|].
  - apply stockPriceRanges_ok in E.
    destruct E as (b & lo & hi & v & t & -> & Hrest).
    cbn [base]. unfold Math_random, lit, ofZ. cbn [JS.sub JS.mul JS.add].
    apply interactiveDays_ok. exists b, lo, hi, v, t. now split.
  - unfold defaultConfig at 2. cbn [base].
    unfold Math_random, lit, ofZ. cbn [JS.sub JS.mul JS.add].
    apply interactiveDays_ok. apply defaultConfig_ok.
Qed.

End InteractiveGeneratorFacts.

Lemma sampleRandom_ok : random_ok sampleRandom.
Proof.
  intros n. unfold sampleRandom.
  pose proof (Nat.mod_upper_bound n 10 ltac:(discriminate)) as Hlt.
  assert (H0 : (0 <= inject_Z (Z.of_nat (n mod 10)))%Q)
    by (change 0%Q with (inject_Z 0); rewrite <- Zle_Qle; lia).
  assert (H1 : (inject_Z (Z.of_nat (n mod 10)) < inject_Z 10)%Q)
    by (rewrite <- Zlt_Qlt; lia).
  change (inject_Z 10) with 10%Q in H1.
  split.
  - apply Qle_shift_div_l; [reflexivity|]. lra.
  - apply Qlt_shift_div_r; [reflexivity|]. lra.
Qed.

(** C8. With [Math.random()] in [0, 1), every point that the generator
    of RealStockChart, of InteractiveStockChart or of StockChart emits
    has, on its rounded prices, [high >= max(open, close)] and
    [low <= min(open, close)], and a volume that is not negative.  Each
    generator does emit [days + 1] points when the symbol is not a name
    inherited from [Object.prototype] and the days lie in the range of
    [Date]. *)
Theorem generated_points_enclose_open_and_close
        (random : nat -> Q) (dateDaysAgo : nat -> result Z) (sinQ : Q -> Q)
        (symbol : string) (days : nat) :
  random_ok random ->
  (forall data,
      generateMockData random dateDaysAgo sinQ symbol days = Ok data \/
      generateMockData_interactive random dateDaysAgo sinQ symbol days = Ok data \/
      generateMockData_simple random dateDaysAgo days = Ok data ->
      Forall ohlcv_ok data) /\
  (stockConfigs symbol <> Inherited -> datesInRange dateDaysAgo days ->
   exists real interactive simple,
     generateMockData random dateDaysAgo sinQ symbol days = Ok real /\
     generateMockData_interactive random dateDaysAgo sinQ symbol days
     = Ok interactive /\
     generateMockData_simple random dateDaysAgo days = Ok simple /\
     length real = S days /\ length interactive = S days /\
     length simple = S days).
Proof.
  intros Hr. split.
  - intros data [H|[H|H]].
    + exact (generateMockData_ok random dateDaysAgo sinQ Hr symbol days data H).
    + exact (generateMockData_interactive_ok
               random dateDaysAgo sinQ Hr symbol days data H).
    + exact (generateMockData_simple_ok random dateDaysAgo Hr days data H).
  - intros Hsym Hdates.
    destruct (generateMockData_total random dateDaysAgo sinQ symbol days
                Hsym Hdates) as (real & H1 & L1).
    destruct (generateMockData_interactive_total
                random dateDaysAgo sinQ symbol days Hsym Hdates)
      as (interactive & H2 & L2).
    destruct (generateMockData_simple_total random dateDaysAgo days Hdates)
      as (simple & H3 & L3).
    exists real, interactive, simple. repeat split; assumption.
Qed.

Lemma generated_points_enclose_open_and_close_witness :
  exists data,
    generateMockData sampleRandom sampleClock sampleSin "TMDX" 2 = Ok data /\
    length data = 3%nat /\ Forall ohlcv_ok data.
Proof.
  eexists. split; [vm_compute; reflexivity|]. split; [reflexivity|].
  refine (proj1 (generated_points_enclose_open_and_close
                   sampleRandom sampleClock sampleSin "TMDX" 2
                   sampleRandom_ok) _ (or_introl _)).
  vm_compute. reflexivity.
Defined.

(** ** Agreement of the zoom sizes with binary64

    The zoom handlers multiply an integer window size by 1.1, 0.9, 0.8 or
    1.2 in binary64 and floor the product.  For every size up to 2000 the
    floor of the rounded binary64 product is the floor of the exact
    product, which is what the model above computes; so is the offset of
    the drag scenario. *)

Lemma binary64_zoom_floor_agrees :
  forallb zoomFloorAgrees (map Z.of_nat (seq 0 2001)) = true.
Proof. vm_compute. reflexivity. Qed.

Lemma binary64_drag_scenario_offset :
  b64_floor (b64_mul (b64_ofZ (-80)) (b64_div (b64_ofZ 72) (b64_ofZ 800)))
  = Some (-8).
Proof. vm_compute. reflexivity. Qed.

(** * Further properties of the components *)

(** ** Zooming about the previous window *)

Section ZoomWindows.

Variable len : nat.

Lemma recentre_inside (s e nv : Z) :
  0 <= s -> e <= Z.of_nat len -> 0 <= nv -> nv <= e - s ->
  s <= recentreStart s e nv /\
  recentreEnd (Z.of_nat len) s e nv = recentreStart s e nv + nv /\
  recentreEnd (Z.of_nat len) s e nv <= e.
Proof.
  intros Hs He Hnv Hle. unfold recentreEnd, recentreStart.
  pose proof (Z.div_mod (s + e - nv) 2 ltac:(lia)) as Hd.
  pose proof (Z.mod_pos_bound (s + e - nv) 2 ltac:(lia)) as Hm.
  lia.
Qed.

Lemma recentre_covers (s e nv : Z) :
  0 <= s -> s < e -> e <= Z.of_nat len -> e - s <= nv ->
  recentreStart s e nv <= s /\ e <= recentreEnd (Z.of_nat len) s e nv.
Proof.
  intros Hs Hse He Hle. unfold recentreEnd, recentreStart.
  pose proof (Z.div_mod (s + e - nv) 2 ltac:(lia)) as Hd.
  pose proof (Z.mod_pos_bound (s + e - nv) 2 ltac:(lia)) as Hm.
  lia.
Qed.

Lemma recentre_grows (s e nv : Z) :
  0 <= s -> s < e -> e <= Z.of_nat len -> e - s < nv -> nv <= Z.of_nat len ->
  e - s < recentreEnd (Z.of_nat len) s e nv - recentreStart s e nv.
Proof.
  intros Hs Hse He Hlt Hnv. unfold recentreEnd, recentreStart.
  pose proof (Z.div_mod (s + e - nv) 2 ltac:(lia)) as Hd.
  pose proof (Z.mod_pos_bound (s + e - nv) 2 ltac:(lia)) as Hm.
  lia.
Qed.

End ZoomWindows.

(** X1. The zoom-in button never leaves the window it starts from: on a
    window of at least ten points inside the series the new window lies
    inside the old one and has exactly [max(10, floor(0.8 * size))]
    points; a window of ten points stays as it is. *)
Theorem zoomIn_window_inside_previous
        (len : nat) (st : ChartState) (s e : Z) :
  viewportStart st = ofZ s -> viewportEnd st = ofZ e ->
  0 <= s -> 10 <= e - s -> e <= Z.of_nat len ->
  exists s' e',
    zoomIn len st = setViewport st (ofZ s') (ofZ e') /\
    s <= s' /\ e' <= e /\
    e' - s' = Z.max 10 ((e - s) * 8 / 10) /\
    (e - s = 10 -> s' = s /\ e' = e).
Proof.
  intros Hs He H0 Hsz Hle.
  rewrite (zoomIn_eval len st s e Hs He). cbv zeta.
  set (nv := zoomInSize (e - s)).
  assert (Hnv : 10 <= nv /\ nv <= e - s /\ nv = Z.max 10 ((e - s) * 8 / 10)).
  { subst nv. unfold zoomInSize.
    pose proof (Z.div_mod ((e - s) * 8) 10 ltac:(lia)).
    pose proof (Z.mod_pos_bound ((e - s) * 8) 10 ltac:(lia)). lia. }
  destruct (recentre_inside len s e nv) as (B1 & B2 & B3); try lia.
  exists (recentreStart s e nv), (recentreEnd (Z.of_nat len) s e nv).
  repeat split; try lia;
    unfold recentreStart in *;
    pose proof (Z.div_mod (s + e - nv) 2 ltac:(lia));
    pose proof (Z.mod_pos_bound (s + e - nv) 2 ltac:(lia)); lia.
Qed.

Lemma zoomIn_window_inside_previous_witness :
  exists s' e',
    zoomIn 90 (loadedChartState 90 (ofZ 90))
    = setViewport (loadedChartState 90 (ofZ 90)) (ofZ s') (ofZ e') /\
    0 <= s' /\ e' <= 90 /\
    e' - s' = Z.max 10 ((90 - 0) * 8 / 10) /\
    (90 - 0 = 10 -> s' = 0 /\ e' = 90).
Proof.
  refine (zoomIn_window_inside_previous
            90 (loadedChartState 90 (ofZ 90)) 0 90 eq_refl eq_refl _ _ _).
  - lia.
  - lia.
  - simpl; lia.
Defined.

(** X2. The zoom-out button never loses a point that was visible: on a
    valid window the new window covers the old one, it is strictly larger
    unless the whole series was already visible, and the full view stays
    as it is. *)
Theorem zoomOut_window_covers_previous
        (len : nat) (st : ChartState) (s e : Z) :
  viewportStart st = ofZ s -> viewportEnd st = ofZ e ->
  0 <= s -> 10 <= e - s -> e <= Z.of_nat len ->
  exists s' e',
    zoomOut len st = setViewport st (ofZ s') (ofZ e') /\
    0 <= s' /\ s' <= s /\ e <= e' /\ e' <= Z.of_nat len /\
    (e - s < Z.of_nat len -> e - s < e' - s') /\
    (e - s = Z.of_nat len -> s' = s /\ e' = e).
Proof.
  intros Hs He H0 Hsz Hle.
  rewrite (zoomOut_eval len st s e Hs He). cbv zeta.
  set (nv := zoomOutSize (Z.of_nat len) (e - s)).
  assert (Hnv : e - s <= nv /\ nv <= Z.of_nat len /\
                (e - s < Z.of_nat len -> e - s < nv)).
  { subst nv. unfold zoomOutSize.
    pose proof (Z.div_mod ((e - s) * 12) 10 ltac:(lia)).
    pose proof (Z.mod_pos_bound ((e - s) * 12) 10 ltac:(lia)). lia. }
  destruct (recentre_covers len s e nv) as (B1 & B2); try lia.
  exists (recentreStart s e nv), (recentreEnd (Z.of_nat len) s e nv).
  assert (0 <= recentreStart s e nv) by (unfold recentreStart; lia).
  assert (recentreEnd (Z.of_nat len) s e nv <= Z.of_nat len)
    by (unfold recentreEnd; lia).
  repeat split; try lia.
  intros Hlt. apply recentre_grows; lia.
Qed.

Lemma zoomOut_window_covers_previous_witness :
  exists s' e',
    zoomOut 90 rightEdgeState = setViewport rightEdgeState (ofZ s') (ofZ e') /\
    0 <= s' /\ s' <= 63 /\ 90 <= e' /\ e' <= 90 /\
    (90 - 63 < 90 -> 90 - 63 < e' - s') /\
    (90 - 63 = 90 -> s' = 63 /\ e' = 90).
Proof.
  refine (zoomOut_window_covers_previous
            90 rightEdgeState 63 90 eq_refl eq_refl _ _ _).
  - lia.
  - lia.
  - simpl; lia.
Defined.

Section RepeatedZoom.

Variable len : nat.

Lemma zoomOut_iter (st : ChartState) (s e : Z) (n : nat) :
  viewportStart st = ofZ s -> viewportEnd st = ofZ e ->
  0 <= s -> 10 <= e - s -> e <= Z.of_nat len ->
  exists s' e',
    viewportStart (Nat.iter n (zoomOut len) st) = ofZ s' /\
    viewportEnd (Nat.iter n (zoomOut len) st) = ofZ e' /\
    0 <= s' /\ 10 <= e' - s' /\ e' <= Z.of_nat len /\
    Z.min (Z.of_nat len) (e - s + Z.of_nat n) <= e' - s'.
Proof.
  intros Hs He H0 Hsz Hle. induction n as [|n IH].
  - exists s, e. simpl. repeat split; try assumption; lia.
  - destruct IH as (s1 & e1 & Hs1 & He1 & H01 & Hsz1 & Hle1 & Hgrow).
    change (Nat.iter (S n) (zoomOut len) st)
      with (zoomOut len (Nat.iter n (zoomOut len) st)).
    set (st1 := Nat.iter n (zoomOut len) st) in *.
    rewrite (zoomOut_eval len st1 s1 e1 Hs1 He1). cbv zeta.
    set (nv := zoomOutSize (Z.of_nat len) (e1 - s1)).
    assert (Hnv : e1 - s1 <= nv /\ nv <= Z.of_nat len /\
                  (e1 - s1 < Z.of_nat len -> e1 - s1 < nv)).
    { subst nv. unfold zoomOutSize.
      pose proof (Z.div_mod ((e1 - s1) * 12) 10 ltac:(lia)).
      pose proof (Z.mod_pos_bound ((e1 - s1) * 12) 10 ltac:(lia)). lia. }
    destruct (recentre_covers len s1 e1 nv) as (B1 & B2); try lia.
    assert (0 <= recentreStart s1 e1 nv) by (unfold recentreStart; lia).
    assert (recentreEnd (Z.of_nat len) s1 e1 nv <= Z.of_nat len)
      by (unfold recentreEnd; lia).
    exists (recentreStart s1 e1 nv), (recentreEnd (Z.of_nat len) s1 e1 nv).
    simpl. repeat split; try reflexivity; try lia.
    destruct (Z.eq_dec (e1 - s1) (Z.of_nat len)) as [Heq|Hne]; [lia|].
    pose proof (recentre_grows len s1 e1 nv) as G. lia.
Qed.

Lemma zoomIn_iter (st : ChartState) (s e : Z) (n : nat) :
  viewportStart st = ofZ s -> viewportEnd st = ofZ e ->
  0 <= s -> 10 <= e - s -> e <= Z.of_nat len ->
  exists s' e',
    viewportStart (Nat.iter n (zoomIn len) st) = ofZ s' /\
    viewportEnd (Nat.iter n (zoomIn len) st) = ofZ e' /\
    0 <= s' /\ 10 <= e' - s' /\ e' <= Z.of_nat len /\
    e' - s' <= Z.max 10 (e - s - Z.of_nat n).
Proof.
  intros Hs He H0 Hsz Hle. induction n as [|n IH].
  - exists s, e. simpl. repeat split; try assumption; lia.
  - destruct IH as (s1 & e1 & Hs1 & He1 & H01 & Hsz1 & Hle1 & Hshrink).
    change (Nat.iter (S n) (zoomIn len) st)
      with (zoomIn len (Nat.iter n (zoomIn len) st)).
    set (st1 := Nat.iter n (zoomIn len) st) in *.
    rewrite (zoomIn_eval len st1 s1 e1 Hs1 He1). cbv zeta.
    set (nv := zoomInSize (e1 - s1)).
    assert (Hnv : 10 <= nv /\ nv <= e1 - s1 /\
                  nv <= Z.max 10 (e1 - s1 - 1)).
    { subst nv. unfold zoomInSize.
      pose proof (Z.div_mod ((e1 - s1) * 8) 10 ltac:(lia)).
      pose proof (Z.mod_pos_bound ((e1 - s1) * 8) 10 ltac:(lia)). lia. }
    destruct (recentre_inside len s1 e1 nv) as (B1 & B2 & B3); try lia.
    exists (recentreStart s1 e1 nv), (recentreEnd (Z.of_nat len) s1 e1 nv).
    simpl. repeat split; try reflexivity; lia.
Qed.

End RepeatedZoom.

(** X3. Clicking a zoom button often enough always ends at its limit:
    from any valid window, [len - 10] or more clicks on zoom-out show the
    whole series, and as many clicks on zoom-in leave a window of exactly
    ten points. *)
Theorem repeated_zoom_reaches_limits (len : nat) (st : ChartState) (n : nat) :
  viewport_ok len st ->
  Z.of_nat len - 10 <= Z.of_nat n ->
  (viewportStart (Nat.iter n (zoomOut len) st) = ofZ 0 /\
   viewportEnd (Nat.iter n (zoomOut len) st) = ofNat len) /\
  (exists s,
      viewportStart (Nat.iter n (zoomIn len) st) = ofZ s /\
      viewportEnd (Nat.iter n (zoomIn len) st) = ofZ (s + 10)).
Proof.
  intros (s & e & Hs & He & H0 & Hlt & Hle & Hmin & Hmax) Hn. split.
  - destruct (zoomOut_iter len st s e n Hs He H0 Hmin Hle)
      as (s' & e' & -> & -> & A & B & C & D).
    assert (s' = 0) by lia. assert (e' = Z.of_nat len) by lia.
    subst. split; reflexivity.
  - destruct (zoomIn_iter len st s e n Hs He H0 Hmin Hle)
      as (s' & e' & -> & -> & A & B & C & D).
    exists s'. split; [reflexivity|]. f_equal. lia.
Qed.

Lemma repeated_zoom_reaches_limits_witness :
  viewportStart (Nat.iter 80 (zoomOut 90) rightEdgeState) = ofZ 0 /\
  viewportEnd (Nat.iter 80 (zoomOut 90) rightEdgeState) = ofNat 90.
Proof.
  refine (proj1 (repeated_zoom_reaches_limits 90 rightEdgeState 80 _ _)).
  - exists 63, 90. simpl. repeat split; try reflexivity; lia.
  - simpl; lia.
Defined.

(** X4. The wheel zooms about the window it starts from and touches
    nothing but the window: on a valid window, a turn with [deltaY > 0]
    gives a window that covers the old one, any other turn gives a window
    inside the old one, and the drag flag and the drag anchor are kept.
    At the full view a zoom-out turn, and at ten points a zoom-in turn,
    leaves the state as it is. *)
Theorem handleWheel_zooms_about_window
        (len : nat) (deltaY : num) (st : ChartState) (s e : Z) :
  viewportStart st = ofZ s -> viewportEnd st = ofZ e ->
  0 <= s -> 10 <= e - s -> e <= Z.of_nat len ->
  exists s' e',
    viewportStart (handleWheel len deltaY st) = ofZ s' /\
    viewportEnd (handleWheel len deltaY st) = ofZ e' /\
    (JS.gt deltaY (ofZ 0) = true -> s' <= s /\ e <= e') /\
    (JS.gt deltaY (ofZ 0) = false -> s <= s' /\ e' <= e) /\
    isDragging (handleWheel len deltaY st) = isDragging st /\
    dragStartX (handleWheel len deltaY st) = dragStartX st /\
    (JS.gt deltaY (ofZ 0) = true -> e - s = Z.of_nat len ->
     handleWheel len deltaY st = st) /\
    (JS.gt deltaY (ofZ 0) = false -> e - s = 10 ->
     handleWheel len deltaY st = st).
Proof.
  intros Hs He H0 Hsz Hle.
  rewrite (handleWheel_eval len deltaY st s e Hs He). cbv zeta.
  unfold wheelNumerator, wheelSize.
  destruct (JS.gt deltaY (ofZ 0)).
  - set (nv := Z.min (Z.max 10 (Z.of_nat len)) (Z.max 10 ((e - s) * 11 / 10))).
    assert (Hnv : e - s <= nv /\ (e - s = Z.of_nat len -> nv = e - s)).
    { subst nv.
      pose proof (Z.div_mod ((e - s) * 11) 10 ltac:(lia)).
      pose proof (Z.mod_pos_bound ((e - s) * 11) 10 ltac:(lia)). lia. }
    destruct (Z.eqb_spec nv (e - s)) as [Heq|Hne].
    + exists s, e. repeat split; try assumption; try lia; discriminate.
    + destruct (recentre_covers len s e nv) as (B1 & B2); try lia.
      exists (recentreStart s e nv), (recentreEnd (Z.of_nat len) s e nv).
      simpl. repeat split; try reflexivity; try lia; try discriminate.
  - set (nv := Z.min (Z.max 10 (Z.of_nat len)) (Z.max 10 ((e - s) * 9 / 10))).
    assert (Hnv : 0 <= nv /\ nv <= e - s /\ (e - s = 10 -> nv = e - s)).
    { subst nv.
      pose proof (Z.div_mod ((e - s) * 9) 10 ltac:(lia)).
      pose proof (Z.mod_pos_bound ((e - s) * 9) 10 ltac:(lia)). lia. }
    destruct (Z.eqb_spec nv (e - s)) as [Heq|Hne].
    + exists s, e. repeat split; try assumption; try lia; discriminate.
    + destruct (recentre_inside len s e nv) as (B1 & B2 & B3); try lia.
      exists (recentreStart s e nv), (recentreEnd (Z.of_nat len) s e nv).
      simpl. repeat split; try reflexivity; try lia; try discriminate.
Qed.

Lemma handleWheel_zooms_about_window_witness :
  handleWheel 90 (ofZ 1) (loadedChartState 90 (ofZ 90))
  = loadedChartState 90 (ofZ 90).
Proof.
  destruct (handleWheel_zooms_about_window
              90 (ofZ 1) (loadedChartState 90 (ofZ 90)) 0 90
              eq_refl eq_refl ltac:(lia) ltac:(lia) ltac:(simpl; lia))
    as (s' & e' & _ & _ & _ & _ & _ & _ & Hfull & _).
  apply Hfull; reflexivity.
Defined.

(** ** Dragging: what a pointer move can and cannot do *)

Section DragFacts.

Variable len : nat.

Lemma floor_of_integer (q : Q) (k : Z) : q == inject_Z k -> Qfloor q = k.
Proof. intros H. rewrite (Qfloor_comp _ _ H). apply Qfloor_Z. Qed.

(** The floor of the opposite of a number that is not an integer. *)
Lemma floor_opp_fraction (q : Q) :
  (inject_Z (Qfloor q) < q)%Q -> Qfloor (- q) = - Qfloor q - 1.
Proof.
  intros Hlt.
  pose proof (Qlt_floor q) as Hup.
  assert (Hlo : (inject_Z (- Qfloor q - 1) <= - q)%Q).
  { unfold Z.sub. rewrite inject_Z_plus, !inject_Z_opp.
    rewrite inject_Z_plus in Hup. change (inject_Z 1) with 1%Q in *. lra. }
  assert (Hhi : (- q < inject_Z (- Qfloor q - 1 + 1))%Q).
  { replace (- Qfloor q - 1 + 1) with (- Qfloor q) by lia.
    rewrite inject_Z_opp. lra. }
  pose proof (Qfloor_le (- q)) as F1. pose proof (Qlt_floor (- q)) as F2.
  assert (Qfloor (- q) < - Qfloor q - 1 + 1).
  { rewrite Zlt_Qlt. eapply Qle_lt_trans; [exact F1 | exact Hhi]. }
  assert (- Qfloor q - 1 < Qfloor (- q) + 1).
  { rewrite Zlt_Qlt. eapply Qle_lt_trans; [exact Hlo | exact F2]. }
  lia.
Qed.

(** Rounding to binary64 depends on the value only, and commutes with
    the change of sign. *)
Lemma round64_Qeq (q q' : Q) :
  (q == q')%Q -> JS.round64 (Fin q) = JS.round64 (Fin q').
Proof.
  intros H. unfold JS.round64. cbv zeta. now rewrite (Qred_complete q q' H).
Qed.

Lemma ofFloat_finite_sign (m : positive) (e : Z) :
  JS.ofFloat (S754_finite true m e)
  = opposite (JS.ofFloat (S754_finite false m e)).
Proof.
  unfold JS.ofFloat, opposite. cbv zeta. rewrite <- Qred_opp.
  destruct e as [|pe|pe].
  - reflexivity.
  - f_equal. f_equal. change (Zneg m) with (- Zpos m).
    now rewrite Z.mul_opp_l, inject_Z_opp.
  - reflexivity.
Qed.

Lemma ofFloat_round_sign (mz ez : Z) (lz : location) :
  JS.ofFloat (binary_round_aux 53 1024 true mz ez lz)
  = opposite (JS.ofFloat (binary_round_aux 53 1024 false mz ez lz)).
Proof.
  unfold binary_round_aux.
  destruct (shr_fexp 53 1024 mz ez lz) as [mrs' e'].
  destruct (shr_fexp 53 1024 _ e' loc_Exact) as [mrs'' e''].
  destruct (shr_m mrs'') as [|m|m]; [reflexivity| |reflexivity].
  destruct (e'' <=? 1024 - 53); [apply ofFloat_finite_sign | reflexivity].
Qed.

Lemma opposite_involutive (a : num) : opposite (opposite a) = a.
Proof.
  destruct a as [[n d]| | |]; try reflexivity.
  unfold opposite, Qopp. cbn [Qnum Qden]. now rewrite Z.opp_involutive.
Qed.

Lemma round64_opp (q : Q) :
  JS.round64 (Fin (- q)) = opposite (JS.round64 (Fin q)).
Proof.
  unfold JS.round64. cbv zeta. rewrite Qred_opp.
  destruct (Qred q) as [n d]. destruct n as [|n|n];
    cbn [Qopp Qnum Qden Z.opp]; [reflexivity| |];
    unfold SFdiv;
    destruct (SFdiv_core_binary 53 1024 (Zpos n) 0 (Zpos d) 0)
      as [[mz ez] lz]; cbn [xorb].
  - apply ofFloat_round_sign.
  - rewrite ofFloat_round_sign. now rewrite opposite_involutive.
Qed.

(** A product that rounds to a finite number has finite factors. *)
Lemma round64_mul_Fin (a b : num) (p : Q) :
  JS.round64 (a * b)%num = Fin p -> exists x y, a = Fin x /\ b = Fin y.
Proof.
  destruct a as [x| | |], b as [y| | |]; try (intros; now eauto);
    cbn [JS.mul JS.round64]; unfold JS.signedInf;
    try destruct (JS.qsgn _); discriminate.
Qed.

End DragFacts.

(** X5. A pointer move never resizes the window and never pushes it out
    of the series: on a window inside the series the move either changes
    nothing at all, or it shifts start and end by one non-zero integer,
    keeps both inside [0, len], and takes the pointer position as the
    new anchor.  Without a drag in progress it changes nothing. *)
Theorem handleMouseMove_shifts_or_ignores
        (len : nat) (x : num) (canvas : option Z) (st : ChartState) (s e : Z) :
  viewportStart st = ofZ s -> viewportEnd st = ofZ e ->
  0 <= s -> e <= Z.of_nat len ->
  let st' := handleMouseMove len x canvas st in
  (st' = st \/
   exists k, k <> 0 /\
     viewportStart st' = ofZ (s - k) /\ viewportEnd st' = ofZ (e - k) /\
     0 <= s - k /\ e - k <= Z.of_nat len /\
     dragStartX st' = Some x /\ isDragging st' = true) /\
  (isDragging st = false \/ dragStartX st = None \/ canvas = None -> st' = st).
Proof.
  intros Hs He H0 Hle st'. split.
  - destruct (handleMouseMove_cases len x canvas st s e Hs He H0 Hle)
      as [H | (k & Hk & Hlo & Hhi & H)]; [now left|].
    right. exists k. subst st'. rewrite H. simpl.
    repeat split; try assumption.
    destruct (isDragging st) eqn:Hd; [reflexivity|].
    exfalso. unfold handleMouseMove in H. rewrite Hd in H.
    assert (Hv : viewportStart st = ofZ (s - k)) by (rewrite H; reflexivity).
    rewrite Hs in Hv. unfold ofZ in Hv. injection Hv. lia.
  - subst st'. unfold handleMouseMove.
    intros [-> | [-> | ->]]; [reflexivity | now destruct (isDragging st) |].
    destruct (isDragging st), (dragStartX st); reflexivity.
Qed.

Lemma handleMouseMove_shifts_or_ignores_witness :
  handleMouseMove 90 (ofZ 20) None (draggingState 100) = draggingState 100.
Proof.
  refine (proj2 (handleMouseMove_shifts_or_ignores
                   90 (ofZ 20) None (draggingState 100) 9 81
                   eq_refl eq_refl _ _) _).
  - lia.
  - simpl; lia.
  - right. right. reflexivity.
Defined.

(** X6. Releasing the pointer ends the drag for good: after a mouse up
    (or mouse leave) every later pointer move, whatever the positions and
    the canvas, leaves the chart state as it is. *)
Theorem moves_after_mouse_up_are_ignored
        (len : nat) (st : ChartState) (moves : list (num * option Z)) :
  Forall (fun st' => st' = handleMouseUp st)
         (trace len (map (fun m => MouseMove (fst m) (snd m)) moves)
                (handleMouseUp st)).
Proof.
  induction moves as [|[x canvas] moves IH]; simpl; constructor.
  - reflexivity.
  - exact IH.
Qed.

(** X7. Dragging there and back.  Take a drag inside the series whose
    first move from the anchor [x0] to [x] shifts the window by the
    offset [k], the floor of the binary64 product [p] of the pointer
    delta and the sensitivity.  When [p] is a whole number, moving back to
    [x0] restores the state exactly.  When it is not, the way back is
    floored too, and a window that has room on its right ends one index
    to the right of where it began. *)
Theorem drag_there_and_back
        (len : nat) (st : ChartState) (s e w : Z) (x x0 p : Q) :
  isDragging st = true -> dragStartX st = Some (Fin x0) ->
  viewportStart st = ofZ s -> viewportEnd st = ofZ e ->
  0 <= s -> s < e -> e <= Z.of_nat len ->
  JS.round64 (JS.round64 (Fin x - Fin x0) * dragSensitivity w st)%num
  = Fin p ->
  let k := Qfloor p in
  k <> 0 -> 0 <= s - k -> e - k <= Z.of_nat len ->
  let there := handleMouseMove len (Fin x) (Some w) st in
  let back := handleMouseMove len (Fin x0) (Some w) there in
  there = setViewportDrag st (ofZ (s - k)) (ofZ (e - k)) (Fin x) /\
  ((p == inject_Z k)%Q -> back = st) /\
  ((inject_Z k < p)%Q -> e + 1 <= Z.of_nat len ->
   viewportStart back = ofZ (s + 1) /\ viewportEnd back = ofZ (e + 1)).
Proof.
  intros Hd Hx Hs He H0 Hse Hle Hp k Hk Hlo Hhi there back.
  assert (Hoff : dragOffset (JS.round64 (Fin x - Fin x0)%num) w st = ofZ k).
  { unfold dragOffset. rewrite Hp. reflexivity. }
  assert (Hthere : there = setViewportDrag st (ofZ (s - k)) (ofZ (e - k)) (Fin x)).
  { subst there.
    rewrite (handleMouseMove_eval len (Fin x) (Fin x0) w st s e k)
      by assumption.
    replace (k =? 0) with false by (symmetry; now apply Z.eqb_neq).
    replace (0 <=? s - k) with true by (symmetry; now apply Z.leb_le).
    replace (e - k <=? Z.of_nat len) with true
      by (symmetry; now apply Z.leb_le).
    reflexivity. }
  split; [exact Hthere|].
  assert (Hsens : dragSensitivity w there = dragSensitivity w st).
  { unfold dragSensitivity. rewrite Hthere, Hs, He.
    cbn [setViewportDrag viewportStart viewportEnd]. rewrite !sub_ofZ.
    now replace (e - k - (s - k)) with (e - s) by lia. }
  assert (Hoff' : dragOffset (JS.round64 (Fin x0 - Fin x)%num) w there
                  = ofZ (Qfloor (- p))).
  { unfold dragOffset. rewrite Hsens.
    destruct (round64_mul_Fin _ _ p Hp) as (d & sv & Ed & Es).
    assert (Eback : JS.round64 (Fin x0 - Fin x)%num = Fin (- d)).
    { cbn [JS.sub] in Ed |- *.
      rewrite (round64_Qeq (Qred (x0 - x)) (- Qred (x - x0)))
        by (rewrite !Qred_correct; ring).
      now rewrite round64_opp, Ed. }
    rewrite Eback, Es. rewrite Ed, Es in Hp. cbn [JS.mul] in Hp |- *.
    rewrite (round64_Qeq (Qred (- d * sv)) (- Qred (d * sv)))
      by (rewrite !Qred_correct; ring).
    now rewrite round64_opp, Hp. }
  assert (Hback : forall k',
             Qfloor (- p) = k' ->
             back = if negb (k' =? 0) && (0 <=? s - k - k')
                          && (e - k - k' <=? Z.of_nat len)
                    then setViewportDrag there (ofZ (s - k - k'))
                                         (ofZ (e - k - k')) (Fin x0)
                    else there).
  { intros k' Hk'. subst back.
    apply (handleMouseMove_eval len (Fin x0) (Fin x) w there
                                (s - k) (e - k) k');
      try (rewrite Hthere; reflexivity); try assumption.
    - rewrite Hthere; simpl; exact Hd.
    - now rewrite Hoff', Hk'. }
  split.
  - intros Hint.
    assert (Hk' : Qfloor (- p) = - k).
    { apply floor_of_integer. rewrite Hint, inject_Z_opp. reflexivity. }
    rewrite (Hback (- k) Hk').
    replace (- k =? 0) with false by (symmetry; apply Z.eqb_neq; lia).
    replace (s - k - - k) with s by lia.
    replace (e - k - - k) with e by lia.
    replace (0 <=? s) with true by (symmetry; now apply Z.leb_le).
    replace (e <=? Z.of_nat len) with true by (symmetry; now apply Z.leb_le).
    cbn [negb andb]. rewrite Hthere.
    destruct st; simpl in *. now subst.
  - intros Hfrac Hroom.
    assert (Hk' : Qfloor (- p) = - k - 1) by now apply floor_opp_fraction.
    rewrite (Hback (- k - 1) Hk').
    replace (s - k - (- k - 1)) with (s + 1) by lia.
    replace (e - k - (- k - 1)) with (e + 1) by lia.
    replace (0 <=? s + 1) with true by (symmetry; apply Z.leb_le; lia).
    replace (e + 1 <=? Z.of_nat len) with true
      by (symmetry; now apply Z.leb_le).
    destruct (Z.eqb_spec (- k - 1) 0) as [Hz|Hnz]; cbn [negb andb].
    + rewrite Hthere. simpl. split; f_equal; lia.
    + simpl. split; reflexivity.
Qed.

Lemma drag_there_and_back_witness :
  handleMouseMove 90 (Fin 0) (Some 800) (draggingWindow 9 37 200)
  = setViewportDrag (draggingWindow 9 37 200) (ofZ 17) (ofZ 45) (Fin 0) /\
  viewportStart
    (handleMouseMove 90 (Fin 200) (Some 800)
       (handleMouseMove 90 (Fin 0) (Some 800) (draggingWindow 9 37 200)))
  = ofZ 10 /\
  viewportEnd
    (handleMouseMove 90 (Fin 200) (Some 800)
       (handleMouseMove 90 (Fin 0) (Some 800) (draggingWindow 9 37 200)))
  = ofZ 38.
Proof.
  destruct (drag_there_and_back
              90 (draggingWindow 9 37 200) 9 37 800 0 200
              (- (7881299347898369 # 1125899906842624))
              eq_refl eq_refl eq_refl eq_refl)
    as (Hthere & _ & Hback).
  - lia.
  - lia.
  - simpl; lia.
  - vm_compute. reflexivity.
  - vm_compute. discriminate.
  - vm_compute. discriminate.
  - vm_compute. discriminate.
  - split; [exact Hthere|]. apply Hback.
    + vm_compute. reflexivity.
    + simpl; lia.
Defined.

(** ** The second source *)

Section AlphaFacts.

Lemma truncQ_opp_nat (d : nat) : truncQ (Qred (0 - inject_Z (Z.of_nat d))) = - Z.of_nat d.
Proof.
  assert (E : (Qred (0 - inject_Z (Z.of_nat d)) == inject_Z (- Z.of_nat d))%Q)
    by (rewrite Qred_correct, inject_Z_opp; ring).
  unfold truncQ. destruct (Qle_bool 0 _) eqn:B.
  - apply floor_of_integer. exact E.
  - assert (E' : (- Qred (0 - inject_Z (Z.of_nat d)) == inject_Z (Z.of_nat d))%Q)
      by (rewrite E, inject_Z_opp; ring).
    rewrite (floor_of_integer _ _ E'). reflexivity.
Qed.

(** [slice(-days)] keeps the last [days] elements, and all of them for
    [days = 0]. *)
Lemma sliceFrom_last {A : Type} (days : nat) (l : list A) :
  sliceFrom (ofZ 0 - ofNat days)%num l =
  match days with
  | O => l
  | _ => skipn (length l - days) l
  end.
Proof.
  unfold sliceFrom, ofNat, ofZ. cbn [JS.sub sliceIndex].
  change (inject_Z 0) with 0%Q. rewrite truncQ_opp_nat.
  destruct days as [|d].
  - change (- Z.of_nat 0 <? 0) with false. cbv iota.
    replace (Z.to_nat (Z.min (- Z.of_nat 0) (Z.of_nat (length l))))
      with O by lia.
    reflexivity.
  - replace (- Z.of_nat (S d) <? 0) with true
      by (symmetry; apply Z.ltb_lt; lia).
    f_equal. lia.
Qed.

Lemma alphaRows_rows (entries : list (Z * option AlphaValues))
      (rows : list StockData) :
  alphaRows entries = Some rows ->
  Forall2 (fun entry row => alphaRow entry = Some row) entries rows.
Proof.
  revert rows. induction entries as [|entry rest IH]; intros rows; simpl.
  - intros H; injection H as <-. constructor.
  - destruct (alphaRow entry) as [row|] eqn:Erow; [|discriminate].
    destruct (alphaRows rest) as [rows'|]; [|discriminate].
    intros H; injection H as <-. constructor; [exact Erow | now apply IH].
Qed.

Lemma StronglySorted_skipn {A : Type} (R : A -> A -> Prop) (n : nat)
      (l : list A) :
  StronglySorted R l -> StronglySorted R (skipn n l).
Proof.
  revert l. induction n as [|n IH]; intros l H; [exact H|].
  destruct l as [|x l]; [exact H|]. simpl. apply IH.
  now inversion H.
Qed.

Lemma sortByDate_strongly_sorted (l : list StockData) :
  StronglySorted dateLe (sortByDate l).
Proof.
  apply Sorted_StronglySorted; [|apply sortByDate_sorted].
  intros a b c. unfold dateLe. lia.
Qed.

Lemma sortByDate_length (l : list StockData) :
  length (sortByDate l) = length l.
Proof. symmetry. apply Permutation_length, sortByDate_perm. Qed.

End AlphaFacts.

(** X8. A series returned by fetchAlphaVantageData holds the latest
    [days] entries of the time series, oldest first.  Every entry becomes
    one point that carries its day and its prices rounded to cents, and
    no entry is tested or dropped for its prices; the points, in
    ascending order of their dates, are split into the older ones and the
    series returned.  For [days = 0] the cut [slice(-0)] keeps every
    entry. *)
Theorem fetchAlphaVantageData_keeps_latest_days
        (days : nat) (http : AlphaOutcome) (series : list StockData) :
  fetchAlphaVantageData days http = inr series ->
  exists entries rows older,
    http = AlphaBody false (Some entries) /\
    Forall2 (fun entry row => alphaRow entry = Some row) entries rows /\
    Permutation rows (older ++ series) /\
    StronglySorted dateLe (older ++ series) /\
    length series =
    match days with
    | O => length entries
    | _ => Nat.min days (length entries)
    end.
Proof.
  unfold fetchAlphaVantageData.
  destruct http as [| |[|] [entries|]]; try discriminate.
  destruct (alphaRows entries) as [rows|] eqn:Hrows; [|discriminate].
  rewrite sliceFrom_last.
  intros H. injection H as <-.
  pose proof (sortByDate_strongly_sorted rows) as Hs.
  pose proof (sortByDate_perm rows) as Hp.
  pose proof (alphaRows_rows entries rows Hrows) as Hall.
  pose proof (Forall2_length Hall) as Hl.
  exists entries, rows.
  destruct days as [|d].
  - exists []. cbn [app].
    repeat split; try assumption. now rewrite sortByDate_length.
  - exists (firstn (length (sortByDate rows) - S d) (sortByDate rows)).
    rewrite firstn_skipn.
    repeat split; try assumption.
    rewrite length_skipn, sortByDate_length, <- Hl. lia.
Qed.

Lemma fetchAlphaVantageData_keeps_latest_days_witness :
  fetchAlphaVantageData 2 sampleAlphaBody
  = inr [samplePoint 2; samplePoint 3] /\
  exists entries rows older,
    sampleAlphaBody = AlphaBody false (Some entries) /\
    Forall2 (fun entry row => alphaRow entry = Some row) entries rows /\
    Permutation rows (older ++ [samplePoint 2; samplePoint 3]) /\
    StronglySorted dateLe (older ++ [samplePoint 2; samplePoint 3]) /\
    length [samplePoint 2; samplePoint 3] = Nat.min 2 (length entries).
Proof.
  split; [vm_compute; reflexivity|].
  apply (fetchAlphaVantageData_keeps_latest_days 2 sampleAlphaBody).
  vm_compute. reflexivity.
Defined.

(** ** The loading chain of YahooFinanceChart *)

Section YahooLoadingFacts.

Lemma sortByDate_nonempty (rows : list StockData) :
  rows <> [] -> sortByDate rows <> [].
Proof.
  intros Hne Hnil. apply Hne. apply Permutation_nil.
  rewrite <- Hnil. symmetry. apply sortByDate_perm.
Qed.

Lemma fetchYahooFinanceData_nonempty (http : HttpOutcome)
      (series : list StockData) :
  fetchYahooFinanceData http = Ok series -> series <> [].
Proof.
  intros H. apply fetchYahooFinanceData_sorted in H as (q & tss & rows & _ & Hne & ->).
  now apply sortByDate_nonempty.
Qed.

Lemma loadRealData_nonempty (days : nat) (yahoo : HttpOutcome)
      (alpha : AlphaOutcome) (now : Z) (c : YahooComponent)
      (data : list StockData) :
  data <> [] ->
  fetchYahooFinanceData yahoo = Ok data \/
  ((exists e, fetchYahooFinanceData yahoo = Throw e) /\
   fetchAlphaVantageData days alpha = inr data) ->
  loadRealData days yahoo alpha now c =
  yahooShowing data now
               (setViewportEnd (y_chartState c) (ofNat (length data))).
Proof.
  intros Hne [Hy | [[e Hy] Ha]]; unfold loadRealData; rewrite Hy.
  - destruct data; [easy | reflexivity].
  - rewrite Ha. destruct data; [easy | reflexivity].
Qed.

End YahooLoadingFacts.

(** X9. loadRealData shows the first source that answers: the series
    Yahoo Finance delivers, whatever Alpha Vantage would say, and
    otherwise a non-empty series of Alpha Vantage.  The component then
    holds that series with the loading flag off, no error, the update time
    set and the viewport end at the length of the series, and it renders
    the chart. *)
Theorem loadRealData_shows_first_answering_source
        (days : nat) (yahoo : HttpOutcome) (alpha : AlphaOutcome) (now : Z)
        (c : YahooComponent) (data : list StockData) :
  fetchYahooFinanceData yahoo = Ok data \/
  ((exists e, fetchYahooFinanceData yahoo = Throw e) /\
   fetchAlphaVantageData days alpha = inr data /\ data <> []) ->
  loadRealData days yahoo alpha now c =
  yahooShowing data now
               (setViewportEnd (y_chartState c) (ofNat (length data))) /\
  render_yahoo (loadRealData days yahoo alpha now c) = YahooChart.
Proof.
  intros H.
  assert (E : loadRealData days yahoo alpha now c =
              yahooShowing data now
                (setViewportEnd (y_chartState c) (ofNat (length data)))).
  { destruct H as [Hy | (He & Ha & Hne)].
    - apply loadRealData_nonempty; [|now left].
      now apply (fetchYahooFinanceData_nonempty yahoo).
    - apply loadRealData_nonempty; [exact Hne | now right]. }
  split; [exact E|]. rewrite E. reflexivity.
Qed.

Lemma loadRealData_shows_first_answering_source_witness :
  loadRealData 2 FetchRejected sampleAlphaBody 7
               (yahooShowing [] 0 (initialChartState (ofZ 2)))
  = yahooShowing [samplePoint 2; samplePoint 3] 7
                 (setViewportEnd (initialChartState (ofZ 2)) (ofZ 2)) /\
  render_yahoo (loadRealData 2 FetchRejected sampleAlphaBody 7
                  (yahooShowing [] 0 (initialChartState (ofZ 2))))
  = YahooChart.
Proof.
  apply (loadRealData_shows_first_answering_source
           2 FetchRejected sampleAlphaBody 7
           (yahooShowing [] 0 (initialChartState (ofZ 2)))
           [samplePoint 2; samplePoint 3]).
  right. split; [exists Rejected; reflexivity|].
  split; [vm_compute; reflexivity | discriminate].
Defined.

(** X10. When Yahoo Finance fails and Alpha Vantage fails or delivers no
    entry, loadRealData leaves the series, the viewport and the update
    time as they were and turns the loading flag off.  The error is one of
    two fixed texts, never the cause: the one for unreachable sources when
    Alpha Vantage failed, the one for missing data when its time series is
    empty.  The component then renders the error panel, also over a series
    it still holds. *)
Theorem loadRealData_reports_exhausted_sources
        (days : nat) (yahoo : HttpOutcome) (alpha : AlphaOutcome) (now : Z)
        (c : YahooComponent) (e : Exn) :
  fetchYahooFinanceData yahoo = Throw e ->
  (forall data, fetchAlphaVantageData days alpha = inr data -> data = []) ->
  let text :=
    match fetchAlphaVantageData days alpha with
    | inl _ => AllSourcesFailed
    | inr _ => NoStockDataAtAll
    end in
  loadRealData days yahoo alpha now c =
  mkYahooComponent (y_stockData c) false (Some text) (y_lastUpdate c)
                   (y_chartState c) /\
  render_yahoo (loadRealData days yahoo alpha now c) = YahooErrorPanel text.
Proof.
  intros Hy Ha text.
  assert (E : loadRealData days yahoo alpha now c =
              mkYahooComponent (y_stockData c) false (Some text)
                               (y_lastUpdate c) (y_chartState c)).
  { unfold loadRealData, text. rewrite Hy.
    destruct (fetchAlphaVantageData days alpha) as [ex|data]; [reflexivity|].
    rewrite (Ha data eq_refl). reflexivity. }
  split; [exact E|]. rewrite E. reflexivity.
Qed.

Lemma loadRealData_reports_exhausted_sources_witness :
  render_yahoo
    (loadRealData 2 FetchRejected (AlphaBody false (Some [])) 7
                  (yahooShowing [samplePoint 1] 0 (initialChartState (ofZ 1))))
  = YahooErrorPanel NoStockDataAtAll.
Proof.
  apply (loadRealData_reports_exhausted_sources
           2 FetchRejected (AlphaBody false (Some [])) 7
           (yahooShowing [samplePoint 1] 0 (initialChartState (ofZ 1)))
           Rejected).
  - reflexivity.
  - intros data H. vm_compute in H. injection H as <-. reflexivity.
Defined.

(** X11. refreshData asks Yahoo Finance only.  When it answers, a refresh
    after any earlier load leaves the component as a first load with that
    answer would have left it; when it fails, the series and the viewport
    of the earlier load stay and the error panel with the cause is
    rendered in place of the chart. *)
Theorem refreshData_after_load
        (days : nat) (yahoo : HttpOutcome) (alpha : AlphaOutcome) (now : Z)
        (c : YahooComponent) (yahoo' : HttpOutcome) (now' : Z) :
  let loaded := loadRealData days yahoo alpha now c in
  match fetchYahooFinanceData yahoo' with
  | Ok data =>
      refreshData yahoo' now' loaded = loadRealData days yahoo' alpha now' c
  | Throw e =>
      y_stockData (refreshData yahoo' now' loaded) = y_stockData loaded /\
      y_chartState (refreshData yahoo' now' loaded) = y_chartState loaded /\
      render_yahoo (refreshData yahoo' now' loaded)
      = YahooErrorPanel (RefreshFailed e)
  end.
Proof.
  intros loaded.
  destruct (fetchYahooFinanceData yahoo') as [data|e] eqn:Hy'.
  - pose proof (fetchYahooFinanceData_nonempty yahoo' data Hy') as Hne.
    rewrite (loadRealData_nonempty days yahoo' alpha now' c data Hne)
      by now left.
    unfold refreshData. rewrite Hy'.
    assert (Hst : y_chartState loaded = y_chartState c \/
                  exists n, y_chartState loaded
                            = setViewportEnd (y_chartState c) n).
    { unfold loaded, loadRealData.
      destruct (fetchYahooFinanceData yahoo) as [d|ex].
      - destruct d; [now left | right; eexists; reflexivity].
      - destruct (fetchAlphaVantageData days alpha) as [ex'|d];
          [now left|].
        destruct d; [now left | right; eexists; reflexivity]. }
    unfold yahooFinish, yahooLoaded, yahooStart, yahooShowing.
    cbn [y_stockData y_loading y_error y_lastUpdate y_chartState].
    destruct Hst as [-> | [n ->]]; reflexivity.
  - unfold refreshData. rewrite Hy'. repeat split.
Qed.

(** ** Reloading RealStockChart *)

Section ReloadFacts.

Variable random : nat -> Q.
Variable dateDaysAgo : nat -> result Z.
Variable sinQ : Q -> Q.

Lemma truncQ_inject_Z (z : Z) : truncQ (inject_Z z) = z.
Proof.
  unfold truncQ. destruct (Qle_bool 0 (inject_Z z)).
  - apply Qfloor_Z.
  - rewrite <- inject_Z_opp, Qfloor_Z. lia.
Qed.

Lemma sliceIndex_ofZ (n z : Z) :
  0 <= z -> sliceIndex n (ofZ z) = Z.min z n.
Proof.
  intros Hz. unfold ofZ; cbn [sliceIndex]. cbv zeta.
  rewrite truncQ_inject_Z.
  destruct (Z.ltb_spec z 0); [lia | reflexivity].
Qed.

Lemma sliceIndex_ofNat (n : Z) (k : nat) :
  sliceIndex n (ofNat k) = Z.min (Z.of_nat k) n.
Proof. apply sliceIndex_ofZ. lia. Qed.

(** A window that starts at or after the end of the series is empty. *)
Lemma slice_beyond_end {A : Type} (s : Z) (to : num) (l : list A) :
  Z.of_nat (length l) <= s -> slice (ofZ s) to l = [].
Proof.
  intros Hs. unfold slice. cbv zeta.
  rewrite sliceIndex_ofZ by lia.
  replace (Z.to_nat (Z.min s (Z.of_nat (length l)))) with (length l) by lia.
  now rewrite skipn_all, firstn_nil.
Qed.

(** The window from 0 to the length is the whole series. *)
Lemma slice_whole {A : Type} (l : list A) :
  slice (ofZ 0) (ofNat (length l)) l = l.
Proof.
  unfold slice. cbv zeta.
  rewrite sliceIndex_ofZ, sliceIndex_ofNat by lia.
  replace (Z.to_nat (Z.min 0 (Z.of_nat (length l)))) with O by lia.
  replace (Z.to_nat (Z.min (Z.of_nat (length l)) (Z.of_nat (length l))
                     - Z.min 0 (Z.of_nat (length l))))
    with (length l) by lia.
  cbn [skipn]. apply firstn_all.
Qed.

(** No path of [loadData] writes [viewportStart]. *)
Lemma loadData_keeps_viewportStart (useRealData : bool) (http : HttpOutcome)
      (symbol : string) (days : nat) (c c' : Component) :
  loadData random dateDaysAgo sinQ useRealData http symbol days c = Ok c' ->
  viewportStart (chartState c') = viewportStart (chartState c).
Proof.
  unfold loadData, loadData_try. intros H. injection H as <-.
  destruct useRealData.
  - destruct (fetchRealStockData http) as [data|ex]; [reflexivity|].
    destruct (generateMockData random dateDaysAgo sinQ symbol days);
      reflexivity.
  - destruct (generateMockData random dateDaysAgo sinQ symbol days);
      reflexivity.
Qed.

End ReloadFacts.

(** X12. loadData never moves the start of the viewport.  When a load
    leaves a series that ends at or before the start the viewport had,
    drawChart returns before drawing anything, although the series may
    hold points; after resetView every non-empty series is drawn
    again. *)
Theorem reload_with_shorter_series_draws_nothing
        (random : nat -> Q) (dateDaysAgo : nat -> result Z) (sinQ : Q -> Q)
        (useRealData : bool) (http : HttpOutcome) (symbol : string)
        (days : nat) (c c' : Component) (s canvasWidth canvasHeight : Z) :
  loadData random dateDaysAgo sinQ useRealData http symbol days c = Ok c' ->
  viewportStart (chartState c) = ofZ s ->
  Z.of_nat (length (stockData c')) <= s ->
  viewportStart (chartState c') = ofZ s /\
  drawChart canvasWidth canvasHeight (stockData c') (chartState c') = None /\
  (stockData c' <> [] ->
   drawChart canvasWidth canvasHeight (stockData c')
             (resetView (length (stockData c')) (chartState c'))
   = Some (drawVisible canvasWidth canvasHeight (stockData c'))).
Proof.
  intros Hload Hs Hlen.
  pose proof (loadData_keeps_viewportStart
                random dateDaysAgo sinQ _ _ _ _ _ _ Hload) as Hkeep.
  rewrite Hs in Hkeep. split; [exact Hkeep|]. split.
  - unfold drawChart. rewrite Hkeep, slice_beyond_end by exact Hlen.
    now destruct (stockData c').
  - intros Hne. unfold drawChart, resetView, setViewport.
    cbn [viewportStart viewportEnd]. rewrite slice_whole.
    now destruct (stockData c').
Qed.

Lemma reload_with_shorter_series_draws_nothing_witness :
  exists c',
    loadData sampleRandom sampleClock sampleSin true
             (Response true (Ok (Some sameDayRows))) "AAPL" 90
             (mkComponent [] false None mock
                          (setViewport (initialChartState (ofZ 90))
                                       (ofZ 80) (ofZ 90)))
    = Ok c' /\
    length (stockData c') = 2%nat /\
    drawChart 800 500 (stockData c') (chartState c') = None.
Proof.
  eexists. split; [vm_compute; reflexivity|]. split; [reflexivity|].
  refine (proj1 (proj2 (reload_with_shorter_series_draws_nothing
            sampleRandom sampleClock sampleSin true
            (Response true (Ok (Some sameDayRows))) "AAPL" 90
            (mkComponent [] false None mock
                         (setViewport (initialChartState (ofZ 90))
                                      (ofZ 80) (ofZ 90)))
            _ 80 800 500 _ _ _))).
  - vm_compute. reflexivity.
  - reflexivity.
  - vm_compute. discriminate.
Defined.

(** ** Candles inside the frame *)

Section FrameFacts.

Local Open Scope num_scope.

Lemma lt_Fin (a b : Q) : JS.lt (Fin a) (Fin b) = true <-> (a < b)%Q.
Proof.
  simpl. rewrite Qlt_alt. destruct (a ?= b)%Q; split; congruence.
Qed.

Lemma fold_max_Fin (l : list num) :
  Forall finite l ->
  forall a : Q,
  exists M,
    fold_left JS.max l (Fin a) = Fin M /\ (a <= M)%Q /\
    Forall (fun v => exists q, v = Fin q /\ (q <= M)%Q) l /\
    (M = a \/ In (Fin M) l).
Proof.
  induction 1 as [|x l [q ->] _ IH]; intros a.
  - exists a. repeat split; [apply Qle_refl | constructor | now left].
  - cbn [fold_left].
    destruct (max_Fin_cases a q) as [[-> Hle]|[-> Hlt]].
    + destruct (IH a) as (M & E & HaM & Hall & Hin). exists M.
      repeat split; try assumption.
      * constructor; [|assumption]. exists q. split; [reflexivity|lra].
      * destruct Hin as [->|Hin]; [now left | right; now right].
    + destruct (IH q) as (M & E & HqM & Hall & Hin). exists M.
      repeat split; try assumption; [lra| |].
      * constructor; [|assumption]. exists q. now split.
      * right. destruct Hin as [->|Hin]; [now left | now right].
Qed.

Lemma fold_min_Fin (l : list num) :
  Forall finite l ->
  forall a : Q,
  exists m,
    fold_left JS.min l (Fin a) = Fin m /\ (m <= a)%Q /\
    Forall (fun v => exists q, v = Fin q /\ (m <= q)%Q) l /\
    (m = a \/ In (Fin m) l).
Proof.
  induction 1 as [|x l [q ->] _ IH]; intros a.
  - exists a. repeat split; [apply Qle_refl | constructor | now left].
  - cbn [fold_left].
    destruct (min_Fin_cases a q) as [[-> Hle]|[-> Hlt]].
    + destruct (IH a) as (m & E & HaM & Hall & Hin). exists m.
      repeat split; try assumption.
      * constructor; [|assumption]. exists q. split; [reflexivity|lra].
      * destruct Hin as [->|Hin]; [now left | right; now right].
    + destruct (IH q) as (m & E & HqM & Hall & Hin). exists m.
      repeat split; try assumption; [lra| |].
      * constructor; [|assumption]. exists q. now split.
      * right. destruct Hin as [->|Hin]; [now left | now right].
Qed.

Lemma maxOf_Fin (l : list num) :
  l <> [] -> Forall finite l ->
  exists M,
    maxOf l = Fin M /\ In (Fin M) l /\
    Forall (fun v => exists q, v = Fin q /\ (q <= M)%Q) l.
Proof.
  intros Hne Hfin. destruct Hfin as [|x l [q ->] Hfin]; [easy|].
  unfold maxOf. cbn [fold_left].
  change (JS.max NInf (Fin q)) with (Fin q).
  destruct (fold_max_Fin l Hfin q) as (M & E & HqM & Hall & Hin).
  exists M. repeat split; [exact E| |].
  - destruct Hin as [->|Hin]; [now left | now right].
  - constructor; [|assumption]. exists q. now split.
Qed.

Lemma minOf_Fin (l : list num) :
  l <> [] -> Forall finite l ->
  exists m,
    minOf l = Fin m /\ In (Fin m) l /\
    Forall (fun v => exists q, v = Fin q /\ (m <= q)%Q) l.
Proof.
  intros Hne Hfin. destruct Hfin as [|x l [q ->] Hfin]; [easy|].
  unfold minOf. cbn [fold_left].
  change (JS.min PInf (Fin q)) with (Fin q).
  destruct (fold_min_Fin l Hfin q) as (m & E & HqM & Hall & Hin).
  exists m. repeat split; [exact E| |].
  - destruct Hin as [->|Hin]; [now left | now right].
  - constructor; [|assumption]. exists q. now split.
Qed.

Lemma ohlcv_enclosed (d : StockData) (h l m M : Q) :
  ohlcv_ok d -> high d = Fin h -> low d = Fin l ->
  (m <= l)%Q -> (h <= M)%Q -> enclosed m M d.
Proof.
  intros (Hhi & Hlo & _) Hh Hl Hm HM. unfold JS.ge in Hhi.
  rewrite Hh in Hhi. rewrite Hl in Hlo.
  destruct (open d) as [o| | |] eqn:Eo; destruct (close d) as [c| | |] eqn:Ec;
    try (exfalso; cbn in Hhi, Hlo; discriminate).
  exists o, h, l, c.
  destruct (max_Fin_cases o c) as [[E1 H1]|[E1 H1]]; rewrite E1 in Hhi;
    destruct (min_Fin_cases o c) as [[E2 H2]|[E2 H2]]; rewrite E2 in Hlo;
    apply le_Fin in Hhi; apply le_Fin in Hlo;
    repeat split; try assumption; try reflexivity; lra.
Qed.

Lemma prices_finite (items : list StockData) :
  Forall (fun d => finite (high d) /\ finite (low d)) items ->
  Forall finite (flat_map (fun d => [high d; low d]) items).
Proof.
  induction 1 as [|d items [Hh Hl] _ IH]; cbn [flat_map app];
    repeat constructor; assumption.
Qed.

Lemma prices_bounds (P : num -> Prop) (items : list StockData) :
  Forall P (flat_map (fun d => [high d; low d]) items) ->
  Forall (fun d => P (high d) /\ P (low d)) items.
Proof.
  induction items as [|d items IH]; cbn [flat_map app]; intros H.
  - constructor.
  - inversion H as [|? ? Hh H']; subst. inversion H' as [|? ? Hl H'']; subst.
    constructor; [now split | now apply IH].
Qed.

Lemma prices_In (v : num) (items : list StockData) :
  In v (flat_map (fun d => [high d; low d]) items) ->
  exists d, In d items /\ (high d = v \/ low d = v).
Proof.
  intros H. apply in_flat_map in H as (d & Hd & [E|[E|[]]]);
    exists d; auto.
Qed.

(** The price range of finite, ordered points with a spread. *)
Lemma price_range (items : list StockData) :
  Forall ohlcv_ok items -> priceSpread items ->
  exists m M,
    minOf (flat_map (fun d => [high d; low d]) items) = Fin m /\
    maxOf (flat_map (fun d => [high d; low d]) items) = Fin M /\
    (m < M)%Q /\ Forall (enclosed m M) items /\
    (exists d h, In d items /\ high d = Fin h /\ (h == M)%Q) /\
    (exists d l, In d items /\ low d = Fin l /\ (l == m)%Q).
Proof.
  intros Hok (Hfin & d1 & d2 & Hd1 & Hd2 & Hlt).
  assert (Hne : flat_map (fun d => [high d; low d]) items <> []).
  { destruct items; [easy | discriminate]. }
  pose proof (prices_finite items Hfin) as Hpf.
  destruct (minOf_Fin _ Hne Hpf) as (m & Em & Hinm & Hallm).
  destruct (maxOf_Fin _ Hne Hpf) as (M & EM & HinM & HallM).
  apply prices_bounds in Hallm, HallM.
  rewrite Forall_forall in Hallm, HallM, Hok.
  assert (Henc : forall d, In d items -> enclosed m M d).
  { intros d Hd.
    destruct (Hallm d Hd) as [(h' & Hh' & Hmh) (l & Hl & Hml)].
    destruct (HallM d Hd) as [(h & Hh & HhM) (l' & Hl' & HlM)].
    apply (ohlcv_enclosed d h l); auto. }
  exists m, M. split; [exact Em|]. split; [exact EM|].
  split; [|split; [|split]].
  - destruct (Henc d1 Hd1) as (o1 & h1 & l1 & c1 & _ & _ & El1 & _ & B1).
    destruct (Henc d2 Hd2) as (o2 & h2 & l2 & c2 & _ & Eh2 & _ & _ & B2).
    rewrite El1, Eh2 in Hlt. apply lt_Fin in Hlt. lra.
  - apply Forall_forall. exact Henc.
  - apply prices_In in HinM as (d & Hd & HM).
    destruct (Henc d Hd) as (o & h & l & c & _ & Eh & El & _ & B).
    exists d, h. split; [exact Hd|]. split; [exact Eh|].
    destruct HM as [HM|HM].
    + rewrite Eh in HM. injection HM as ->. reflexivity.
    + rewrite El in HM. injection HM as ->. lra.
  - apply prices_In in Hinm as (d & Hd & Hm).
    destruct (Henc d Hd) as (o & h & l & c & _ & Eh & El & _ & B).
    exists d, l. split; [exact Hd|]. split; [exact El|].
    destruct Hm as [Hm|Hm].
    + rewrite Eh in Hm. injection Hm as ->. lra.
    + rewrite El in Hm. injection Hm as ->. reflexivity.
Qed.

Lemma scale_bounds (Hq M m p : Q) :
  (0 < Hq)%Q -> (m < M)%Q -> (m <= p)%Q -> (p <= M)%Q ->
  (0 <= (M - p) * (Hq / (M - m)) <= Hq)%Q.
Proof.
  intros HH HmM Hmp HpM.
  assert (Hsc : (0 < Hq / (M - m))%Q) by (apply Qlt_shift_div_l; lra).
  split.
  - apply Qmult_le_0_compat; lra.
  - apply Qle_trans with ((M - m) * (Hq / (M - m)))%Q.
    + apply Qmult_le_compat_r; lra.
    + assert (E : ((M - m) * (Hq / (M - m)) == Hq)%Q)
        by (field; intros E; lra).
      rewrite E. apply Qle_refl.
Qed.

Lemma scale_mono (Hq M m p p' : Q) :
  (0 < Hq)%Q -> (m < M)%Q -> (p <= p')%Q ->
  ((M - p') * (Hq / (M - m)) <= (M - p) * (Hq / (M - m)))%Q.
Proof.
  intros HH HmM Hp.
  assert (Hsc : (0 < Hq / (M - m))%Q) by (apply Qlt_shift_div_l; lra).
  apply Qmult_le_compat_r; lra.
Qed.

Lemma yOf_eval (M sc p : Q) :
  padding + (Fin M - Fin p) * Fin sc = Fin (yOf M sc p).
Proof. reflexivity. Qed.

Lemma yOf_correct (Hq M m p : Q) :
  (yOf M (Qred (Hq / Qred (M - m))) p == 60 + (M - p) * (Hq / (M - m)))%Q.
Proof. unfold yOf. rewrite !Qred_correct. reflexivity. Qed.

Lemma priceScale_Fin (Hq M m : Q) :
  (m < M)%Q ->
  Fin Hq / (Fin M - Fin m) = Fin (Qred (Hq / Qred (M - m))).
Proof.
  intros HmM. cbn [JS.sub]. apply div_Fin.
  rewrite Qred_correct. intros E. lra.
Qed.

Lemma body_height_cases (yo yc : Q) :
  exists bh,
    (if JS.lt (JS.abs (Fin yc - Fin yo)) (ofZ 1) then ofZ 1
     else JS.abs (Fin yc - Fin yo)) = Fin bh /\
    (1 <= bh)%Q /\
    ((bh == 1)%Q \/ (bh == Qabs (yc - yo))%Q).
Proof.
  cbn [JS.sub JS.abs]. set (B := Qred (Qabs (Qred (yc - yo)))).
  destruct (JS.lt (Fin B) (ofZ 1)) eqn:E.
  - exists (inject_Z 1). split; [reflexivity|].
    split; [apply Qle_refl | left; reflexivity].
  - exists B. split; [reflexivity|]. split.
    + apply Qnot_lt_le. intros Hlt.
      apply (proj2 (lt_Fin B (inject_Z 1))) in Hlt. unfold ofZ in E.
      congruence.
    + right. subst B. rewrite Qred_correct.
      apply Qabs_wd. apply Qred_correct.
Qed.

Lemma candle_inside (chartWidth candleWidth : num) (Hq M m : Q)
      (count : nat) (item : StockData) (index : nat) :
  (0 < Hq)%Q -> (m < M)%Q -> enclosed m M item ->
  exists yh yl yb bh,
    let cd := candle chartWidth (Fin M) (Fin Hq / (Fin M - Fin m))
                     candleWidth count item index in
    c_highY cd = Fin yh /\ c_lowY cd = Fin yl /\
    c_bodyY cd = Fin yb /\ c_bodyHeight cd = Fin bh /\
    (60 <= yh)%Q /\ (yh <= yb)%Q /\ (yb <= yl)%Q /\ (yl <= 60 + Hq)%Q /\
    (1 <= bh)%Q /\ (yb + bh <= yl + 1)%Q /\
    (yh == 60 + (M - (match high item with Fin h => h | _ => 0 end))
                * (Hq / (M - m)))%Q /\
    (yl == 60 + (M - (match low item with Fin l => l | _ => 0 end))
                * (Hq / (M - m)))%Q.
Proof.
  intros HH HmM (o & h & l & c & Eo & Eh & El & Ec & B).
  rewrite (priceScale_Fin Hq M m HmM).
  set (sc := Qred (Hq / Qred (M - m))).
  unfold candle. cbv zeta. rewrite Eo, Eh, El, Ec.
  cbn [c_highY c_lowY c_bodyY c_bodyHeight]. rewrite !yOf_eval.
  fold sc.
  pose proof (yOf_correct Hq M m o) as Vo. fold sc in Vo.
  pose proof (yOf_correct Hq M m h) as Vh. fold sc in Vh.
  pose proof (yOf_correct Hq M m l) as Vl. fold sc in Vl.
  pose proof (yOf_correct Hq M m c) as Vc. fold sc in Vc.
  assert (Hb1 := scale_bounds Hq M m h HH HmM ltac:(lra) ltac:(lra)).
  assert (Hb2 := scale_bounds Hq M m l HH HmM ltac:(lra) ltac:(lra)).
  assert (Hm1 := scale_mono Hq M m o h HH HmM ltac:(lra)).
  assert (Hm2 := scale_mono Hq M m c h HH HmM ltac:(lra)).
  assert (Hm3 := scale_mono Hq M m l o HH HmM ltac:(lra)).
  assert (Hm4 := scale_mono Hq M m l c HH HmM ltac:(lra)).
  generalize dependent (yOf M sc o). intros yo Vo.
  generalize dependent (yOf M sc h). intros yh Vh.
  generalize dependent (yOf M sc l). intros yl Vl.
  generalize dependent (yOf M sc c). intros yc Vc.
  destruct (body_height_cases yo yc) as (bh & Ebh & Hbh1 & Hbh).
  rewrite Ebh.
  destruct (min_Fin_cases yo yc) as [[-> Hle]|[-> Hlt]].
  - assert (Habs : (Qabs (yc - yo) == yc - yo)%Q)
      by (apply Qabs_pos; lra).
    rewrite Habs in Hbh.
    exists yh, yl, yo, bh.
    repeat split; try reflexivity; try assumption; lra.
  - assert (Habs : (Qabs (yc - yo) == - (yc - yo))%Q)
      by (apply Qabs_neg; lra).
    rewrite Habs in Hbh.
    exists yh, yl, yc, bh.
    repeat split; try reflexivity; try assumption; lra.
Qed.

Lemma candles_inside (chartWidth candleWidth : num) (Hq M m : Q)
      (count : nat) (items : list StockData) (P : Candle -> Prop) :
  (0 < Hq)%Q -> (m < M)%Q -> Forall (enclosed m M) items ->
  (forall yh yl yb bh cd,
      c_highY cd = Fin yh -> c_lowY cd = Fin yl ->
      c_bodyY cd = Fin yb -> c_bodyHeight cd = Fin bh ->
      (60 <= yh)%Q -> (yh <= yb)%Q -> (yb <= yl)%Q -> (yl <= 60 + Hq)%Q ->
      (1 <= bh)%Q -> (yb + bh <= yl + 1)%Q -> P cd) ->
  forall index,
    Forall P (candles chartWidth (Fin M) (Fin Hq / (Fin M - Fin m))
                      candleWidth count items index).
Proof.
  intros HH HmM Henc HP.
  induction Henc as [|d items Hd _ IH]; intros index; cbn [candles];
    constructor; [|apply IH].
  destruct (candle_inside chartWidth candleWidth Hq M m count d index
              HH HmM Hd)
    as (yh & yl & yb & bh & E1 & E2 & E3 & E4 & B1 & B2 & B3 & B4 & B5 & B6 & _).
  now apply (HP yh yl yb bh).
Qed.

Lemma candles_length (chartWidth maxPrice priceScale candleWidth : num)
      (count : nat) (items : list StockData) (index : nat) :
  length (candles chartWidth maxPrice priceScale candleWidth count items index)
  = length items.
Proof.
  revert index. induction items as [|d items IH]; intros index;
    cbn [candles length]; [reflexivity | now rewrite IH].
Qed.

Lemma candles_In (chartWidth maxPrice priceScale candleWidth : num)
      (count : nat) (items : list StockData) (d : StockData) :
  In d items ->
  forall index,
  exists k,
    In (candle chartWidth maxPrice priceScale candleWidth count d k)
       (candles chartWidth maxPrice priceScale candleWidth count items index).
Proof.
  induction items as [|x items IH]; intros Hin index; [easy|].
  destruct Hin as [->|Hin]; cbn [candles].
  - exists index. now left.
  - destruct (IH Hin (S index)) as [k Hk]. exists k. now right.
Qed.

Lemma chartHeight_Fin (canvasHeight : Z) :
  exists Hq,
    ofZ canvasHeight - padding * ofZ 2 = Fin Hq /\
    (Hq == inject_Z canvasHeight - 120)%Q.
Proof.
  eexists. split; [reflexivity|]. rewrite !Qred_correct. reflexivity.
Qed.

Lemma candle_wick (chartWidth candleWidth : num) (Hq M m h l : Q)
      (count : nat) (item : StockData) (index : nat) :
  (m < M)%Q -> high item = Fin h -> low item = Fin l ->
  let cd := candle chartWidth (Fin M) (Fin Hq / (Fin M - Fin m))
                   candleWidth count item index in
  c_highY cd = Fin (yOf M (Qred (Hq / Qred (M - m))) h) /\
  c_lowY cd = Fin (yOf M (Qred (Hq / Qred (M - m))) l).
Proof.
  intros HmM Eh El. rewrite (priceScale_Fin Hq M m HmM).
  unfold candle. cbv zeta. cbn [c_highY c_lowY]. rewrite Eh, El.
  split; reflexivity.
Qed.

Lemma Fin_Qred_eq (a b : Q) : (a == b)%Q -> Fin (Qred a) = Fin (Qred b).
Proof. intros E. f_equal. now apply Qred_complete. Qed.

End FrameFacts.

Lemma quotedPrices_spread (items : list StockData) :
  quotedPrices items -> priceSpread items.
Proof.
  intros [Hall (d1 & d2 & Hd1 & Hd2 & Hle)]. split.
  - apply Forall_forall. intros d Hd. rewrite Forall_forall in Hall.
    destruct (Hall d Hd) as (Hh & Hl & _). now split.
  - exists d1, d2. split; [exact Hd1|]. split; [exact Hd2|].
    rewrite Forall_forall in Hall.
    destruct (Hall d1 Hd1) as (_ & [l El] & _).
    destruct (Hall d2 Hd2) as ([h Eh] & _).
    rewrite El, Eh in Hle |- *. unfold lit in Hle. cbn [JS.add] in Hle.
    apply le_Fin in Hle. rewrite !Qred_correct in Hle.
    apply lt_Fin. assert ((0 < 1 # 100)%Q) by reflexivity. lra.
Qed.

(** X13. For visible points that satisfy the OHLCV invariant, with finite
    and positive highs and lows of which two are at least one cent apart,
    on a canvas higher than the two paddings (its height is an unsigned
    32-bit integer), drawChart computes one candle per point, and every
    candle hangs from the top edge: its wick starts at or below the top
    edge and runs downwards from the high to the low, its body starts on
    the wick and is at least one pixel high.
    The highest high lies on the top edge itself.  (Each of these
    comparisons is between values that binary64 rounds monotonically, and
    the top edge is reached with a zero product; the bottom edge is
    reached only up to rounding and is not part of the statement.) *)
Theorem visible_candles_hang_from_the_top_edge
        (canvasWidth canvasHeight : Z) (visibleData : list StockData) :
  120 < canvasHeight < 2 ^ 32 ->
  Forall ohlcv_ok visibleData ->
  quotedPrices visibleData ->
  let drawing := drawVisible canvasWidth canvasHeight visibleData in
  length (d_candles drawing) = length visibleData /\
  Forall hangsFromTop (d_candles drawing) /\
  (exists c, In c (d_candles drawing) /\ c_highY c = padding).
Proof.
  intros [Hh _] Hok Hq0 drawing. subst drawing.
  pose proof (quotedPrices_spread visibleData Hq0) as Hsp.
  unfold drawVisible. cbv zeta. cbn [d_priceScale d_candles].
  destruct (price_range visibleData Hok Hsp)
    as (m & M & Em & EM & HmM & Henc & Htop & _).
  rewrite Em, EM.
  destruct (chartHeight_Fin canvasHeight) as (Hq & EH & VH). rewrite EH.
  assert (HH : (0 < Hq)%Q).
  { rewrite VH. rewrite Zlt_Qlt in Hh.
    change (inject_Z 120) with 120%Q in Hh. lra. }
  split; [|split].
  - apply candles_length.
  - apply (candles_inside _ _ Hq M m); try assumption.
    intros yh yl yb bh cd E1 E2 E3 E4 B1 B2 B3 B4 B5 B6.
    unfold hangsFromTop. rewrite E1, E2, E3, E4. unfold padding, ofZ.
    repeat split; apply le_Fin;
      change (inject_Z 60) with 60%Q; change (inject_Z 1) with 1%Q; lra.
  - destruct Htop as (d & h & Hd & Eh & HhM).
    destruct (candles_In (ofZ canvasWidth - padding * ofZ 2)%num (Fin M)
                (Fin Hq / (Fin M - Fin m))%num
                (JS.max (ofZ 2)
                   ((ofZ canvasWidth - padding * ofZ 2)
                    / ofNat (length visibleData) * lit 8 10)%num)
                (length visibleData) visibleData d Hd 0) as [k Hk].
    eexists. split; [exact Hk|].
    rewrite Forall_forall in Henc.
    destruct (Henc d Hd) as (o & h' & l & c & _ & Eh' & El & _).
    destruct (candle_wick (ofZ canvasWidth - padding * ofZ 2)%num
                (JS.max (ofZ 2)
                   ((ofZ canvasWidth - padding * ofZ 2)
                    / ofNat (length visibleData) * lit 8 10)%num)
                Hq M m h l (length visibleData) d k HmM Eh El) as [-> _].
    unfold yOf, padding, ofZ.
    change (inject_Z 60) with (Qred (inject_Z 60)) at 2.
    apply Fin_Qred_eq. rewrite !Qred_correct, HhM.
    setoid_replace (M - M)%Q with 0%Q by ring.
    rewrite Qmult_0_l. ring.
Qed.

Lemma sampleSeries_quoted : quotedPrices sampleSeries.
Proof.
  split.
  - repeat constructor; apply finite_Fin.
  - exists (mkStockData 1 (ofZ 10) (ofZ 12) (ofZ 9) (ofZ 11) (ofZ 100)),
           (mkStockData 1 (ofZ 10) (ofZ 12) (ofZ 9) (ofZ 11) (ofZ 100)).
    split; [now left|]. split; [now left | reflexivity].
Qed.

Lemma visible_candles_hang_from_the_top_edge_witness :
  let drawing := drawVisible 800 500 sampleSeries in
  length (d_candles drawing) = 3%nat /\
  Forall hangsFromTop (d_candles drawing) /\
  (exists c, In c (d_candles drawing) /\ c_highY c = padding).
Proof.
  apply (visible_candles_hang_from_the_top_edge 800 500 sampleSeries).
  - lia.
  - repeat constructor.
  - apply sampleSeries_quoted.
Defined.

(** ** Candle positions *)

Section PositionFacts.

Local Open Scope num_scope.

Lemma candles_nth (chartWidth maxPrice priceScale candleWidth : num)
      (count : nat) (items : list StockData) :
  forall (index k : nat) (c : Candle),
    nth_error (candles chartWidth maxPrice priceScale candleWidth count
                       items index) k = Some c ->
    exists item,
      nth_error items k = Some item /\
      c = candle chartWidth maxPrice priceScale candleWidth count item
                 (index + k).
Proof.
  induction items as [|d items IH]; intros index k c; cbn [candles].
  - destruct k; discriminate.
  - destruct k as [|k]; cbn [nth_error].
    + intros H; injection H as <-. exists d. rewrite Nat.add_0_r. now split.
    + intros H. apply IH in H as (item & Hi & ->). exists item.
      split; [exact Hi|]. f_equal. lia.
Qed.

Lemma count_minus_one (n : nat) :
  (2 <= n)%nat -> (0 < inject_Z (Z.of_nat n) - 1)%Q.
Proof.
  intros Hn. assert (H : (2 <= Z.of_nat n)%Z) by lia.
  rewrite Zle_Qle in H. change (inject_Z 2) with 2%Q in H. lra.
Qed.

Lemma candle_x (W : Q) (maxPrice priceScale candleWidth : num) (n : nat)
      (item : StockData) (i : nat) :
  (2 <= n)%nat ->
  c_x (candle (Fin W) maxPrice priceScale candleWidth n item i)
  = Fin (xOf W n i).
Proof.
  intros Hn. unfold candle. cbv zeta. cbn [c_x].
  unfold ofNat, ofZ, padding. cbn [JS.mul JS.sub].
  rewrite div_Fin; [reflexivity|].
  rewrite Qred_correct. pose proof (count_minus_one n Hn) as H.
  change (inject_Z 1) with 1%Q. intros E. lra.
Qed.

Lemma xOf_correct (W : Q) (n i : nat) :
  (xOf W n i
   == 60 + W * inject_Z (Z.of_nat i) / (inject_Z (Z.of_nat n) - 1))%Q.
Proof. unfold xOf. rewrite !Qred_correct. reflexivity. Qed.

Lemma xOf_increases (W : Q) (n i j : nat) :
  (0 < W)%Q -> (2 <= n)%nat -> (i < j)%nat -> (xOf W n i < xOf W n j)%Q.
Proof.
  intros HW Hn Hij. rewrite !xOf_correct.
  pose proof (count_minus_one n Hn) as Hd.
  assert (Hlt : (inject_Z (Z.of_nat i) < inject_Z (Z.of_nat j))%Q)
    by (rewrite <- Zlt_Qlt; lia).
  assert (Hinv : (0 < / (inject_Z (Z.of_nat n) - 1))%Q)
    by now apply Qinv_lt_0_compat.
  unfold Qdiv.
  assert (Hm : (W * inject_Z (Z.of_nat i) < W * inject_Z (Z.of_nat j))%Q).
  { rewrite !(Qmult_comm W). now apply Qmult_lt_compat_r. }
  apply (Qmult_lt_compat_r _ _ _ Hinv) in Hm. lra.
Qed.

Lemma chartWidth_Fin (canvasWidth : Z) :
  exists W,
    ofZ canvasWidth - padding * ofZ 2 = Fin W /\
    (W == inject_Z canvasWidth - 120)%Q.
Proof.
  eexists. split; [reflexivity|]. rewrite !Qred_correct. reflexivity.
Qed.

End PositionFacts.

(** X14. With at least two visible points on a canvas wider than the two
    paddings, the candles stand from left to right in the order of the
    points: the first on the left edge of the frame, the last on the right
    edge, and each strictly to the right of the one before. *)
Theorem candles_span_the_frame_left_to_right
        (canvasWidth canvasHeight : Z) (visibleData : list StockData) :
  (2 <= length visibleData)%nat ->
  120 < canvasWidth ->
  let drawn := d_candles (drawVisible canvasWidth canvasHeight visibleData) in
  (exists c, nth_error drawn 0 = Some c /\ c_x c = padding) /\
  (exists c, nth_error drawn (length visibleData - 1) = Some c /\
             c_x c = (ofZ canvasWidth - padding)%num) /\
  (forall (i j : nat) (c c' : Candle),
      (i < j)%nat ->
      nth_error drawn i = Some c -> nth_error drawn j = Some c' ->
      JS.lt (c_x c) (c_x c') = true).
Proof.
  intros Hn Hw drawn. subst drawn. unfold drawVisible. cbv zeta.
  cbn [d_candles].
  destruct (chartWidth_Fin canvasWidth) as (W & EW & VW). rewrite EW.
  assert (HW : (0 < W)%Q).
  { rewrite VW. rewrite Zlt_Qlt in Hw.
    change (inject_Z 120) with 120%Q in Hw. lra. }
  pose proof (count_minus_one _ Hn) as Hd.
  set (drawn := candles _ _ _ _ _ _ _).
  assert (Hlen : length drawn = length visibleData)
    by apply candles_length.
  assert (Hat : forall k, (k < length visibleData)%nat ->
                          exists c, nth_error drawn k = Some c /\
                                    c_x c = Fin (xOf W (length visibleData) k)).
  { intros k Hk. destruct (nth_error drawn k) as [c|] eqn:E.
    - exists c. split; [reflexivity|].
      apply candles_nth in E as (item & _ & ->). now apply candle_x.
    - apply nth_error_None in E. lia. }
  split; [|split].
  - destruct (Hat 0%nat ltac:(lia)) as (c & Hc & Hx).
    exists c. split; [exact Hc|]. rewrite Hx. unfold xOf, padding, ofZ.
    change (inject_Z 60) with (Qred (inject_Z 60)) at 2.
    apply Fin_Qred_eq. rewrite !Qred_correct.
    change (inject_Z (Z.of_nat 0)) with 0%Q.
    change (inject_Z 1) with 1%Q. field. intros E. lra.
  - destruct (Hat (length visibleData - 1)%nat ltac:(lia)) as (c & Hc & Hx).
    exists c. split; [exact Hc|]. rewrite Hx. unfold xOf, padding, ofZ.
    cbn [JS.sub]. apply Fin_Qred_eq. rewrite !Qred_correct, VW.
    replace (Z.of_nat (length visibleData - 1))
      with (Z.of_nat (length visibleData) - 1)%Z by lia.
    unfold Zminus. rewrite inject_Z_plus.
    change (inject_Z (- (1))) with (- (1))%Q.
    change (inject_Z 60) with 60%Q. change (inject_Z 1) with 1%Q.
    field. intros E. lra.
  - intros i j c c' Hij Hi Hj.
    assert (Hj' : (j < length visibleData)%nat).
    { rewrite <- Hlen. apply nth_error_Some. congruence. }
    destruct (Hat i ltac:(lia)) as (c1 & Hc1 & Hx1).
    destruct (Hat j Hj') as (c2 & Hc2 & Hx2).
    assert (c1 = c) by congruence. assert (c2 = c') by congruence. subst.
    rewrite Hx1, Hx2. apply lt_Fin. now apply xOf_increases.
Qed.

Lemma candles_span_the_frame_left_to_right_witness :
  let drawn := d_candles (drawVisible 800 500 sampleSeries) in
  (exists c, nth_error drawn 0 = Some c /\ c_x c = padding) /\
  (exists c, nth_error drawn 2 = Some c /\ c_x c = (ofZ 800 - padding)%num) /\
  (forall (i j : nat) (c c' : Candle),
      (i < j)%nat ->
      nth_error drawn i = Some c -> nth_error drawn j = Some c' ->
      JS.lt (c_x c) (c_x c') = true).
Proof.
  apply (candles_span_the_frame_left_to_right 800 500 sampleSeries).
  - simpl. lia.
  - lia.
Defined.

(** X15. A single visible point has no position: whatever its prices and
    the size of the canvas, drawChart computes one candle for it whose x
    and whose body x are NaN, so that neither its wick nor its body is
    drawn. *)
Theorem single_visible_point_has_no_position
        (canvasWidth canvasHeight : Z) (stockData : list StockData)
        (st : ChartState) (d : StockData) :
  slice (viewportStart st) (viewportEnd st) stockData = [d] ->
  exists c,
    drawChart canvasWidth canvasHeight stockData st
    = Some (mkDrawing (d_priceScale (drawVisible canvasWidth canvasHeight [d]))
                      (d_grid (drawVisible canvasWidth canvasHeight [d]))
                      [c]) /\
    c_x c = NaN /\ c_bodyX c = NaN.
Proof.
  intros Hs. eexists. split.
  - unfold drawChart. rewrite Hs.
    destruct stockData as [|d0 rest].
    + unfold slice in Hs. rewrite skipn_nil, firstn_nil in Hs. discriminate.
    + unfold drawVisible. cbv zeta. cbn [d_priceScale d_grid candles length].
      reflexivity.
  - cbn [c_x c_bodyX candle].
    destruct (chartWidth_Fin canvasWidth) as (W & EW & VW). rewrite EW.
    unfold candle. cbv zeta. cbn [c_x c_bodyX].
    assert (E : (padding
                 + Fin W * ofNat 0 / (ofNat 1 - ofZ 1))%num = NaN).
    { unfold ofNat, ofZ, padding. cbn [JS.mul JS.sub].
      change (Qred (inject_Z (Z.of_nat 1) - inject_Z 1)) with 0%Q.
      cbn [JS.div]. change (Qeq_bool 0 0) with true. cbv iota.
      rewrite (qsgn_zero (Qred (W * inject_Z (Z.of_nat 0)))).
      - reflexivity.
      - apply Qeq_eq_bool. rewrite Qred_correct.
        change (inject_Z (Z.of_nat 0)) with 0%Q. ring. }
    rewrite E. split; reflexivity.
Qed.

Lemma single_visible_point_has_no_position_witness :
  exists c,
    drawChart 800 500 [samplePoint 1] (loadedChartState 1 (ofZ 90))
    = Some (mkDrawing
              (d_priceScale (drawVisible 800 500 [samplePoint 1]))
              (d_grid (drawVisible 800 500 [samplePoint 1]))
              [c]) /\
    c_x c = NaN /\ c_bodyX c = NaN.
Proof.
  apply (single_visible_point_has_no_position
           800 500 [samplePoint 1] (loadedChartState 1 (ofZ 90))
           (samplePoint 1)).
  vm_compute. reflexivity.
Defined.

(** ** The date grid *)

Section DateGridFacts.

Lemma timeStep_eval (count : nat) :
  timeStep count = ofZ (Z.max 1 (Z.of_nat count / 8)).
Proof.
  unfold timeStep, ofNat.
  assert (E : JS.floor (ofZ (Z.of_nat count) / ofZ 8)%num
              = ofZ (Z.of_nat count / 8)).
  { unfold ofZ at 1 2. simpl JS.div. apply floor_Fin_eq.
    rewrite Qred_correct.
    unfold Qeq, Qdiv, Qmult, Qinv, inject_Z; simpl. lia. }
  rewrite E. apply max_ofZ.
Qed.

Lemma visited_done (count step a : Z) :
  1 <= step -> count <= a -> visited count step a = [].
Proof.
  intros Hs Ha. unfold visited.
  assert (H : (count - a + step - 1) / step <= 0).
  { apply Z.lt_succ_r. apply Z.div_lt_upper_bound; lia. }
  replace (Z.to_nat ((count - a + step - 1) / step)) with O by lia.
  reflexivity.
Qed.

Lemma visited_step (count step a : Z) :
  1 <= step -> a < count ->
  visited count step a = a :: visited count step (a + step).
Proof.
  intros Hs Ha. unfold visited.
  assert (E : (count - a + step - 1) / step
              = (count - (a + step) + step - 1) / step + 1).
  { rewrite <- Z.div_add by lia. f_equal. lia. }
  assert (H : 0 <= (count - (a + step) + step - 1) / step).
  { apply Z.div_pos; lia. }
  rewrite E, Z2Nat.inj_add by lia.
  change (Z.to_nat 1) with 1%nat. rewrite Nat.add_1_r.
  cbn [seq map]. f_equal; [lia|].
  rewrite <- seq_shift, map_map. apply map_ext. intros j. lia.
Qed.

Lemma timeLoop_visits (step : Z) (count : nat) :
  1 <= step ->
  forall (fuel : nat) (a : Z),
    0 <= a -> Z.of_nat count - a <= Z.of_nat fuel ->
    timeLoop (S fuel) (ofZ a) (ofZ step) count
    = Some (map ofZ (visited (Z.of_nat count) step a)).
Proof.
  intros Hs. induction fuel as [|fuel IH]; intros a Ha Hfuel.
  - cbn [timeLoop]. unfold ofNat. rewrite lt_ofZ.
    destruct (Z.ltb_spec a (Z.of_nat count)); [lia|].
    now rewrite visited_done by lia.
  - cbn [timeLoop]. unfold ofNat. rewrite lt_ofZ.
    destruct (Z.ltb_spec a (Z.of_nat count)) as [Hlt|Hge].
    + rewrite add_ofZ, (visited_step _ _ _ Hs Hlt). cbn [map].
      pose proof (IH (a + step) ltac:(lia) ltac:(lia)) as E.
      cbn [timeLoop] in E. unfold ofNat in E |- *. rewrite E. reflexivity.
    + now rewrite visited_done by lia.
Qed.

Lemma visited_range (count step a : Z) :
  1 <= step -> 0 <= a ->
  Forall (fun k => 0 <= k < count) (visited count step a).
Proof.
  intros Hs Ha. unfold visited. apply Forall_forall. intros k Hk.
  apply in_map_iff in Hk as (j & <- & Hj). apply in_seq in Hj.
  destruct (Z_lt_le_dec a count) as [Hlt|Hge].
  - assert (Hj' : Z.of_nat j < (count - a + step - 1) / step) by lia.
    assert (Hm : step * ((count - a + step - 1) / step)
                 <= count - a + step - 1)
      by (apply Z.mul_div_le; lia).
    nia.
  - assert (H : (count - a + step - 1) / step <= 0).
    { apply Z.lt_succ_r. apply Z.div_lt_upper_bound; lia. }
    lia.
Qed.

Lemma itemAt_ofZ {A : Type} (l : list A) (k : Z) :
  0 <= k -> itemAt l (ofZ k) = nth_error l (Z.to_nat k).
Proof.
  intros Hk. unfold itemAt, ofZ. rewrite Qfloor_Z.
  assert (H1 : Qle_bool 0 (inject_Z k) = true).
  { apply Qle_bool_iff. change 0%Q with (inject_Z 0). now rewrite <- Zle_Qle. }
  assert (H2 : Qeq_bool (inject_Z k) (inject_Z k) = true)
    by (apply Qeq_eq_bool; reflexivity).
  now rewrite H1, H2.
Qed.

Lemma dateLines_visits (timezoneOffset : Z -> Z) (chartWidth : num)
      (visibleData : list StockData) (d0 : StockData) (ks : list Z) :
  Forall (fun k => 0 <= k < Z.of_nat (length visibleData)) ks ->
  dateLines timezoneOffset chartWidth visibleData (map ofZ ks)
  = Ok (map (lineAt timezoneOffset chartWidth visibleData d0) ks).
Proof.
  induction 1 as [|k ks Hk _ IH]; [reflexivity|].
  cbn [map dateLines]. unfold dateLine at 1.
  rewrite itemAt_ofZ by lia.
  rewrite (nth_error_nth' visibleData d0) by lia.
  rewrite IH. reflexivity.
Qed.

Lemma lines_count (n : Z) :
  1 <= n ->
  let step := Z.max 1 (n / 8) in
  let lines := (n + step - 1) / step in
  1 <= lines <= 15 /\ (8 <= n -> 8 <= lines) /\ (n < 16 -> lines = n).
Proof.
  intros Hn step lines.
  assert (Hdiv : 8 * (n / 8) <= n < 8 * (n / 8) + 8).
  { pose proof (Z.mul_div_le n 8 ltac:(lia)).
    pose proof (Z.mul_succ_div_gt n 8 ltac:(lia)). lia. }
  assert (Hs : 1 <= step) by (subst step; lia).
  repeat split.
  - subst lines. apply Z.div_le_lower_bound; lia.
  - subst lines. apply Z.lt_succ_r. apply Z.div_lt_upper_bound; lia.
  - intros H8. subst lines. apply Z.div_le_lower_bound; lia.
  - intros H16. assert (step = 1) by (subst step; lia).
    subst lines. replace step with 1 by lia.
    rewrite Z.div_1_r. lia.
Qed.

(** East of Greenwich and at UTC the local day is the day itself, west
    of Greenwich it is the day before. *)
Lemma localDay_cases (timezoneOffset : Z -> Z) (day : Z) :
  (- 1440 < timezoneOffset day <= 0 -> localDay timezoneOffset day = day) /\
  (0 < timezoneOffset day <= 1440 -> localDay timezoneOffset day = day - 1).
Proof.
  unfold localDay. split; intros H; symmetry.
  - apply (Z.div_unique _ _ _ (- timezoneOffset day)); lia.
  - apply (Z.div_unique _ _ _ (1440 - timezoneOffset day)); lia.
Qed.

End DateGridFacts.

(** X16. For a non-empty window and enough turns, the loop of the date
    grid ends without an exception, every index it reads lies in the
    window, and its lines are those of the candles at the indices 0,
    step, 2 step, ..., with step the larger of 1 and an eighth of the
    number of visible points: each line has the x of its candle.  Its
    label shows the local day of the date of its point taken as midnight
    UTC: the day of the point itself at UTC and east of Greenwich, the day
    before west of Greenwich.  There are at most 15 lines, at least 8 for
    8 points or more, and one per point below 16 points. *)
Theorem date_grid_passes_through_candles
        (timezoneOffset : Z -> Z) (fuel : nat) (canvasWidth canvasHeight : Z)
        (visibleData : list StockData) :
  visibleData <> [] ->
  (length visibleData <= fuel)%nat ->
  let n := Z.of_nat (length visibleData) in
  let step := Z.max 1 (n / 8) in
  exists lines,
    dateGrid timezoneOffset (S fuel) canvasWidth visibleData
    = Some (Ok lines) /\
    Z.of_nat (length lines) = (n + step - 1) / step /\
    (1 <= length lines <= 15)%nat /\
    (8 <= n -> (8 <= length lines)%nat) /\
    (n < 16 -> length lines = length visibleData) /\
    forall (j : nat) (line : num * Z),
      nth_error lines j = Some line ->
      exists item c,
        nth_error visibleData (Z.to_nat (Z.of_nat j * step)) = Some item /\
        nth_error (d_candles (drawVisible canvasWidth canvasHeight visibleData))
                  (Z.to_nat (Z.of_nat j * step)) = Some c /\
        line = (c_x c, localDay timezoneOffset (date item)) /\
        (- 1440 < timezoneOffset (date item) <= 0 -> snd line = date item) /\
        (0 < timezoneOffset (date item) <= 1440 ->
         snd line = date item - 1).
Proof.
  intros Hne Hfuel.
  destruct visibleData as [|d0 rest]; [easy|].
  remember (d0 :: rest) as visibleData eqn:Ev. intros n step.
  assert (Hn : 1 <= n) by (subst n; rewrite Ev; cbn [length]; lia).
  assert (Hs : 1 <= step) by (subst step; lia).
  destruct (lines_count n Hn) as (Hc1 & Hc2 & Hc3). fold step in Hc1, Hc2, Hc3.
  pose proof (visited_range n step 0 Hs ltac:(lia)) as Hrange.
  exists (map (lineAt timezoneOffset (ofZ canvasWidth - padding * ofZ 2)%num
                      visibleData d0)
              (visited n step 0)).
  assert (Hlen : Z.of_nat (length (visited n step 0)) = (n + step - 1) / step).
  { unfold visited. rewrite length_map, length_seq.
    replace (n - 0 + step - 1) with (n + step - 1) by lia. lia. }
  split; [|rewrite length_map; repeat split; try lia].
  - unfold dateGrid. cbv zeta. rewrite timeStep_eval. fold n. fold step.
    rewrite (timeLoop_visits step (length visibleData) Hs fuel 0)
      by (fold n; lia).
    fold n. cbn [option_map]. f_equal.
    now apply dateLines_visits.
  - intros j line Hj.
    rewrite nth_error_map in Hj.
    destruct (nth_error (visited n step 0) j) as [k|] eqn:Ek; [|discriminate].
    cbn [option_map] in Hj. injection Hj as <-.
    assert (Hk : 0 <= k < n).
    { rewrite Forall_forall in Hrange. apply Hrange.
      now apply nth_error_In in Ek. }
    assert (Ekj : k = Z.of_nat j * step).
    { unfold visited in Ek. rewrite nth_error_map in Ek.
      destruct (nth_error (seq 0 _) j) as [i|] eqn:Ei; [|discriminate].
      cbn [option_map] in Ek. injection Ek as <-.
      assert (Hjl : (j < length (seq 0 (Z.to_nat ((n - 0 + step - 1) / step))))%nat)
        by (apply nth_error_Some; congruence).
      rewrite length_seq in Hjl.
      rewrite (nth_error_nth' _ 0%nat) in Ei by now rewrite length_seq.
      rewrite seq_nth in Ei by exact Hjl. injection Ei as <-. lia. }
    rewrite <- Ekj.
    assert (Hkn : (Z.to_nat k < length visibleData)%nat) by (subst n; lia).
    exists (nth (Z.to_nat k) visibleData d0).
    destruct (nth_error (d_candles (drawVisible canvasWidth canvasHeight
                                                visibleData))
                        (Z.to_nat k)) as [c|] eqn:Ec.
    + exists c. split; [now apply nth_error_nth'|]. split; [reflexivity|].
      unfold drawVisible in Ec. cbv zeta in Ec. cbn [d_candles] in Ec.
      apply candles_nth in Ec as (item & _ & ->).
      unfold lineAt, candle. cbv zeta. cbn [c_x fst snd]. unfold ofNat.
      rewrite Nat.add_0_l, Z2Nat.id by lia.
      split; [reflexivity|]. apply localDay_cases.
    + apply nth_error_None in Ec. unfold drawVisible in Ec. cbv zeta in Ec.
      cbn [d_candles] in Ec. rewrite candles_length in Ec. lia.
Qed.

Lemma date_grid_passes_through_candles_witness :
  exists lines,
    dateGrid (fun _ => 300) 4 800 sampleSeries = Some (Ok lines) /\
    map snd lines = [0; 1; 2].
Proof.
  destruct (date_grid_passes_through_candles
              (fun _ => 300) 3 800 500 sampleSeries)
    as (lines & E & _).
  - discriminate.
  - simpl. lia.
  - exists lines. split; [exact E|].
    vm_compute in E. injection E as <-. reflexivity.
Defined.

(** ** The days of a generated series *)

Section GeneratedDays.

Variable random : nat -> Q.
Variable dateDaysAgo : nat -> result Z.
Variable sinQ : Q -> Q.

Lemma countsBack_last (row : StockData) :
  dateDaysAgo 0 = Ok (date row) -> countsBack dateDaysAgo 0 [row].
Proof.
  intros Hd. split; [reflexivity|]. intros k Hk.
  replace k with 0%nat by lia. exists row. now split.
Qed.

Lemma countsBack_cons (i : nat) (row : StockData) (rows : list StockData) :
  dateDaysAgo (S i) = Ok (date row) -> countsBack dateDaysAgo i rows ->
  countsBack dateDaysAgo (S i) (row :: rows).
Proof.
  intros Hd [Hlen Hrows]. split; [cbn [length]; now rewrite Hlen|].
  intros [|k] Hk.
  - exists row. now split.
  - destruct (Hrows k ltac:(lia)) as (r & Hr & Hdr). exists r. now split.
Qed.

Lemma mockDay_date (symbol : string) (config : StockConfig) (i : nat)
      (price : num) (n : nat) (row : StockData) (price' : num) (n' : nat) :
  mockDay random dateDaysAgo sinQ symbol config i price n
  = Ok (row, price', n') ->
  dateDaysAgo i = Ok (date row).
Proof.
  unfold mockDay. cbv zeta. destruct (dateDaysAgo i) as [d|]; [|discriminate].
  unfold bind. intros H. apply Ok_triple_inv in H as (<- & _ & _).
  reflexivity.
Qed.

Lemma simpleDay_date (i : nat) (price : num) (n : nat) (row : StockData)
      (price' : num) (n' : nat) :
  simpleDay random dateDaysAgo i price n = Ok (row, price', n') ->
  dateDaysAgo i = Ok (date row).
Proof.
  unfold simpleDay. cbv zeta. destruct (dateDaysAgo i) as [d|]; [|discriminate].
  unfold bind. intros H. apply Ok_triple_inv in H as (<- & _ & _).
  reflexivity.
Qed.

Lemma interactiveDay_date (config : StockConfig) (i : nat) (price : num)
      (n : nat) (row : StockData) (price' : num) (n' : nat) :
  interactiveDay random dateDaysAgo sinQ config i price n
  = Ok (row, price', n') ->
  dateDaysAgo i = Ok (date row).
Proof.
  unfold interactiveDay. cbv zeta.
  destruct (dateDaysAgo i) as [d|]; [|discriminate].
  unfold bind. intros H. apply Ok_triple_inv in H as (<- & _ & _).
  reflexivity.
Qed.

Lemma mockDays_countsBack (symbol : string) (config : StockConfig) (i : nat) :
  forall (price : num) (n : nat) (rows : list StockData),
    mockDays random dateDaysAgo sinQ symbol config i price n = Ok rows ->
    countsBack dateDaysAgo i rows.
Proof.
  induction i as [|j IH]; intros price n rows H; cbn [mockDays] in H;
    destruct (mockDay _ _ _ _ _ _ _ _) as [[[row p'] n']|] eqn:E;
    try discriminate; apply mockDay_date in E.
  - injection H as <-. now apply countsBack_last.
  - apply bind_Ok in H as (rest & Hrest & H). injection H as <-.
    apply countsBack_cons; [exact E | now apply (IH p' n')].
Qed.

Lemma simpleDays_countsBack (i : nat) :
  forall (price : num) (n : nat) (rows : list StockData),
    simpleDays random dateDaysAgo i price n = Ok rows -> countsBack dateDaysAgo i rows.
Proof.
  induction i as [|j IH]; intros price n rows H; cbn [simpleDays] in H;
    destruct (simpleDay _ _ _ _ _) as [[[row p'] n']|] eqn:E;
    try discriminate; apply simpleDay_date in E.
  - injection H as <-. now apply countsBack_last.
  - apply bind_Ok in H as (rest & Hrest & H). injection H as <-.
    apply countsBack_cons; [exact E | now apply (IH p' n')].
Qed.

Lemma interactiveDays_countsBack (config : StockConfig) (i : nat) :
  forall (price : num) (n : nat) (rows : list StockData),
    interactiveDays random dateDaysAgo sinQ config i price n = Ok rows ->
    countsBack dateDaysAgo i rows.
Proof.
  induction i as [|j IH]; intros price n rows H; cbn [interactiveDays] in H;
    destruct (interactiveDay _ _ _ _ _ _ _) as [[[row p'] n']|] eqn:E;
    try discriminate; apply interactiveDay_date in E.
  - injection H as <-. now apply countsBack_last.
  - apply bind_Ok in H as (rest & Hrest & H). injection H as <-.
    apply countsBack_cons; [exact E | now apply (IH p' n')].
Qed.

End GeneratedDays.

(** X17. Where the clock is regular, so that the day [i] days back is
    the day [today - i] for every [i] up to [days] (no change of the
    offset of local time from UTC falls into the range), a series
    returned by any of the three generators carries the days
    [today - days], [today - days + 1], ..., [today] in this order: one
    point for each day, oldest first, the last one today's. *)
Theorem generated_series_counts_back_to_today
        (random : nat -> Q) (dateDaysAgo : nat -> result Z) (sinQ : Q -> Q)
        (symbol : string) (days : nat) (rows : list StockData) (today : Z) :
  (forall i, (i <= days)%nat -> dateDaysAgo i = Ok (today - Z.of_nat i)) ->
  generateMockData random dateDaysAgo sinQ symbol days = Ok rows \/
  generateMockData_simple random dateDaysAgo days = Ok rows \/
  generateMockData_interactive random dateDaysAgo sinQ symbol days = Ok rows ->
  map date rows
  = map (fun k => today - Z.of_nat days + Z.of_nat k) (seq 0 (S days)).
Proof.
  intros Hclock Hgen.
  assert (Hback : countsBack dateDaysAgo days rows).
  { destruct Hgen as [H|[H|H]].
    - unfold generateMockData in H.
      destruct (stockConfigs symbol); try discriminate;
        now apply mockDays_countsBack in H.
    - now apply simpleDays_countsBack in H.
    - unfold generateMockData_interactive in H.
      destruct (stockPriceRanges symbol); try discriminate;
        now apply interactiveDays_countsBack in H. }
  destruct Hback as [Hlen Hrows].
  apply nth_error_ext. intros k. rewrite !nth_error_map, nth_error_seq.
  destruct (Nat.ltb_spec k (S days)) as [Hk|Hk].
  - destruct (Hrows k ltac:(lia)) as (row & -> & Hday).
    rewrite (Hclock (days - k)%nat) in Hday by lia.
    injection Hday as Hday. cbn [option_map]. rewrite <- Hday.
    f_equal. lia.
  - replace (nth_error rows k) with (@None StockData); [reflexivity|].
    symmetry. apply nth_error_None. lia.
Qed.

Lemma generated_series_counts_back_to_today_witness :
  exists rows,
    generateMockData_simple sampleRandom sampleClock 2 = Ok rows /\
    map date rows = [19998; 19999; 20000].
Proof.
  eexists. split; [vm_compute; reflexivity|].
  apply (generated_series_counts_back_to_today
           sampleRandom sampleClock sampleSin "AAPL" 2 _ 20000).
  - intros i _. reflexivity.
  - right. left. vm_compute. reflexivity.
Defined.

(** ** The price band of the generated opens *)

Section BandFacts.

Variable random : nat -> Q.
Variable dateDaysAgo : nat -> result Z.
Variable sinQ : Q -> Q.

Local Open Scope num_scope.

Lemma defaultConfig_band : band_ok defaultConfig.
Proof.
  exists (inject_Z 100), (inject_Z 80), (inject_Z 130),
         (Qred (25 # 1000)), (inject_Z 0).
  repeat split; try reflexivity; vm_compute; discriminate.
Qed.

Lemma stockConfigs_band (symbol : string) :
  band_ok (profileOf (stockConfigs symbol)).
Proof.
  unfold stockConfigs.
  destruct (String.eqb symbol "TMDX").
  { exists (inject_Z 117), (inject_Z 80), (inject_Z 180),
           (Qred (45 # 1000)), (Qred (1 # 1000)).
    repeat split; try reflexivity; vm_compute; discriminate. }
  destruct (String.eqb symbol "AAPL").
  { exists (inject_Z 180), (inject_Z 150), (inject_Z 200),
           (Qred (2 # 100)), (Qred (1 # 1000)).
    repeat split; try reflexivity; vm_compute; discriminate. }
  destruct (String.eqb symbol "TSLA").
  { exists (inject_Z 250), (inject_Z 180), (inject_Z 350),
           (Qred (45 # 1000)), (Qred (2 # 1000)).
    repeat split; try reflexivity; vm_compute; discriminate. }
  destruct (String.eqb symbol "default"); [apply defaultConfig_band|].
  destruct (existsb _ _); apply defaultConfig_band.
Qed.

Lemma stockPriceRanges_band (symbol : string) :
  band_ok (profileOf (stockPriceRanges symbol)) /\
  rangeLow (profileOf (stockPriceRanges symbol))
  = rangeLow (profileOf (stockConfigs symbol)) /\
  rangeHigh (profileOf (stockPriceRanges symbol))
  = rangeHigh (profileOf (stockConfigs symbol)).
Proof.
  pose proof (stockConfigs_band symbol) as H. unfold stockPriceRanges.
  destruct (stockConfigs symbol) as [config| |]; cbn [profileOf] in *;
    try (split; [exact H | split; reflexivity]).
  destruct H as (b & lo & hi & v & t & -> & Hrest).
  cbn [base rangeLow rangeHigh volatility].
  split; [|split; reflexivity].
  exists b, lo, hi, v, (inject_Z 0). split; [reflexivity | exact Hrest].
Qed.

(** Both clamps keep a finite price inside the band. *)
Lemma clamp_band (lo hi : Q) (x : num) :
  (lo <= hi)%Q -> finite x ->
  exists o, JS.max (Fin lo) (JS.min (Fin hi) x) = Fin o /\ (lo <= o <= hi)%Q.
Proof.
  intros Hband [q ->].
  destruct (min_Fin_cases hi q) as [[-> H1]|[-> H1]];
    match goal with
    | |- context [JS.max (Fin ?a) (Fin ?b)] =>
        destruct (max_Fin_cases a b) as [[-> H]|[-> H]]
    end; eexists; (split; [reflexivity|]); lra.
Qed.

Lemma rounded_in_band (lo hi o : Q) :
  (0 <= lo)%Q -> (lo <= o <= hi)%Q ->
  JS.toFixed2 (Fin lo) = Fin lo -> JS.toFixed2 (Fin hi) = Fin hi ->
  JS.le (Fin lo) (JS.toFixed2 (Fin o)) = true /\
  JS.le (JS.toFixed2 (Fin o)) (Fin hi) = true.
Proof.
  intros Hlo [H1 H2] Elo Ehi. split.
  - rewrite <- Elo. apply toFixed2_mono; lra.
  - rewrite <- Ehi. apply toFixed2_mono; lra.
Qed.

Lemma mockDay_band (symbol : string) (config : StockConfig) (i : nat) (p : Q)
      (n : nat) (row : StockData) (price' : num) (n' : nat) :
  band_ok config ->
  mockDay random dateDaysAgo sinQ symbol config i (Fin p) n
  = Ok (row, price', n') ->
  inBand config row /\ finite price'.
Proof.
  intros (b & lo & hi & v & t & -> & Hb & Hlo & Hband & Elo & Ehi) H.
  unfold mockDay in H. cbv zeta in H.
  cbn [base rangeLow rangeHigh volatility trend] in H.
  destruct (dateDaysAgo i) as [d|]; [|discriminate].
  unfold bind in H. apply Ok_triple_inv in H as (<- & <- & <-).
  match goal with
  | |- context [JS.min (Fin hi) ?X] =>
      assert (HX : finite X) by auto 15 with jsnum;
      destruct (clamp_band lo hi X Hband HX) as (o & Ho & Hin)
  end.
  rewrite Ho. split.
  - unfold inBand. cbn [open rangeLow rangeHigh].
    now apply rounded_in_band.
  - auto 15 with jsnum.
Qed.

Lemma interactiveDay_band (config : StockConfig) (i : nat) (p : Q)
      (n : nat) (row : StockData) (price' : num) (n' : nat) :
  band_ok config ->
  interactiveDay random dateDaysAgo sinQ config i (Fin p) n
  = Ok (row, price', n') ->
  inBand config row /\ finite price'.
Proof.
  intros (b & lo & hi & v & t & -> & Hb & Hlo & Hband & Elo & Ehi) H.
  unfold interactiveDay in H. cbv zeta in H.
  cbn [base rangeLow rangeHigh volatility trend] in H.
  destruct (dateDaysAgo i) as [d|]; [|discriminate].
  unfold bind in H. apply Ok_triple_inv in H as (<- & <- & <-).
  match goal with
  | |- context [JS.min (Fin hi) ?X] =>
      assert (HX : finite X) by auto 15 with jsnum;
      destruct (clamp_band lo hi X Hband HX) as (o & Ho & Hin)
  end.
  rewrite Ho. split.
  - unfold inBand. cbn [open rangeLow rangeHigh].
    now apply rounded_in_band.
  - auto 15 with jsnum.
Qed.

Lemma mockDays_band (symbol : string) (config : StockConfig) (i : nat) :
  band_ok config ->
  forall (p : Q) (n : nat) (rows : list StockData),
    mockDays random dateDaysAgo sinQ symbol config i (Fin p) n = Ok rows ->
    Forall (inBand config) rows.
Proof.
  intros Hcfg. induction i as [|j IH]; intros p n rows H; cbn [mockDays] in H;
    destruct (mockDay _ _ _ _ _ _ _ _) as [[[row price] n']|] eqn:E;
    try discriminate;
    destruct (mockDay_band _ _ _ _ _ _ _ _ Hcfg E) as [Hrow [p' ->]].
  - injection H as <-. constructor; [assumption | constructor].
  - apply bind_Ok in H as (rest & Hrest & H). injection H as <-.
    constructor; [assumption|]. now apply (IH p' n').
Qed.

Lemma interactiveDays_band (config : StockConfig) (i : nat) :
  band_ok config ->
  forall (p : Q) (n : nat) (rows : list StockData),
    interactiveDays random dateDaysAgo sinQ config i (Fin p) n = Ok rows ->
    Forall (inBand config) rows.
Proof.
  intros Hcfg. induction i as [|j IH]; intros p n rows H;
    cbn [interactiveDays] in H;
    destruct (interactiveDay _ _ _ _ _ _ _) as [[[row price] n']|] eqn:E;
    try discriminate;
    destruct (interactiveDay_band _ _ _ _ _ _ _ Hcfg E) as [Hrow [p' ->]].
  - injection H as <-. constructor; [assumption | constructor].
  - apply bind_Ok in H as (rest & Hrest & H). injection H as <-.
    constructor; [assumption|]. now apply (IH p' n').
Qed.

Lemma first_price_finite (config : StockConfig) (k : Z) :
  band_ok config ->
  exists p, base config + (Math_random random 0 - lit 5 10) * ofZ k = Fin p.
Proof.
  intros (b & lo & hi & v & t & -> & _). cbn [base].
  eexists. reflexivity.
Qed.

End BandFacts.

(** X18. Every open that the generators of RealStockChart and
    InteractiveStockChart return lies in the price band of the profile of
    the symbol, whatever the random source delivers: the generated price
    is clamped to the band each day before it becomes the open. *)
Theorem generated_opens_stay_in_the_band
        (random : nat -> Q) (dateDaysAgo : nat -> result Z) (sinQ : Q -> Q)
        (symbol : string) (days : nat) (rows : list StockData) :
  generateMockData random dateDaysAgo sinQ symbol days = Ok rows \/
  generateMockData_interactive random dateDaysAgo sinQ symbol days = Ok rows ->
  Forall (inBand (profileOf (stockConfigs symbol))) rows.
Proof.
  intros [H|H].
  - pose proof (stockConfigs_band symbol) as Hband.
    unfold generateMockData in H.
    assert (H' : mockDays random dateDaysAgo sinQ symbol
                   (profileOf (stockConfigs symbol)) days
                   (base (profileOf (stockConfigs symbol))
                    + (Math_random random 0 - lit 5 10) * ofZ 15)%num 1
                 = Ok rows).
    { destruct (stockConfigs symbol); [exact H | discriminate | exact H]. }
    destruct (first_price_finite random _ 15 Hband) as [p Hp].
    rewrite Hp in H'. now apply mockDays_band in H'.
  - destruct (stockPriceRanges_band symbol) as (Hband & Elo & Ehi).
    unfold generateMockData_interactive in H.
    assert (H' : interactiveDays random dateDaysAgo sinQ
                   (profileOf (stockPriceRanges symbol)) days
                   (base (profileOf (stockPriceRanges symbol))
                    + (Math_random random 0 - lit 5 10) * ofZ 20)%num 1
                 = Ok rows).
    { destruct (stockPriceRanges symbol); [exact H | discriminate | exact H]. }
    destruct (first_price_finite random _ 20 Hband) as [p Hp].
    rewrite Hp in H'. apply interactiveDays_band in H'; [|exact Hband].
    unfold inBand in *. rewrite Elo, Ehi in H'. exact H'.
Qed.

Lemma generated_opens_stay_in_the_band_witness :
  exists rows,
    generateMockData sampleRandom sampleClock sampleSin "AAPL" 2 = Ok rows /\
    Forall (inBand (profileOf (stockConfigs "AAPL"))) rows.
Proof.
  eexists. split; [vm_compute; reflexivity|].
  apply (generated_opens_stay_in_the_band
           sampleRandom sampleClock sampleSin "AAPL" 2).
  left. vm_compute. reflexivity.
Defined.

(** ** Time stamps of the live payload *)

Section StampFacts.

Lemma realRows_invalid_stamp (quotes : QuoteSlot) (tss : list Slot)
      (ts : Slot) (e0 : Exn) :
  In ts tss -> isoDate (toNumber ts * ofZ 1000)%num = Throw e0 ->
  forall index, exists e, realRows quotes tss index = Throw e.
Proof.
  intros Hin Hbad. induction tss as [|t tss IH]; intros index; [easy|].
  cbn [realRows].
  destruct (realRow quotes t index) as [row|e] eqn:Erow.
  - destruct Hin as [->|Hin].
    + unfold realRow in Erow. rewrite Hbad in Erow. discriminate.
    + destruct (IH Hin (S index)) as [e He]. rewrite He. now exists e.
  - now exists e.
Qed.

Lemma yahooRows_agree (q : Quote) (i : nat) (tss tss' : list Slot) :
  agreeOnKept q i tss tss' -> yahooRows q tss i = yahooRows q tss' i.
Proof.
  induction 1 as [|i ts ts' rest rest' Hts _ IH]; [reflexivity|].
  cbn [yahooRows]. rewrite IH.
  destruct Hts as [->|Hskip]; [reflexivity|].
  unfold yahooRow. cbv zeta. now rewrite Hskip.
Qed.

End StampFacts.

(** X19. fetchRealStockData formats the day of every row before it
    filters: one time stamp outside the range of Date makes it throw, so
    that no series is returned, even where the row of that time stamp
    would not have passed the filter. *)
Theorem fetchRealStockData_rejects_an_invalid_stamp
        (ok : bool) (res : ChartResult) (tss : list Slot) (ts : Slot)
        (e0 : Exn) :
  timestamp res = Some tss ->
  In ts tss ->
  isoDate (toNumber ts * ofZ 1000)%num = Throw e0 ->
  exists e, fetchRealStockData (Response ok (Ok (Some res))) = Throw e.
Proof.
  intros Htss Hin Hbad. unfold fetchRealStockData.
  destruct ok; [|now eexists]. cbn [bind]. rewrite Htss.
  destruct (quote res) as [| |q] eqn:Eq; [now eexists| |].
  - destruct (realRows_invalid_stamp NoQuote0 tss ts e0 Hin Hbad 0%nat)
      as [e He].
    rewrite He. now exists e.
  - destruct (realRows_invalid_stamp (Quote0 q) tss ts e0 Hin Hbad 0%nat)
      as [e He].
    rewrite He. now exists e.
Qed.

Lemma fetchRealStockData_rejects_an_invalid_stamp_witness :
  exists e,
    fetchRealStockData (Response true (Ok (Some (gapRows (ofZ (10 ^ 14))))))
    = Throw e.
Proof.
  apply (fetchRealStockData_rejects_an_invalid_stamp
           true (gapRows (ofZ (10 ^ 14)))
           [Some (ofZ (10 ^ 14)); Some (ofZ 86400)]
           (Some (ofZ (10 ^ 14))) RangeError).
  - reflexivity.
  - now left.
  - vm_compute. reflexivity.
Defined.

(** X20. fetchYahooFinanceData reads the time stamp of a row only after
    it has decided to keep the row: two payloads with the same quotes
    whose time stamps differ only at skipped rows give the same result,
    be it a series or an exception. *)
Theorem fetchYahooFinanceData_ignores_stamps_of_skipped_rows
        (q : Quote) (tss tss' : list Slot) :
  agreeOnKept q 0 tss tss' ->
  fetchYahooFinanceData
    (Response true (Ok (Some (mkChartResult (Some tss) (Quote0 q)))))
  = fetchYahooFinanceData
      (Response true (Ok (Some (mkChartResult (Some tss') (Quote0 q))))).
Proof.
  intros H. unfold fetchYahooFinanceData. cbn [bind timestamp quote].
  pose proof (yahooRows_agree q 0 tss tss' H) as E.
  destruct H as [|i ts ts' rest rest' Hts Hrest]; [reflexivity|].
  now rewrite E.
Qed.

Lemma fetchYahooFinanceData_ignores_stamps_of_skipped_rows_witness :
  fetchYahooFinanceData
    (Response true (Ok (Some (gapRows (ofZ (10 ^ 14))))))
  = fetchYahooFinanceData (Response true (Ok (Some (gapRows (ofZ 0))))).
Proof.
  apply (fetchYahooFinanceData_ignores_stamps_of_skipped_rows
           (mkQuote (Some [None; Some (ofZ 11)])
                    (Some [None; Some (ofZ 13)])
                    (Some [None; Some (ofZ 10)])
                    (Some [None; Some (ofZ 12)])
                    (Some [None; Some (ofZ 200)]))
           [Some (ofZ (10 ^ 14)); Some (ofZ 86400)]
           [Some (ofZ 0); Some (ofZ 86400)]).
  constructor; [right; reflexivity|].
  constructor; [left; reflexivity|]. constructor.
Defined.

(** ** The script of TradingViewWidget *)

Section WidgetFacts.

Variable others : list nat.
Variable count : nat.

Hypothesis others_older : Forall (fun node => (node < count)%nat) others.

Lemma newer_not_in_others (script : nat) :
  (count <= script)%nat -> ~ In script others.
Proof.
  intros Hs Hin. rewrite Forall_forall in others_older.
  apply others_older in Hin. lia.
Qed.

Lemma existsb_own (script : nat) :
  existsb (Nat.eqb script) (others ++ [script]) = true.
Proof.
  rewrite existsb_app. cbn [existsb]. rewrite Nat.eqb_refl.
  now rewrite orb_true_r.
Qed.

Lemma remove_own (script : nat) :
  (count <= script)%nat ->
  remove Nat.eq_dec script (others ++ [script]) = others.
Proof.
  intros Hs. rewrite remove_app, notin_remove
    by now apply newer_not_in_others.
  cbn [remove]. destruct (Nat.eq_dec script script); [|easy].
  apply app_nil_r.
Qed.

Lemma runCleanup_tidy (p : Page) :
  tidy others count p ->
  runCleanup p = mkPage others None (created p) false.
Proof.
  intros [Hc H]. unfold runCleanup, cleanup.
  destruct (scriptRef p) as [script|] eqn:Es.
  - destruct H as (Hh & Hs & _ & ->). rewrite Hh, existsb_own.
    cbn [document_head scriptRef created]. now rewrite remove_own.
  - destruct H as (Hh & Hp). rewrite Hp. destruct p; cbn in *. now subst.
Qed.

Lemma lifecycle_tidy (ev : Lifecycle) (p : Page) :
  ownEvent ev -> tidy others count p ->
  exists p', lifecycle ev p = inr p' /\ tidy others count p' /\
             (ev = Unmount -> scriptRef p' = None).
Proof.
  intros Hev Hp. pose proof (runCleanup_tidy p Hp) as E.
  destruct Hp as [Hc _].
  destruct ev as [[|]| |node]; [| | |easy]; cbn [lifecycle]; rewrite E.
  - eexists. split; [reflexivity|]. split; [|discriminate].
    split; cbn [created scriptRef document_head cleanupPending]; [lia|].
    repeat split; lia.
  - eexists. split; [reflexivity|]. split; [|discriminate].
    split; cbn [created scriptRef document_head cleanupPending]; [lia|].
    now split.
  - eexists. split; [reflexivity|]. split; [|reflexivity].
    split; cbn [created scriptRef document_head cleanupPending]; [lia|].
    now split.
Qed.

Lemma lifecycles_tidy (evs : list Lifecycle) :
  Forall ownEvent evs ->
  forall p, tidy others count p -> exists p', lifecycles evs p = inr p' /\ tidy others count p'.
Proof.
  induction 1 as [|ev evs Hev _ IH]; intros p Hp; cbn [lifecycles].
  - now exists p.
  - destruct (lifecycle_tidy ev p Hev Hp) as (p1 & -> & Hp1 & _).
    now apply IH.
Qed.

Lemma tidy_head (p : Page) :
  tidy others count p -> document_head p = others ++ ownScript p.
Proof.
  intros [_ H]. unfold ownScript. destruct (scriptRef p).
  - now destruct H.
  - destruct H as [-> _]. now rewrite app_nil_r.
Qed.

End WidgetFacts.

(** X21. As long as no other code removes nodes from the head of the
    document, the widget never throws, whatever the order of commits and
    unmounts.  After each of them the head holds the nodes of the others
    in their order, followed by the one script the widget refers to, if
    any: scripts of earlier commits are gone, and after an unmount none
    is left. *)
Theorem widget_keeps_at_most_one_script
        (others : list nat) (count : nat) (evs : list Lifecycle) :
  Forall (fun node => (node < count)%nat) others ->
  Forall ownEvent evs ->
  exists p,
    lifecycles evs (pageBefore others count) = inr p /\
    document_head p = others ++ ownScript p /\
    (length (ownScript p) <= 1)%nat /\
    forall p', lifecycle Unmount p = inr p' -> document_head p' = others.
Proof.
  intros Hold Hevs.
  assert (H0 : tidy others count (pageBefore others count)).
  { split; cbn; [lia | now split]. }
  destruct (lifecycles_tidy others count Hold evs Hevs _ H0) as (p & E & Hp).
  exists p. split; [exact E|].
  split; [now apply (tidy_head others count)|]. split.
  - unfold ownScript. destruct (scriptRef p); cbn; lia.
  - intros p' Hp'.
    destruct (lifecycle_tidy others count Hold Unmount p I Hp)
      as (p1 & E1 & Hp1 & Hnone).
    rewrite E1 in Hp'. injection Hp' as <-.
    rewrite (tidy_head others count p1 Hp1). unfold ownScript.
    rewrite (Hnone eq_refl). apply app_nil_r.
Qed.

Lemma widget_keeps_at_most_one_script_witness :
  exists p,
    lifecycles [Commit true; Commit true; Commit true] (pageBefore [0; 1]%nat 2)
    = inr p /\
    document_head p = [0; 1; 4]%nat.
Proof.
  destruct (widget_keeps_at_most_one_script
              [0; 1]%nat 2 [Commit true; Commit true; Commit true])
    as (p & E & Hhead & _).
  - repeat constructor.
  - repeat constructor.
  - exists p. split; [exact E|].
    vm_compute in E. injection E as <-. reflexivity.
Defined.

(** X22. The cleanup tests that the script is still in the head before
    it removes it, the effect does not: once other code has removed the
    script the widget refers to, the cleanup leaves the reference in
    place and the next commit throws NotFoundError. *)
Theorem commit_after_foreign_removal_throws (p : Page) (script : nat) :
  scriptRef p = Some script ->
  ~ In script (document_head p) ->
  cleanup p = p /\
  lifecycle (Commit true) p = inl NotFoundError.
Proof.
  intros Hs Hout.
  assert (Hex : existsb (Nat.eqb script) (document_head p) = false).
  { destruct (existsb _ _) eqn:E; [|reflexivity].
    apply existsb_exists in E as (x & Hx & Heq).
    apply Nat.eqb_eq in Heq. now subst. }
  assert (Hc : cleanup p = p) by (unfold cleanup; now rewrite Hs, Hex).
  split; [exact Hc|].
  cbn [lifecycle]. unfold runCleanup. rewrite Hc.
  destruct (cleanupPending p); unfold effect, removeChild;
    cbn [negb scriptRef document_head]; rewrite Hs, Hex; reflexivity.
Qed.

Lemma commit_after_foreign_removal_throws_witness :
  lifecycles [Commit true; RemovedByOthers 2; Commit true]
             (pageBefore [0; 1]%nat 2)
  = inl NotFoundError.
Proof.
  destruct (commit_after_foreign_removal_throws
              (mkPage [0; 1]%nat (Some 2%nat) 3 true) 2) as [_ H].
  - reflexivity.
  - cbn. intros [H|[H|[]]]; discriminate.
  - cbn [lifecycles]. cbn [lifecycle pageBefore runCleanup cleanupPending
                             effect negb scriptRef document_head created app].
    exact H.
Defined.

(** ** The two wheel handlers *)

(** X23. On a series of at least ten points the wheel handler of
    YahooFinanceChart is the one of RealStockChart and
    InteractiveStockChart: for every wheel event and every chart state,
    also one with a viewport that is not a number, both leave the same
    state.  The bound [Math.max(10, stockData.length)] of the one and the
    bound [stockData.length] of the other differ only below ten points. *)
Theorem wheel_handlers_agree_from_ten_points
        (len : nat) (deltaY : num) (st : ChartState) :
  (10 <= len)%nat ->
  handleWheel_yahoo len deltaY st = handleWheel len deltaY st.
Proof.
  intros Hlen. unfold handleWheel_yahoo, handleWheel. cbv zeta.
  assert (E : JS.max (ofZ 10) (ofNat len) = ofNat len).
  { unfold ofNat. rewrite max_ofZ. f_equal. lia. }
  rewrite E. reflexivity.
Qed.

Lemma wheel_handlers_agree_from_ten_points_witness :
  handleWheel_yahoo 90 (ofZ 100) (loadedChartState 90 (ofZ 90))
  = handleWheel 90 (ofZ 100) (loadedChartState 90 (ofZ 90)).
Proof.
  apply (wheel_handlers_agree_from_ten_points
           90 (ofZ 100) (loadedChartState 90 (ofZ 90))).
  lia.
Defined.

(** ** The price grid *)

Section GridFacts.

Local Open Scope num_scope.

Lemma grid_entry (Hq M m : Q) (i : Z) :
  (padding + (Fin Hq * ofZ i) / ofZ 5,
   Fin M - ((Fin M - Fin m) * ofZ i) / ofZ 5)
  = (Fin (gridY Hq i), Fin (gridLabel M m i)).
Proof. reflexivity. Qed.

Lemma gridY_correct (Hq : Q) (i : Z) :
  (gridY Hq i == 60 + Hq * inject_Z i / 5)%Q.
Proof. unfold gridY. rewrite !Qred_correct. reflexivity. Qed.

Lemma gridLabel_correct (M m : Q) (i : Z) :
  (gridLabel M m i == M - (M - m) * inject_Z i / 5)%Q.
Proof. unfold gridLabel. rewrite !Qred_correct. reflexivity. Qed.

Lemma gridY_increases (Hq : Q) (i j : Z) :
  (0 < Hq)%Q -> i < j -> (gridY Hq i < gridY Hq j)%Q.
Proof.
  intros HH Hij. rewrite !gridY_correct.
  assert (Hlt : (inject_Z i < inject_Z j)%Q) by now rewrite <- Zlt_Qlt.
  assert (Hm : (Hq * inject_Z i < Hq * inject_Z j)%Q).
  { rewrite !(Qmult_comm Hq). now apply Qmult_lt_compat_r. }
  apply Qplus_lt_r. unfold Qdiv. now apply Qmult_lt_compat_r.
Qed.

Lemma gridLabel_decreases (M m : Q) (i j : Z) :
  (m < M)%Q -> i <= j -> (gridLabel M m j <= gridLabel M m i)%Q.
Proof.
  intros HmM Hij. rewrite !gridLabel_correct.
  assert (Hle : (inject_Z i <= inject_Z j)%Q) by now rewrite <- Zle_Qle.
  assert (Hm : ((M - m) * inject_Z i <= (M - m) * inject_Z j)%Q).
  { rewrite !(Qmult_comm (M - m)). apply Qmult_le_compat_r; lra. }
  assert (Hd : ((M - m) * inject_Z i / 5 <= (M - m) * inject_Z j / 5)%Q).
  { unfold Qdiv. apply Qmult_le_compat_r; [exact Hm | discriminate]. }
  revert Hd. generalize ((M - m) * inject_Z i / 5)%Q.
  generalize ((M - m) * inject_Z j / 5)%Q. intros a b Hab. lra.
Qed.

(** The entries of a list given by a function on the indices 0 to 5. *)
Lemma six_entries {A : Type} (f : Z -> A) (i : nat) (x : A) :
  nth_error [f 0; f 1; f 2; f 3; f 4; f 5] i = Some x ->
  0 <= Z.of_nat i <= 5 /\ x = f (Z.of_nat i).
Proof.
  do 6 (destruct i as [|i];
        [intros H; injection H as <-; split; [lia | reflexivity]|]).
  destruct i; discriminate.
Qed.

End GridFacts.

(** X24. For visible points that satisfy the OHLCV invariant, with finite
    and positive highs and lows of which two are at least one cent apart,
    on a canvas higher than the two paddings (its height is an unsigned
    32-bit integer), the price grid has six lines.  The first lies on the
    top edge and is labelled with the highest visible price, the last
    lies on the bottom edge; from each line to the next the y grows and
    the price on the label does not.  (The label of the last line is the
    lowest visible price in exact arithmetic only, and is not part of the
    statement.) *)
Theorem price_grid_runs_from_top_to_bottom
        (canvasWidth canvasHeight : Z) (visibleData : list StockData) :
  120 < canvasHeight < 2 ^ 32 ->
  Forall ohlcv_ok visibleData ->
  quotedPrices visibleData ->
  let drawing := drawVisible canvasWidth canvasHeight visibleData in
  let prices := flat_map (fun d => [high d; low d]) visibleData in
  length (d_grid drawing) = 6%nat /\
  (exists top, nth_error (d_grid drawing) 0 = Some top /\
               fst top = padding /\ JS.seq (snd top) (maxOf prices) = true) /\
  (exists bottom, nth_error (d_grid drawing) 5 = Some bottom /\
                  fst bottom = (ofZ canvasHeight - padding)%num) /\
  (forall (i j : nat) (above below : num * num),
      (i < j)%nat ->
      nth_error (d_grid drawing) i = Some above ->
      nth_error (d_grid drawing) j = Some below ->
      JS.lt (fst above) (fst below) = true /\
      JS.le (snd below) (snd above) = true).
Proof.
  intros [Hh _] Hok Hq0 drawing prices. subst drawing prices.
  pose proof (quotedPrices_spread visibleData Hq0) as Hsp.
  unfold drawVisible. cbv zeta. cbn [d_priceScale d_grid].
  destruct (price_range visibleData Hok Hsp)
    as (m & M & Em & EM & HmM & _).
  rewrite Em, EM.
  destruct (chartHeight_Fin canvasHeight) as (Hq & EH & VH). rewrite EH.
  assert (HH : (0 < Hq)%Q).
  { rewrite VH. rewrite Zlt_Qlt in Hh.
    change (inject_Z 120) with 120%Q in Hh. lra. }
  cbn [map]. rewrite !grid_entry.
  split; [reflexivity|]. split; [|split].
  - eexists. split; [reflexivity|]. cbn [fst snd]. split.
    + unfold gridY, padding, ofZ.
      change (inject_Z 60) with (Qred (inject_Z 60)) at 2.
      apply Fin_Qred_eq. rewrite !Qred_correct.
      change (inject_Z 0) with 0%Q. change (inject_Z 5) with 5%Q.
      change (inject_Z 60) with 60%Q. field.
    + cbn [JS.seq]. apply Qeq_eq_bool. rewrite gridLabel_correct.
      change (inject_Z 0) with 0%Q. field.
  - eexists. split; [reflexivity|]. cbn [fst].
    unfold gridY, padding, ofZ. cbn [JS.sub].
    apply Fin_Qred_eq. rewrite !Qred_correct, VH.
    change (inject_Z 5) with 5%Q. change (inject_Z 60) with 60%Q. field.
  - intros i j above below Hij Hi Hj.
    apply (six_entries (fun k => (Fin (gridY Hq k), Fin (gridLabel M m k))))
      in Hi as [Hi ->].
    apply (six_entries (fun k => (Fin (gridY Hq k), Fin (gridLabel M m k))))
      in Hj as [Hj ->].
    cbn [fst snd]. split.
    + apply lt_Fin. apply gridY_increases; [exact HH | lia].
    + apply le_Fin. apply gridLabel_decreases; [exact HmM | lia].
Qed.

Lemma price_grid_runs_from_top_to_bottom_witness :
  let drawing := drawVisible 800 500 sampleSeries in
  let prices := flat_map (fun d => [high d; low d]) sampleSeries in
  length (d_grid drawing) = 6%nat /\
  (exists top, nth_error (d_grid drawing) 0 = Some top /\
               fst top = padding /\ JS.seq (snd top) (maxOf prices) = true) /\
  (exists bottom, nth_error (d_grid drawing) 5 = Some bottom /\
                  fst bottom = (ofZ 500 - padding)%num) /\
  (forall (i j : nat) (above below : num * num),
      (i < j)%nat ->
      nth_error (d_grid drawing) i = Some above ->
      nth_error (d_grid drawing) j = Some below ->
      JS.lt (fst above) (fst below) = true /\
      JS.le (snd below) (snd above) = true).
Proof.
  apply (price_grid_runs_from_top_to_bottom 800 500 sampleSeries).
  - lia.
  - repeat constructor.
  - apply sampleSeries_quoted.
Defined.
